(** * Orchestration core of the speech-to-text servers

    A shallow embedding of the three FastAPI servers of the repository
    ([python/server_original.py], [python/server.py], [python/server_dual.py])
    and the properties of their [POST /transcribe] handlers.

    The handlers are effectful Python: they create and unlink a temporary
    file, call two external engines and raise exceptions.  They are modelled
    in a state-and-exception monad over an explicit operating-system state;
    what the external collaborators do (the engines, the temporary-file
    library, the copy of the upload) is read from an [oracle]. *)

From stdpp Require Import base option list strings pretty gmap.

(** ** Python values the handlers manipulate *)

(** Exceptions.  [Exception msg] stands for an instance of any subclass of
    [Exception] raised by a library, with [msg] what [str(e)] gives;
    [BaseException msg] for one that is not an [Exception]
    ([asyncio.CancelledError], [KeyboardInterrupt]). *)
Inductive exn :=
| HTTPException (status_code : nat) (detail : string)
| Exception (msg : string)
| UnboundLocalError (name : string)
| BaseException (msg : string).

(** What [except Exception] catches. *)
Definition is_Exception (e : exn) : bool :=
  match e with
  | BaseException _ => false
  | _ => true
  end.

(** [str(e)], as the f-strings of the handlers use it. *)
Definition str (e : exn) : string :=
  match e with
  | HTTPException c d => pretty c +:+ ": " +:+ d
  | Exception m => m
  | UnboundLocalError x =>
      "local variable '" +:+ x +:+ "' referenced before assignment"
  | BaseException m => m
  end.

(** Truthiness of a Python string. *)
Definition truthy (s : string) : bool := negb (bool_decide (s = "")).

(** [s.startswith(p)] *)
Definition startswith (p s : string) : bool := String.prefix p s.

(** *** Text

    A Python [str] is a sequence of Unicode characters; a [string] here
    holds the bytes of its UTF-8 encoding. *)

Definition continuation (b : N) : bool := ((0x80 <=? b) && (b <=? 0xBF))%N.

(** The code point that one, two or three bytes encode, when they are the
    UTF-8 encoding of one character (no white-space character lies beyond
    U+FFFF, where encodings take four bytes). *)
Definition code_point (bytes : list N) : option N :=
  match bytes with
  | [a] => if (a <? 0x80)%N then Some a else None
  | [a; b] =>
      if ((0xC2 <=? a) && (a <=? 0xDF))%N && continuation b
      then Some ((a - 0xC0) * 0x40 + (b - 0x80))%N
      else None
  | [a; b; c] =>
      let p := ((a - 0xE0) * 0x1000 + (b - 0x80) * 0x40 + (c - 0x80))%N in
      if ((0xE0 <=? a) && (a <=? 0xEF))%N && continuation b && continuation c
         && (0x800 <=? p)%N && negb ((0xD800 <=? p) && (p <=? 0xDFFF))%N
      then Some p
      else None
  | _ => None
  end.

(** The UTF-8 encoding of the character with code point [c]. *)
Definition utf8 (c : N) : string :=
  let byte n := String (Ascii.ascii_of_N n) EmptyString in
  if (c <? 0x80)%N then byte c
  else if (c <? 0x800)%N
  then byte (0xC0 + c / 0x40)%N +:+ byte (0x80 + c mod 0x40)%N
  else if (c <? 0x10000)%N
  then byte (0xE0 + c / 0x1000)%N +:+ byte (0x80 + (c / 0x40) mod 0x40)%N
         +:+ byte (0x80 + c mod 0x40)%N
  else byte (0xF0 + c / 0x40000)%N +:+ byte (0x80 + (c / 0x1000) mod 0x40)%N
         +:+ byte (0x80 + (c / 0x40) mod 0x40)%N +:+ byte (0x80 + c mod 0x40)%N.

(** [str.isspace] on one character: the characters of bidirectional type
    WS, B or S and those of category Zs.  These are the characters
    [s.strip()] removes. *)
Definition isspace (c : N) : bool :=
  (((0x09 <=? c) && (c <=? 0x0D)) || ((0x1C <=? c) && (c <=? 0x20))
   || (c =? 0x85) || (c =? 0xA0) || (c =? 0x1680)
   || ((0x2000 <=? c) && (c <=? 0x200A))
   || (c =? 0x2028) || (c =? 0x2029) || (c =? 0x202F) || (c =? 0x205F)
   || (c =? 0x3000))%N.

(** The bytes of one white-space character. *)
Definition space_char (bytes : list Ascii.ascii) : bool :=
  match code_point (Ascii.N_of_ascii <$> bytes) with
  | Some c => isspace c
  | None => false
  end.

(** What follows the character a string begins with, when [sp] accepts its
    bytes (one, two or three of them). *)
Definition leading (sp : list Ascii.ascii → bool) (s : string) : option string :=
  match s with
  | String a r1 =>
      if sp [a] then Some r1 else
      match r1 with
      | String b r2 =>
          if sp [a; b] then Some r2 else
          match r2 with
          | String c r3 => if sp [a; b; c] then Some r3 else None
          | EmptyString => None
          end
      | EmptyString => None
      end
  | EmptyString => None
  end.

(** The string without the characters at its beginning that [sp]
    accepts. *)
Fixpoint drop_leading (sp : list Ascii.ascii → bool) (s : string) : string :=
  match s with
  | String a r1 =>
      if sp [a] then drop_leading sp r1 else
      match r1 with
      | String b r2 =>
          if sp [a; b] then drop_leading sp r2 else
          match r2 with
          | String c r3 => if sp [a; b; c] then drop_leading sp r3 else s
          | EmptyString => s
          end
      | EmptyString => s
      end
  | EmptyString => EmptyString
  end.

(** [s.lstrip()], [s.rstrip()] and [s.strip()].  From the right the bytes
    are met last byte first. *)
Definition lstrip (s : string) : string := drop_leading space_char s.

Definition rstrip (s : string) : string :=
  String.rev (drop_leading (λ bytes, space_char (reverse bytes)) (String.rev s)).

Definition strip (s : string) : string := rstrip (lstrip s).

(** The same on a text given as the list of its characters ([encode] is
    the text): [s.strip()] removes the characters at both ends for which
    [str.isspace] holds.  [strip_encode] below shows that [strip] does
    this. *)
Definition encode (cs : list N) : string := foldr (λ c s, utf8 c +:+ s) "" cs.

Fixpoint drop_spaces (cs : list N) : list N :=
  match cs with
  | c :: cs' => if isspace c then drop_spaces cs' else cs
  | [] => []
  end.

Definition strip_chars (cs : list N) : list N :=
  reverse (drop_spaces (reverse (drop_spaces cs))).

(** ** The operating-system state and the effects on it *)

(** What a request does to the outside world, in order. *)
Inductive event :=
| Created (path : string)
| Copied (path : string)
| Unlinked (path : string)
| LocalWhisper (path : string) (language : option string)
| OpenAIWhisper (path : string) (language : option string).

#[global] Instance event_eq_dec : EqDecision event.
Proof. solve_decision. Defined.

(** [files]: the paths that exist; [trace]: the effects so far, oldest
    first; [temp_path]: the handler's local variable of that name, [None]
    while it is unbound. *)
Record state := State {
  files : gset string;
  trace : list event;
  temp_path : option string
}.

Definition log (ev : event) (s : state) : state :=
  State (files s) (trace s ++ [ev]) (temp_path s).

(** Replies of the two engines.  A reply that lacks the field the handler
    reads ([result["text"]], [transcript.text]) raises inside the same
    [try] block as the call, so it is a [WRaise] / [ORaise]. *)
Inductive whisper_reply :=
| WResult (text : string) (language : option string)
| WRaise (e : exn).

Inductive openai_reply :=
| OTranscript (text : string)
| ORaise (e : exn).

(** The external collaborators.  An engine may answer differently each time
    it is called: its reply depends on the effects so far. *)
Record oracle := Oracle {
  tmp_name : string;
  tmp_fault : option exn;
  copy_fault : option exn;
  whisper_transcribe : list event → string → gmap string string → whisper_reply;
  openai_create : list event → string → option string → openai_reply
}.

(** ** The monad of handlers *)

Definition M (A : Type) : Type := state → (A + exn) * state.

#[global] Instance M_ret : MRet M := λ A (a : A) s, (inl a, s).

#[global] Instance M_bind : MBind M := λ A B (f : A → M B) (m : M A) s,
  match m s with
  | (inl a, s') => f a s'
  | (inr e, s') => (inr e, s')
  end.

Definition raise {A} (e : exn) : M A := λ s, (inr e, s).

(** [try: m except Exception as e: h e] *)
Definition try_except {A} (m : M A) (h : exn → M A) : M A := λ s,
  match m s with
  | (inr e, s') => if is_Exception e then h e s' else (inr e, s')
  | r => r
  end.

(** [try: m finally: f].  An exception of [f] replaces the outcome of [m]. *)
Definition try_finally {A} (m : M A) (f : M unit) : M A := λ s,
  match m s with
  | (r, s') =>
      match f s' with
      | (inl _, s'') => (r, s'')
      | (inr e, s'') => (inr e, s'')
      end
  end.

(** A call of the handler starts with its locals unbound. *)
Definition entry (s : state) : state := State (files s) (trace s) None.

Definition call {A} (body : M A) : M A := λ s, body (entry s).

(** The HTTP status the framework answers with: 200 for a returned value,
    the status of an [HTTPException], 500 for any other [Exception]. *)
Definition status_of {A} (r : A + exn) : option nat :=
  match r with
  | inl _ => Some 200
  | inr (HTTPException c _) => Some c
  | inr (BaseException _) => None
  | inr _ => Some 500
  end.

Section Effects.
Variable w : oracle.

(** [tempfile.NamedTemporaryFile(delete=False, ...)]: the file exists
    from here on, unless the library raises. *)
Definition NamedTemporaryFile : M string := λ s,
  match tmp_fault w with
  | Some e => (inr e, s)
  | None =>
      (inl (tmp_name w),
       log (Created (tmp_name w))
         (State ({[tmp_name w]} ∪ files s) (trace s) (temp_path s)))
  end.

(** [shutil.copyfileobj(audio.file, temp_file)] *)
Definition copyfileobj (temp_file : string) : M unit := λ s,
  match copy_fault w with
  | Some e => (inr e, s)
  | None => (inl (), log (Copied temp_file) s)
  end.

(** [temp_path = temp_file.name] *)
Definition bind_temp_path (name : string) : M unit := λ s,
  (inl (), State (files s) (trace s) (Some name)).

(** Reading the local [temp_path]. *)
Definition read_temp_path : M string := λ s,
  match temp_path s with
  | Some p => (inl p, s)
  | None => (inr (UnboundLocalError "temp_path"), s)
  end.

(** [os.path.exists(p)] and [os.unlink(p)] *)
Definition path_exists (p : string) : M bool := λ s,
  (inl (bool_decide (p ∈ files s)), s).

Definition unlink (p : string) : M unit := λ s,
  if bool_decide (p ∈ files s)
  then (inl (), log (Unlinked p) (State (files s ∖ {[p]}) (trace s) (temp_path s)))
  else (inr (Exception ("[Errno 2] No such file or directory: '" +:+ p +:+ "'")), s).

(** The [finally] clause of the three handlers:
    [if os.path.exists(temp_path): os.unlink(temp_path)] *)
Definition cleanup : M unit :=
  p ← read_temp_path;
  ex ← path_exists p;
  if ex : bool then unlink p else mret ().

(** [open(p, "rb")] *)
Definition open_rb (p : string) : M unit := λ s,
  if bool_decide (p ∈ files s) then (inl (), s)
  else (inr (Exception ("[Errno 2] No such file or directory: '" +:+ p +:+ "'")), s).

(** [model.transcribe(p, **options)] *)
Definition model_transcribe (p : string) (options : gmap string string)
  : M (string * option string) := λ s,
  let s' := log (LocalWhisper p (options !! "language")) s in
  match whisper_transcribe w (trace s) p options with
  | WResult text lang => (inl (text, lang), s')
  | WRaise e => (inr e, s')
  end.

(** [openai_client.audio.transcriptions.create(model="whisper-1",
    file=audio_file, language=language)], yielding [transcript.text]. *)
Definition transcriptions_create (p : string) (language : option string)
  : M string := λ s,
  let s' := log (OpenAIWhisper p language) s in
  match openai_create w (trace s) p language with
  | OTranscript text => (inl text, s')
  | ORaise e => (inr e, s')
  end.
End Effects.

(** The state once the upload is staged: the temporary file exists, the
    upload has been copied into it and [temp_path] is bound. *)
Definition staged (w : oracle) (s : state) : state :=
  State ({[tmp_name w]} ∪ files s)
        (trace s ++ [Created (tmp_name w); Copied (tmp_name w)])
        (Some (tmp_name w)).

(** The state when the copy has raised: the file exists, [temp_path] is
    still unbound. *)
Definition half_staged (w : oracle) (s : state) : state :=
  State ({[tmp_name w]} ∪ files s) (trace s ++ [Created (tmp_name w)]) None.

(** ** Language options, as all three servers prepare them

    [options = {}]
    [if language and language != "auto":]
    [    lang_map = {"en-IN": "en", "hi-IN": "hi", "gu-IN": "gu"}]
    [    options["language"] = lang_map.get(language, language)] *)
Definition lang_map : gmap string string :=
  <["en-IN" := "en"]> (<["hi-IN" := "hi"]> (<["gu-IN" := "gu"]> ∅)).

Definition prepare_options (language : string) : gmap string string :=
  if truthy language && negb (bool_decide (language = "auto"))
  then <["language" := default language (lang_map !! language)]> ∅
  else ∅.

(** The language code an engine is given: the entry of [options], or nothing
    ([null]: the engine detects the language). *)
Definition normalize (language : string) : option string :=
  prepare_options language !! "language".

(** ** Requests *)

(** The uploaded part: [audio.content_type] is absent when the part has no
    [Content-Type] header. *)
Record UploadFile := Upload {
  content_type : option string;
  filename : string
}.

(** A Python dict literal with string values (its keys are distinct in
    every use below). *)
Definition dict (items : list (string * string)) : gmap string string :=
  list_to_map items.

(** [if not audio.content_type.startswith('audio/'): raise HTTPException(400, ...)] *)
Definition check_content_type (audio : UploadFile) : M unit :=
  match content_type audio with
  | None => raise (Exception "'NoneType' object has no attribute 'startswith'")
  | Some ct =>
      if startswith "audio/" ct then mret ()
      else raise (HTTPException 400 "File must be an audio file")
  end.

(** The uploads that pass that check. *)
Definition is_audio (audio : UploadFile) : bool :=
  match content_type audio with
  | Some ct => startswith "audio/" ct
  | None => false
  end.

(** ** JSON answers of the read-only endpoints *)

(** The values the endpoints return: dict literals of strings, booleans,
    [None] and nested dicts, in the order they are written. *)
#[local] Unset Elimination Schemes.
Inductive json :=
| JNull
| JBool (b : bool)
| JStr (s : string)
| JObj (fields : list (string * json)).
#[local] Set Elimination Schemes.

(** [obj[k]] on the fields of an object. *)
Fixpoint jget (k : string) (fields : list (string * json)) : option json :=
  match fields with
  | [] => None
  | (k', v) :: rest => if bool_decide (k' = k) then Some v else jget k rest
  end.

(** [j[k1][k2]...] *)
Fixpoint jpath (path : list string) (j : json) : option json :=
  match path with
  | [] => Some j
  | k :: rest =>
      match j with
      | JObj fields =>
          match jget k fields with
          | Some j' => jpath rest j'
          | None => None
          end
      | _ => None
      end
  end.

(** [x if c else None], for a string [x]. *)
Definition str_or_null (c : bool) (x : string) : json :=
  if c then JStr x else JNull.

(** ** Start-up: the environment, the model and the OpenAI client *)

(** [s.lower()] on the ASCII letters.  (No character outside ASCII lowers
    to one of the letters of ["true"], the only string a lowered value is
    compared with.) *)
Definition lower_ascii (a : Ascii.ascii) : Ascii.ascii :=
  let n := Ascii.nat_of_ascii a in
  if (65 <=? n) && (n <=? 90) then Ascii.ascii_of_nat (n + 32) else a.

Fixpoint lower (s : string) : string :=
  match s with
  | String a s' => String (lower_ascii a) (lower s')
  | EmptyString => EmptyString
  end.

(** What start-up finds: the environment (after [load_dotenv()]), whether
    [whisper.load_model(size)] raises, and whether building the client and
    listing its models ([OpenAI(api_key=k)], [client.models.list()])
    raises. *)
Record boot := Boot {
  environ : gmap string string;
  load_model : string → option exn;
  connect : string → option exn
}.

(** [os.getenv(k, d)] and [os.getenv(k)] *)
Definition getenv (env : gmap string string) (k d : string) : string :=
  default d (env !! k).

(** [try: x = f() except Exception: x = None], as the truth value of [x];
    a fault that is not an [Exception] goes through. *)
Definition attempt (r : option exn) : bool + exn :=
  match r with
  | None => inl true
  | Some e => if is_Exception e then inl false else inr e
  end.

(** The key the example [.env] ships with. *)
Definition placeholder_key : string := "your_openai_api_key_here".

(** Lines 54-66 of [server_dual.py] (50-62 of [server.py]): the client is
    built only for a key that is set, non-empty and not the placeholder. *)
Definition init_openai (b : boot) : bool + exn :=
  match environ b !! "OPENAI_API_KEY" with
  | Some key =>
      if truthy key && negb (bool_decide (key = placeholder_key))
      then attempt (connect b key)
      else inl false
  | None => inl false
  end.

(** ** [python/server_original.py] *)
Module ServerOriginal.

Record globals := Globals {
  whisper_model : bool;
  MODEL_SIZE : string
}.

Section Handler.
Variable g : globals.
Variable w : oracle.

(** Lines 73-97: the transcription, once the upload is staged. *)
Definition transcribe_staged (language : string) : M (gmap string string) :=
  let options := prepare_options language in
  p ← read_temp_path;
  result ← model_transcribe w p options;
  mret (dict [("text", strip result.1);
              ("language_detected", default "unknown" result.2);
              ("confidence", "N/A");
              ("engine", "whisper");
              ("model_size", MODEL_SIZE g)]).

(** Lines 99-101: the [except Exception as e] clause. *)
Definition transcription_failed (e : exn) : M (gmap string string) :=
  raise (HTTPException 500 ("Transcription failed: " +:+ str e)).

Definition transcribe_audio (audio : UploadFile) (language : string)
  : M (gmap string string) :=
  call (
    if negb (whisper_model g)
    then raise (HTTPException 503 "Whisper model not loaded")
    else
      check_content_type audio;;
      temp_file ← NamedTemporaryFile w;
      try_finally
        (try_except
           (copyfileobj w temp_file;;
            bind_temp_path temp_file;;
            transcribe_staged language)
           transcription_failed)
        cleanup).
End Handler.

(** Lines 29-39: start-up ([MODEL_SIZE = "base"]). *)
Definition startup_event (b : boot) : globals + exn :=
  match attempt (load_model b "base") with
  | inl loaded => inl (Globals loaded "base")
  | inr e => inr e
  end.

(** Lines 41-48: [GET /health]. *)
Definition health_check (g : globals) : json :=
  JObj [("status", JStr "healthy");
        ("model_loaded", JBool (whisper_model g));
        ("model_size", JStr (MODEL_SIZE g))].

(** Lines 108-119: [GET /]. *)
Definition root (g : globals) : json :=
  JObj [("message", JStr "STT Server is running");
        ("model_loaded", JBool (whisper_model g));
        ("endpoints",
         JObj [("health", JStr "/health");
               ("transcribe", JStr "/transcribe (POST)");
               ("docs", JStr "/docs")])].
End ServerOriginal.

(** ** [python/server.py]: both engines, for comparison *)
Module Server.

Record globals := Globals {
  whisper_model : bool;
  openai_client : bool;
  MODEL_SIZE : string
}.

(** What the handler returns: the dict of one engine, or the dual shape
    [{"engines": results, "dual_mode": True, "filename": ...}]. *)
Inductive response :=
| Single (result : gmap string string)
| Dual (engines : gmap string (gmap string string)) (dual_mode : bool)
       (file : string).

Section Handler.
Variable g : globals.
Variable w : oracle.

(** Lines 107-126: the local engine. *)
Definition run_local (engines : string) (options : gmap string string)
    (results : gmap string (gmap string string))
  : M (gmap string (gmap string string)) :=
  if bool_decide (engines ∈ ["both"; "local"]) && whisper_model g
  then
    try_except
      (p ← read_temp_path;
       local_result ← model_transcribe w p options;
       mret (<["local_whisper" :=
                 dict [("text", strip local_result.1);
                       ("language_detected", default "unknown" local_result.2);
                       ("confidence", "N/A");
                       ("engine", "local_whisper");
                       ("model_size", MODEL_SIZE g);
                       ("status", "success")]]> results))
      (λ e,
       mret (<["local_whisper" :=
                 dict [("text", "Local Whisper failed: " +:+ str e);
                       ("status", "error");
                       ("engine", "local_whisper")]]> results))
  else mret results.

(** What the remote engine is given as [language] (line 136):
    [options.get("language") if options.get("language") else None] *)
Definition openai_language (options : gmap string string) : option string :=
  match options !! "language" with
  | Some l => if truthy l then Some l else None
  | None => None
  end.

(** Lines 128-159: the OpenAI engine. *)
Definition run_openai (engines : string) (options : gmap string string)
    (results : gmap string (gmap string string))
  : M (gmap string (gmap string string)) :=
  if bool_decide (engines ∈ ["both"; "openai"]) && openai_client g
  then
    try_except
      (p ← read_temp_path;
       open_rb p;;
       text ← transcriptions_create w p (openai_language options);
       mret (<["openai_whisper" :=
                 dict [("text", strip text);
                       ("language_detected",
                        default "auto-detected" (options !! "language"));
                       ("confidence", "N/A");
                       ("engine", "openai_whisper");
                       ("model", "whisper-1");
                       ("status", "success")]]> results))
      (λ e,
       mret (<["openai_whisper" :=
                 dict [("text", "OpenAI Whisper failed: " +:+ str e);
                       ("status", "error");
                       ("engine", "openai_whisper")]]> results))
  else if bool_decide (engines ∈ ["both"; "openai"]) && negb (openai_client g)
  then
    mret (<["openai_whisper" :=
              dict [("text", "OpenAI not configured - add API key to python/.env");
                    ("status", "not_configured");
                    ("engine", "openai_whisper")]]> results)
  else mret results.

(** Lines 161-172: the shape of the answer. *)
Definition shape (engines : string) (audio : UploadFile)
    (results : gmap string (gmap string string)) : response :=
  match bool_decide (engines = "local"), results !! "local_whisper" with
  | true, Some r => Single r
  | _, _ =>
      match bool_decide (engines = "openai"), results !! "openai_whisper" with
      | true, Some r => Single r
      | _, _ => Dual results true (filename audio)
      end
  end.

(** Lines 99-172: both engines in turn, once the upload is staged. *)
Definition compare_engines (audio : UploadFile) (language engines : string)
  : M response :=
  let options := prepare_options language in
  let results : gmap string (gmap string string) := ∅ in
  results ← run_local engines options results;
  results ← run_openai engines options results;
  mret (shape engines audio results).

Definition transcribe_audio (audio : UploadFile) (language engines : string)
  : M response :=
  call (
    if negb (whisper_model g)
    then raise (HTTPException 503 "Whisper model not loaded")
    else
      check_content_type audio;;
      temp_file ← NamedTemporaryFile w;
      try_finally
        (copyfileobj w temp_file;;
         bind_temp_path temp_file;;
         compare_engines audio language engines)
        cleanup).
End Handler.

(** Lines 33 and 35-62: the configuration and start-up. *)
Definition startup_event (b : boot) : globals + exn :=
  let size := getenv (environ b) "WHISPER_MODEL_SIZE" "base" in
  match attempt (load_model b size) with
  | inl loaded =>
      match init_openai b with
      | inl client => inl (Globals loaded client size)
      | inr e => inr e
      end
  | inr e => inr e
  end.

(** Lines 64-75: [GET /health]. *)
Definition health_check (g : globals) : json :=
  JObj [("status", JStr "healthy");
        ("model_loaded", JBool (whisper_model g));
        ("model_size", JStr (MODEL_SIZE g));
        ("engines",
         JObj [("local_whisper", JBool (whisper_model g));
               ("openai_whisper", JBool (openai_client g))])].

(** Lines 178-190: [GET /]. *)
Definition root (g : globals) : json :=
  JObj [("message", JStr "STT Dual Engine Server");
        ("local_whisper", JBool (whisper_model g));
        ("openai_whisper", JBool (openai_client g));
        ("endpoints",
         JObj [("health", JStr "/health");
               ("transcribe", JStr "/transcribe (POST)");
               ("docs", JStr "/docs")])].
End Server.

(** ** [python/server_dual.py]: a primary engine and a fallback *)
Module ServerDual.

Record globals := Globals {
  local_whisper_model : bool;
  openai_client : bool;
  MODEL_SIZE : string;
  PRIMARY_ENGINE : string;
  FALLBACK_ENGINE : string;
  ENABLE_DUAL_ENGINE : bool
}.

Section Handler.
Variable g : globals.
Variable w : oracle.

(** The adapter of the local engine (lines 164-179). *)
Definition transcribe_with_local_whisper (temp_path language : string)
  : M (gmap string string) :=
  let options := prepare_options language in
  result ← model_transcribe w temp_path options;
  mret (dict [("text", strip result.1);
              ("language_detected", default "unknown" result.2);
              ("confidence", "N/A");
              ("engine", "local_whisper");
              ("model_size", MODEL_SIZE g)]).

(** What the adapter of the remote engine passes as [language]:
    [language if language != "auto" else None]. *)
Definition openai_language (language : string) : option string :=
  if bool_decide (language = "auto") then None else Some language.

(** The adapter of the remote engine (lines 181-196). *)
Definition transcribe_with_openai (temp_path language : string)
  : M (gmap string string) :=
  open_rb temp_path;;
  text ← transcriptions_create w temp_path (openai_language language);
  mret (dict [("text", strip text);
              ("language_detected",
               if bool_decide (language = "auto") then "auto-detected"
               else language);
              ("confidence", "N/A");
              ("engine", "openai_whisper");
              ("model", "whisper-1")]).

(** An engine name the two attempts can serve: the name of one of the
    two engines, whose handle is set (the conditions of lines 124-127
    and 142-145). *)
Definition available (name : string) : bool :=
  bool_decide (name = "local_whisper") && local_whisper_model g
  || bool_decide (name = "openai_whisper") && openai_client g.

(** Lines 99-112: which engine to try first. *)
Definition select_engine (engine : string) : M string :=
  if bool_decide (engine = "auto") then
    if bool_decide (PRIMARY_ENGINE g = "local_whisper") && local_whisper_model g
    then mret "local_whisper"
    else if bool_decide (PRIMARY_ENGINE g = "openai_whisper") && openai_client g
    then mret "openai_whisper"
    else if local_whisper_model g then mret "local_whisper"
    else if openai_client g then mret "openai_whisper"
    else raise (HTTPException 503 "No transcription engines available")
  else mret (engine +:+ "_whisper").

(** The requests that pass the selection: all but those for [auto]
    when no engine is available. *)
Definition selectable (engine : string) : bool :=
  negb (bool_decide (engine = "auto"))
  || local_whisper_model g || openai_client g.

(** Lines 123-132: the first attempt. *)
Definition try_primary (selected_engine temp_path language : string)
  : M (gmap string string) :=
  result ←
    (if bool_decide (selected_engine = "local_whisper") && local_whisper_model g
     then transcribe_with_local_whisper temp_path language
     else if bool_decide (selected_engine = "openai_whisper") && openai_client g
     then transcribe_with_openai temp_path language
     else raise (Exception ("Engine " +:+ selected_engine +:+ " not available")));
  mret (<["engine_used" := selected_engine]> result).

(** Lines 139-151: the second attempt. *)
Definition try_fallback (primary_error : exn) (temp_path language : string)
  : M (gmap string string) :=
  result ←
    (if bool_decide (FALLBACK_ENGINE g = "local_whisper") && local_whisper_model g
     then transcribe_with_local_whisper temp_path language
     else if bool_decide (FALLBACK_ENGINE g = "openai_whisper") && openai_client g
     then transcribe_with_openai temp_path language
     else raise (Exception ("Fallback engine " +:+ FALLBACK_ENGINE g
                              +:+ " not available")));
  mret (<["primary_engine_error" := str primary_error]>
          (<["engine_used" := FALLBACK_ENGINE g +:+ " (fallback)"]> result)).

(** Lines 134-157: what happens once the first attempt has raised. *)
Definition on_primary_error (primary_error : exn)
    (temp_path language : string) : M (gmap string string) :=
  if ENABLE_DUAL_ENGINE g && truthy (FALLBACK_ENGINE g) then
    try_except
      (try_fallback primary_error temp_path language)
      (λ fallback_error,
       raise (HTTPException 500
                ("Both engines failed. Primary: " +:+ str primary_error
                   +:+ ", Fallback: " +:+ str fallback_error)))
  else
    raise (HTTPException 500 ("Transcription failed: " +:+ str primary_error)).

(** Lines 122-157: the first attempt, then the fallback policy. *)
Definition dispatch (selected_engine language : string)
  : M (gmap string string) :=
  p ← read_temp_path;
  try_except
    (try_primary selected_engine p language)
    (λ primary_error, on_primary_error primary_error p language).

Definition transcribe_audio (audio : UploadFile) (language engine : string)
  : M (gmap string string) :=
  call (
    check_content_type audio;;
    selected_engine ← select_engine engine;
    temp_file ← NamedTemporaryFile w;
    try_finally
      (copyfileobj w temp_file;;
       bind_temp_path temp_file;;
       dispatch selected_engine language)
      cleanup).
End Handler.

(** Lines 34-37 and 39-66: the configuration and start-up. *)
Definition startup_event (b : boot) : globals + exn :=
  let size := getenv (environ b) "WHISPER_MODEL_SIZE" "base" in
  let primary := getenv (environ b) "PRIMARY_ENGINE" "local_whisper" in
  let fallback := getenv (environ b) "FALLBACK_ENGINE" "openai_whisper" in
  let dual :=
    bool_decide (lower (getenv (environ b) "ENABLE_DUAL_ENGINE" "true") = "true") in
  match attempt (load_model b size) with
  | inl loaded =>
      match init_openai b with
      | inl client => inl (Globals loaded client size primary fallback dual)
      | inr e => inr e
      end
  | inr e => inr e
  end.

(** Lines 68-86: [GET /health]. *)
Definition health_check (g : globals) : json :=
  JObj [("status", JStr "healthy");
        ("engines",
         JObj [("local_whisper",
                JObj [("available", JBool (local_whisper_model g));
                      ("model_size",
                       str_or_null (local_whisper_model g) (MODEL_SIZE g))]);
               ("openai_whisper",
                JObj [("available", JBool (openai_client g));
                      ("model", str_or_null (openai_client g) "whisper-1")])]);
        ("primary_engine", JStr (PRIMARY_ENGINE g));
        ("fallback_engine",
         str_or_null (ENABLE_DUAL_ENGINE g) (FALLBACK_ENGINE g));
        ("dual_engine_enabled", JBool (ENABLE_DUAL_ENGINE g))].

(** Lines 198-212: [GET /engines]. *)
Definition get_engines (g : globals) : json :=
  JObj [("local_whisper",
         JObj [("available", JBool (local_whisper_model g));
               ("model_size", JStr (MODEL_SIZE g));
               ("status",
                JStr (if local_whisper_model g then "loaded" else "not_loaded"))]);
        ("openai_whisper",
         JObj [("available", JBool (openai_client g));
               ("model", JStr "whisper-1");
               ("status",
                JStr (if openai_client g then "connected"
                      else "not_configured"))])].

(** Lines 214-229: [GET /]. *)
Definition root (g : globals) : json :=
  JObj [("message", JStr "STT Dual Engine Server");
        ("engines_available",
         JObj [("local_whisper", JBool (local_whisper_model g));
               ("openai_whisper", JBool (openai_client g))]);
        ("endpoints",
         JObj [("health", JStr "/health");
               ("transcribe", JStr "/transcribe (POST)");
               ("engines", JStr "/engines");
               ("docs", JStr "/docs")])].
End ServerDual.

(** ** Concrete requests and collaborators, used by the examples below *)
Module Examples.

Definition s0 : state := State ∅ [] None.

Definition wav : UploadFile := Upload (Some "audio/wav") "clip.wav".

Definition tmp : string := "/tmp/tmpq3x7.wav".

(** Both engines answer. *)
Definition engines_ok : oracle :=
  Oracle tmp None None
    (λ _ _ _, WResult " hello " (Some "en"))
    (λ _ _ _, OTranscript "hello").

(** The local model raises, the remote engine answers. *)
Definition local_fails : oracle :=
  Oracle tmp None None
    (λ _ _ _, WRaise (Exception "CUDA out of memory"))
    (λ _ _ _, OTranscript "hello").

(** The local model raises an exception that has no message (an
    [AssertionError] of a bare [assert]), the remote engine answers. *)
Definition local_fails_silently : oracle :=
  Oracle tmp None None
    (λ _ _ _, WRaise (Exception ""))
    (λ _ _ _, OTranscript "hello").

(** Both engines raise. *)
Definition both_fail : oracle :=
  Oracle tmp None None
    (λ _ _ _, WRaise (Exception "CUDA out of memory"))
    (λ _ _ _, ORaise (Exception "Connection error.")).

(** The copy of the upload into the temporary file raises. *)
Definition copy_fails : oracle :=
  Oracle tmp None (Some (Exception "[Errno 28] No space left on device"))
    (λ _ _ _, WResult " hello " (Some "en"))
    (λ _ _ _, OTranscript "hello").

(** The temporary file cannot be created. *)
Definition tmp_fails : oracle :=
  Oracle tmp (Some (Exception "[Errno 13] Permission denied: '/tmp/tmpq3x7.wav'"))
    None
    (λ _ _ _, WResult " hello " (Some "en"))
    (λ _ _ _, OTranscript "hello").

(** Engines that pad their text with white space from outside ASCII: a
    no-break space (U+00A0) and a blank before the text, an ideographic
    space (U+3000) and a line separator (U+2028) after it. *)
Definition engines_padded : oracle :=
  Oracle tmp None None
    (λ _ _ _, WResult (utf8 0xA0 +:+ " hello" +:+ utf8 0x3000 +:+ utf8 0x2028)
                (Some "en"))
    (λ _ _ _, OTranscript (utf8 0x2003 +:+ "hello" +:+ utf8 0x85)).

(** The local model is cancelled while it runs. *)
Definition local_cancelled : oracle :=
  Oracle tmp None None
    (λ _ _ _, WRaise (BaseException "CancelledError"))
    (λ _ _ _, OTranscript "hello").

(** The remote engine raises on its first call and answers on its second. *)
Definition openai_flaky : oracle :=
  Oracle tmp None None
    (λ _ _ _, WResult " hello " (Some "en"))
    (λ t _ _, if bool_decide (OpenAIWhisper tmp None ∈ t)
              then OTranscript " second try "
              else ORaise (Exception "Connection error.")).

(** A start-up where everything works, and one where the model does not
    load and the key is still the placeholder of the example [.env]. *)
Definition boot_ok : boot :=
  Boot (<["OPENAI_API_KEY" := "sk-live-1234"]> ∅) (λ _, None) (λ _, None).

Definition boot_bare : boot :=
  Boot (<["OPENAI_API_KEY" := placeholder_key]> ∅)
    (λ _, Some (Exception "CUDA driver not found")) (λ _, None).

(** [server.py] with the model loaded, with and without an OpenAI client;
    and with the model missing but the client present. *)
Definition compare_both : Server.globals := Server.Globals true true "base".
Definition compare_local_only : Server.globals := Server.Globals true false "base".
Definition compare_openai_only : Server.globals := Server.Globals false true "base".

Definition original_loaded : ServerOriginal.globals :=
  ServerOriginal.Globals true "base".

(** [server_dual.py] with its default configuration
    ([PRIMARY_ENGINE=local_whisper], [FALLBACK_ENGINE=openai_whisper],
    [ENABLE_DUAL_ENGINE=true]) and: both engines, the remote one only, none. *)
Definition dual_both : ServerDual.globals :=
  ServerDual.Globals true true "base" "local_whisper" "openai_whisper" true.
Definition dual_openai_only : ServerDual.globals :=
  ServerDual.Globals false true "base" "local_whisper" "openai_whisper" true.
Definition dual_none : ServerDual.globals :=
  ServerDual.Globals false false "base" "local_whisper" "openai_whisper" true.
End Examples.

(** ** Notions the properties are stated with *)

(** Computations that leave the files and the locals alone: everything the
    handlers run between staging and cleanup only extends the trace. *)
Definition trace_only {A} (m : M A) : Prop :=
  ∀ s, files (m s).2 = files s ∧ temp_path (m s).2 = temp_path s
       ∧ ∃ evs, trace (m s).2 = (trace s ++ evs).

Create HintDb trace_only.

(** The faults of the engines are instances of [Exception] (not a
    cancellation or a keyboard interrupt). *)
Definition engines_raise_Exceptions (w : oracle) : Prop :=
  (∀ t p o e, whisper_transcribe w t p o = WRaise e → is_Exception e = true)
  ∧ (∀ t p l e, openai_create w t p l = ORaise e → is_Exception e = true).

(** Computations whose faults are all instances of [Exception]. *)
Definition raises_Exceptions {A} (m : M A) : Prop :=
  ∀ s e s', m s = (inr e, s') → is_Exception e = true.

(** An event that is a call of an engine on the file [p]. *)
Definition is_call_on (p : string) (ev : event) : bool :=
  match ev with
  | LocalWhisper q _ | OpenAIWhisper q _ => bool_decide (q = p)
  | _ => false
  end.

(** Computations that, run with [temp_path] bound to [p], do nothing but
    call engines on [p], at most [n] times. *)
Definition calls_within (p : string) (n : nat) {A} (m : M A) : Prop :=
  ∀ s, temp_path s = Some p →
       ∃ evs, trace (m s).2 = trace s ++ evs
              ∧ Forall (λ ev, is_call_on p ev = true) evs
              ∧ length evs ≤ n.

(** Computations whose value, when they return one, satisfies [P]. *)
Definition returns {A} (P : A → Prop) (m : M A) : Prop :=
  ∀ s a s', m s = (inl a, s') → P a.

(** A text that begins, or ends, with a white-space character. *)
Definition starts_with_space (s : string) : bool :=
  bool_decide (is_Some (leading space_char s)).

Definition ends_with_space (s : string) : bool :=
  bool_decide
    (is_Some (leading (λ bytes, space_char (reverse bytes)) (String.rev s))).

(** A result whose [text] has no white space at either end. *)
Definition text_stripped (d : gmap string string) : Prop :=
  ∃ t, d !! "text" = Some t
       ∧ starts_with_space t = false ∧ ends_with_space t = false.

(** Start-up collaborators that raise nothing but [Exception]s. *)
Definition boot_raises_Exceptions (b : boot) : Prop :=
  (∀ size e, load_model b size = Some e → is_Exception e = true)
  ∧ (∀ key e, connect b key = Some e → is_Exception e = true).

(** The call an attempt of [server_dual.py] makes for the engine [name]:
    the local adapter gives the model the normalised language, the remote
    adapter gives the API the tag as it came. *)
Definition engine_call (name p language : string) : event :=
  if bool_decide (name = "local_whisper")
  then LocalWhisper p (normalize language)
  else OpenAIWhisper p (ServerDual.openai_language language).

(** An entry of [server.py] that, if tagged [success], has a stripped
    text; and an answer all of whose entries are so. *)
Definition success_stripped (d : gmap string string) : Prop :=
  d !! "status" = Some "success" → text_stripped d.

Definition answer_stripped (r : Server.response) : Prop :=
  match r with
  | Server.Single d => success_stripped d
  | Server.Dual results _ _ =>
      ∀ name d, results !! name = Some d → success_stripped d
  end.

(** A result without an [errorKind], and an answer of [server.py] none of
    whose entries has one. *)
Definition no_error_kind (d : gmap string string) : Prop :=
  d !! "errorKind" = None.

Definition answer_no_error_kind (r : Server.response) : Prop :=
  match r with
  | Server.Single d => no_error_kind d
  | Server.Dual results _ _ =>
      ∀ name d, results !! name = Some d → no_error_kind d
  end.

(** * Properties *)

(** ** The monad and the effects *)

Lemma bind_inl {A B} (m : M A) (f : A → M B) s a s' :
  m s = (inl a, s') → (m ≫= f) s = f a s'.
Proof. intros H. unfold mbind, M_bind. by rewrite H. Qed.

Lemma bind_inr {A B} (m : M A) (f : A → M B) s e s' :
  m s = (inr e, s') → (m ≫= f) s = (inr e, s').
Proof. intros H. unfold mbind, M_bind. by rewrite H. Qed.

Lemma try_except_inl {A} (m : M A) h s a s' :
  m s = (inl a, s') → try_except m h s = (inl a, s').
Proof. intros H. unfold try_except. by rewrite H. Qed.

Lemma try_except_caught {A} (m : M A) h s e s' :
  m s = (inr e, s') → is_Exception e = true → try_except m h s = h e s'.
Proof. intros H He. unfold try_except. by rewrite H, He. Qed.

Lemma try_except_passed {A} (m : M A) h s e s' :
  m s = (inr e, s') → is_Exception e = false →
  try_except m h s = (inr e, s').
Proof. intros H He. unfold try_except. by rewrite H, He. Qed.

(** The [finally] clause when [temp_path] is bound: the path is gone
    afterwards, whether it existed or not, and nothing is raised. *)
Lemma cleanup_bound s p :
  temp_path s = Some p →
  ∃ s', cleanup s = (inl (), s') ∧ files s' = files s ∖ {[p]}
        ∧ temp_path s' = Some p
        ∧ trace s' = (trace s ++ if bool_decide (p ∈ files s) then [Unlinked p] else []).
Proof.
  intros Hp. unfold cleanup.
  erewrite bind_inl; last by (unfold read_temp_path; rewrite Hp).
  erewrite bind_inl; last by unfold path_exists.
  case_bool_decide as Hin.
  - unfold unlink. rewrite bool_decide_eq_true_2 by done.
    eexists; split; [done|]. by simpl.
  - eexists; split; [done|]. simpl. rewrite app_nil_r. split; [|done].
    apply set_eq; intros x. rewrite elem_of_difference, elem_of_singleton.
    split; [intros Hx; split; [done|by intros ->] | by intros [? _]].
Qed.

(** The [finally] clause when [temp_path] is unbound: it raises, and touches
    nothing. *)
Lemma cleanup_unbound s :
  temp_path s = None → cleanup s = (inr (UnboundLocalError "temp_path"), s).
Proof.
  intros Hp. unfold cleanup.
  erewrite bind_inr; [done|]. unfold read_temp_path. by rewrite Hp.
Qed.

(** *** Computations that leave the files and the locals alone *)

Lemma trace_only_ret {A} (a : A) : trace_only (mret a).
Proof. intros s. simpl. repeat split; try done. exists []. by rewrite app_nil_r. Qed.

Lemma trace_only_raise {A} e : trace_only (@raise A e).
Proof. intros s. simpl. repeat split; try done. exists []. by rewrite app_nil_r. Qed.

Lemma trace_only_bind {A B} (m : M A) (f : A → M B) :
  trace_only m → (∀ a, trace_only (f a)) → trace_only (m ≫= f).
Proof.
  intros Hm Hf s. unfold mbind, M_bind.
  destruct (Hm s) as (Hfl & Htp & evs & Htr).
  destruct (m s) as [[a|e] s1]; simpl in *.
  - destruct (Hf a s1) as (Hfl' & Htp' & evs' & Htr').
    rewrite Hfl', Htp', Htr', Hfl, Htp, Htr. repeat split; try done.
    exists (evs ++ evs'). by rewrite app_assoc.
  - repeat split; try done. by exists evs.
Qed.

Lemma trace_only_try_except {A} (m : M A) (h : exn → M A) :
  trace_only m → (∀ e, trace_only (h e)) → trace_only (try_except m h).
Proof.
  intros Hm Hh s. unfold try_except.
  destruct (Hm s) as (Hfl & Htp & evs & Htr).
  destruct (m s) as [[a|e] s1]; simpl in *.
  - repeat split; try done. by exists evs.
  - destruct (is_Exception e); simpl.
    + destruct (Hh e s1) as (Hfl' & Htp' & evs' & Htr').
      rewrite Hfl', Htp', Htr', Hfl, Htp, Htr. repeat split; try done.
      exists (evs ++ evs'). by rewrite app_assoc.
    + repeat split; try done. by exists evs.
Qed.

Lemma trace_only_read_temp_path : trace_only read_temp_path.
Proof.
  intros s. unfold read_temp_path.
  destruct (temp_path s) eqn:Hp; simpl; repeat split; try done;
    exists []; by rewrite app_nil_r.
Qed.

Lemma trace_only_open_rb p : trace_only (open_rb p).
Proof.
  intros s. unfold open_rb.
  case_bool_decide; simpl; repeat split; try done;
    exists []; by rewrite app_nil_r.
Qed.

Lemma trace_only_model_transcribe w p options :
  trace_only (model_transcribe w p options).
Proof.
  intros s. unfold model_transcribe.
  destruct (whisper_transcribe w _ _ _); simpl; repeat split; try done; by eexists.
Qed.

Lemma trace_only_transcriptions_create w p language :
  trace_only (transcriptions_create w p language).
Proof.
  intros s. unfold transcriptions_create.
  destruct (openai_create w _ _ _); simpl; repeat split; try done; by eexists.
Qed.

Lemma trace_only_if {A} (b : bool) (m1 m2 : M A) :
  trace_only m1 → trace_only m2 → trace_only (if b then m1 else m2).
Proof. by destruct b. Qed.

#[global] Hint Resolve trace_only_ret trace_only_raise trace_only_bind
  trace_only_try_except trace_only_read_temp_path trace_only_open_rb
  trace_only_model_transcribe trace_only_transcriptions_create
  trace_only_if : trace_only.

(** [try: body finally: cleanup] once [temp_path] is bound: the outcome is
    the body's, and the path is gone. *)
Lemma try_finally_cleanup {A} (body : M A) s p :
  trace_only body → temp_path s = Some p →
  ∃ s', try_finally body cleanup s = ((body s).1, s')
        ∧ files s' = files s ∖ {[p]}
        ∧ trace s' = (trace (body s).2
                        ++ if bool_decide (p ∈ files s) then [Unlinked p] else []).
Proof.
  intros Hb Hp. unfold try_finally.
  destruct (Hb s) as (Hfl & Htp & _).
  destruct (body s) as [r s1]; simpl in *.
  destruct (cleanup_bound s1 p) as (s2 & Hc & Hfl2 & _ & Htr2); [congruence|].
  rewrite Hc. exists s2. rewrite Hfl2, Htr2, Hfl. done.
Qed.

(** [try: body finally: cleanup] when the body raises before [temp_path] is
    bound: the [finally] clause itself raises and nothing is unlinked. *)
Lemma try_finally_cleanup_unbound {A} (body : M A) s r s' :
  body s = (r, s') → temp_path s' = None →
  try_finally body cleanup s = (inr (UnboundLocalError "temp_path"), s').
Proof.
  intros Hb Hp. unfold try_finally. rewrite Hb.
  by rewrite (cleanup_unbound s' Hp).
Qed.

(** ** Staging, common to the three handlers *)

Lemma check_content_type_audio audio s :
  is_audio audio = true → check_content_type audio s = (inl (), s).
Proof.
  unfold is_audio, check_content_type.
  destruct (content_type audio); [|done]. by intros ->.
Qed.

(** When the library creates the file and the copy succeeds, the rest of
    the [try] block runs from the [staged] state. *)
Lemma stage_ok {A} w (rest : M A) s :
  tmp_fault w = None → copy_fault w = None →
  (temp_file ← NamedTemporaryFile w;
   try_finally (copyfileobj w temp_file;; bind_temp_path temp_file;; rest)
     cleanup) s
  = try_finally rest cleanup (staged w s).
Proof.
  intros Ht Hc.
  unfold mbind, M_bind, NamedTemporaryFile, try_finally, copyfileobj,
    bind_temp_path.
  rewrite Ht, Hc. simpl. unfold staged. by rewrite <- app_assoc.
Qed.

(** When the copy raises, [temp_path] is still unbound in the [finally]
    clause: the clause raises in its turn and the file stays. *)
Lemma stage_copy_raises {A} w (rest : M A) s e :
  tmp_fault w = None → copy_fault w = Some e → temp_path s = None →
  (temp_file ← NamedTemporaryFile w;
   try_finally (copyfileobj w temp_file;; bind_temp_path temp_file;; rest)
     cleanup) s
  = (inr (UnboundLocalError "temp_path"), half_staged w s).
Proof.
  intros Ht Hc Hs. unfold mbind, M_bind, NamedTemporaryFile. rewrite Ht.
  erewrite try_finally_cleanup_unbound.
  - unfold half_staged, log. simpl. rewrite <- Hs. reflexivity.
  - unfold mbind, M_bind, copyfileobj. rewrite Hc. reflexivity.
  - done.
Qed.

(** When the library cannot create the file, nothing is staged. *)
Lemma stage_not_created {A} w (body : string → M A) s e :
  tmp_fault w = Some e →
  (temp_file ← NamedTemporaryFile w; body temp_file) s = (inr e, s).
Proof.
  intros Ht. unfold mbind, M_bind, NamedTemporaryFile. by rewrite Ht.
Qed.

Lemma tmp_in_staged w s : tmp_name w ∈ files (staged w s).
Proof. simpl. apply elem_of_union_l. by apply elem_of_singleton. Qed.

Lemma tmp_in_half_staged w s : tmp_name w ∈ files (half_staged w s).
Proof. simpl. apply elem_of_union_l. by apply elem_of_singleton. Qed.

(** From the [staged] state, [try: body finally: cleanup] answers what the
    body answers, and unlinks the temporary file last. *)
Lemma staged_then_cleanup {A} (body : M A) w s :
  trace_only body →
  ∃ s', try_finally body cleanup (staged w s) = ((body (staged w s)).1, s')
        ∧ (tmp_name w ∉ files s')
        ∧ trace s' = (trace (body (staged w s)).2 ++ [Unlinked (tmp_name w)]).
Proof.
  intros Hb.
  destruct (try_finally_cleanup body (staged w s) (tmp_name w) Hb eq_refl)
    as (s' & Hr & Hfl & Htr).
  exists s'. split; [done|]. split.
  - rewrite Hfl, elem_of_difference, elem_of_singleton. by intros [_ ?].
  - rewrite Htr. by rewrite (bool_decide_eq_true_2 _ (tmp_in_staged w s)).
Qed.

(** ** [server.py] *)

Lemma server_not_loaded g w audio language engines s :
  Server.whisper_model g = false →
  Server.transcribe_audio g w audio language engines s
  = (inr (HTTPException 503 "Whisper model not loaded"),
     entry s).
Proof.
  intros Hm. unfold Server.transcribe_audio, call. by rewrite Hm.
Qed.

Lemma server_staged g w audio language engines s :
  Server.whisper_model g = true → is_audio audio = true →
  tmp_fault w = None → copy_fault w = None →
  Server.transcribe_audio g w audio language engines s
  = try_finally (Server.compare_engines g w audio language engines) cleanup
      (staged w (entry s)).
Proof.
  intros Hm Ha Ht Hc. unfold Server.transcribe_audio, call. rewrite Hm. simpl.
  erewrite bind_inl; [|by apply check_content_type_audio].
  by rewrite stage_ok.
Qed.

Lemma server_copy_raises g w audio language engines s e :
  Server.whisper_model g = true → is_audio audio = true →
  tmp_fault w = None → copy_fault w = Some e →
  Server.transcribe_audio g w audio language engines s
  = (inr (UnboundLocalError "temp_path"),
     half_staged w (entry s)).
Proof.
  intros Hm Ha Ht Hc. unfold Server.transcribe_audio, call. rewrite Hm. simpl.
  erewrite bind_inl; [|by apply check_content_type_audio].
  by erewrite stage_copy_raises.
Qed.

Lemma trace_only_run_local g w engines options results :
  trace_only (Server.run_local g w engines options results).
Proof. unfold Server.run_local. auto 10 with trace_only. Qed.

Lemma trace_only_run_openai g w engines options results :
  trace_only (Server.run_openai g w engines options results).
Proof. unfold Server.run_openai. auto 10 with trace_only. Qed.

Lemma trace_only_compare_engines g w audio language engines :
  trace_only (Server.compare_engines g w audio language engines).
Proof.
  unfold Server.compare_engines.
  auto using trace_only_run_local, trace_only_run_openai with trace_only.
Qed.
Lemma run_local_runs g w engines options results s p :
  Server.whisper_model g = true → engines ∈ ["both"; "local"] →
  temp_path s = Some p →
  Server.run_local g w engines options results s
  = let s' := log (LocalWhisper p (options !! "language")) s in
    match whisper_transcribe w (trace s) p options with
    | WResult text lang =>
        (inl (<["local_whisper" :=
                 dict [("text", strip text);
                       ("language_detected", default "unknown" lang);
                       ("confidence", "N/A");
                       ("engine", "local_whisper");
                       ("model_size", Server.MODEL_SIZE g);
                       ("status", "success")]]> results), s')
    | WRaise e =>
        if is_Exception e
        then (inl (<["local_whisper" :=
                     dict [("text", "Local Whisper failed: " +:+ str e);
                           ("status", "error");
                           ("engine", "local_whisper")]]> results), s')
        else (inr e, s')
    end.
Proof.
  intros Hm He Hp. unfold Server.run_local.
  rewrite Hm, (bool_decide_eq_true_2 _ He). simpl.
  unfold try_except, mbind, M_bind, read_temp_path, model_transcribe.
  rewrite Hp.
  destruct (whisper_transcribe w (trace s) p options) as [text lang|e]; [done|].
  by destruct (is_Exception e).
Qed.

Lemma run_local_skips g w engines options results s :
  engines ∉ ["both"; "local"] →
  Server.run_local g w engines options results s = (inl results, s).
Proof.
  intros He. unfold Server.run_local.
  by rewrite (bool_decide_eq_false_2 _ He).
Qed.

Lemma run_openai_runs g w engines options results s p :
  Server.openai_client g = true → engines ∈ ["both"; "openai"] →
  temp_path s = Some p → p ∈ files s →
  Server.run_openai g w engines options results s
  = let language := Server.openai_language options in
    let s' := log (OpenAIWhisper p language) s in
    match openai_create w (trace s) p language with
    | OTranscript text =>
        (inl (<["openai_whisper" :=
                 dict [("text", strip text);
                       ("language_detected",
                        default "auto-detected" (options !! "language"));
                       ("confidence", "N/A");
                       ("engine", "openai_whisper");
                       ("model", "whisper-1");
                       ("status", "success")]]> results), s')
    | ORaise e =>
        if is_Exception e
        then (inl (<["openai_whisper" :=
                     dict [("text", "OpenAI Whisper failed: " +:+ str e);
                           ("status", "error");
                           ("engine", "openai_whisper")]]> results), s')
        else (inr e, s')
    end.
Proof.
  intros Hm He Hp Hin. unfold Server.run_openai.
  rewrite Hm, (bool_decide_eq_true_2 _ He). simpl.
  unfold try_except, mbind, M_bind, read_temp_path, open_rb, transcriptions_create.
  rewrite Hp, (bool_decide_eq_true_2 _ Hin).
  destruct (openai_create w (trace s) p _) as [text|e]; [done|].
  by destruct (is_Exception e).
Qed.

Lemma run_openai_not_configured g w engines options results s :
  Server.openai_client g = false → engines ∈ ["both"; "openai"] →
  Server.run_openai g w engines options results s
  = (inl (<["openai_whisper" :=
             dict [("text", "OpenAI not configured - add API key to python/.env");
                   ("status", "not_configured");
                   ("engine", "openai_whisper")]]> results), s).
Proof.
  intros Hm He. unfold Server.run_openai.
  by rewrite Hm, (bool_decide_eq_true_2 _ He).
Qed.

Lemma run_openai_skips g w engines options results s :
  engines ∉ ["both"; "openai"] →
  Server.run_openai g w engines options results s = (inl results, s).
Proof.
  intros He. unfold Server.run_openai.
  by rewrite (bool_decide_eq_false_2 _ He).
Qed.


(** ** The language normaliser *)

(** The fixed table. *)
Lemma normalize_table :
  normalize "en-IN" = Some "en" ∧ normalize "hi-IN" = Some "hi"
  ∧ normalize "gu-IN" = Some "gu".
Proof. repeat split; reflexivity. Qed.

Lemma normalize_auto : normalize "auto" = None ∧ normalize "" = None.
Proof. repeat split; reflexivity. Qed.

Lemma normalize_other language :
  language ≠ "" → language ≠ "auto" → lang_map !! language = None →
  normalize language = Some language.
Proof.
  intros H1 H2 H3. unfold normalize, prepare_options, truthy.
  rewrite (bool_decide_eq_false_2 _ H1), (bool_decide_eq_false_2 _ H2). cbn [negb andb].
  rewrite lookup_insert_eq, H3. reflexivity.
Qed.

Lemma lang_map_values language code :
  lang_map !! language = Some code → code ∈ ["en"; "hi"; "gu"].
Proof.
  unfold lang_map. rewrite !lookup_insert.
  repeat case_decide; rewrite ?lookup_empty; intros [= <-].
  - apply list_elem_of_here.
  - apply list_elem_of_further, list_elem_of_here.
  - do 2 apply list_elem_of_further. apply list_elem_of_here.
Qed.

Lemma normalize_truthy language code :
  normalize language = Some code → truthy code = true.
Proof.
  unfold normalize, prepare_options.
  destruct (truthy language) eqn:Ht; cbn [andb]; [|by rewrite lookup_empty].
  destruct (negb _); [|by rewrite lookup_empty].
  rewrite lookup_insert_eq. intros [= <-].
  destruct (lang_map !! language) as [c|] eqn:Hl; cbn [default]; [|exact Ht].
  apply lang_map_values in Hl.
  rewrite !elem_of_cons, elem_of_nil in Hl.
  by destruct Hl as [->|[->|[->|[]]]].
Qed.

Lemma server_openai_language language :
  Server.openai_language (prepare_options language) = normalize language.
Proof.
  unfold Server.openai_language. fold (normalize language).
  destruct (normalize language) as [c|] eqn:Hn; [|reflexivity].
  by rewrite (normalize_truthy _ _ Hn).
Qed.

(** ** [server.py]: what a request for both engines answers *)

Lemma two_entries (d1 d2 : gmap string string) :
  let results : gmap string (gmap string string) :=
    <["openai_whisper" := d2]> (<["local_whisper" := d1]> ∅) in
  dom results = {["local_whisper"; "openai_whisper"]}
  ∧ size results = 2
  ∧ results !! "local_whisper" = Some d1
  ∧ results !! "openai_whisper" = Some d2.
Proof.
  cbv zeta. split; [|split; [|split]].
  - rewrite !dom_insert_L, dom_empty_L.
    apply set_eq; intros x.
    rewrite !elem_of_union, !elem_of_singleton, elem_of_empty. tauto.
  - rewrite map_size_insert_None by reflexivity.
    by rewrite map_size_insert_None by reflexivity.
  - reflexivity.
  - reflexivity.
Qed.

(** C7 (as amended).  A request to [server.py] with [engines=both] that
    reaches the engines (model loaded, audio upload, staging succeeded, the
    engines raise nothing but [Exception]s) is answered in the dual shape,
    and the mapping has exactly two entries, [local_whisper] and
    [openai_whisper].  The status of [local_whisper] is [success] or
    [error]; that of [openai_whisper] is [success] or [error] when the
    OpenAI client is configured and [not_configured] when it is not. *)
Theorem both_engines_two_entries g w audio language s :
  Server.whisper_model g = true → is_audio audio = true →
  tmp_fault w = None → copy_fault w = None → engines_raise_Exceptions w →
  ∃ results,
    (Server.transcribe_audio g w audio language "both" s).1
    = inl (Server.Dual results true (filename audio))
    ∧ dom results = {["local_whisper"; "openai_whisper"]}
    ∧ size results = 2
    ∧ (∃ d, results !! "local_whisper" = Some d
            ∧ d !! "status" ∈ [Some "success"; Some "error"])
    ∧ (∃ d, results !! "openai_whisper" = Some d
            ∧ d !! "status" ∈ (if Server.openai_client g
                               then [Some "success"; Some "error"]
                               else [Some "not_configured"])).
Proof.
  intros Hm Ha Ht Hc [Hw Ho].
  rewrite server_staged by done.
  destruct (staged_then_cleanup (Server.compare_engines g w audio language "both")
              w (entry s) (trace_only_compare_engines _ _ _ _ _))
    as (s' & -> & _).
  cbn [fst]. unfold Server.compare_engines.
  set (options := prepare_options language).
  assert (∃ d1 s1,
             Server.run_local g w "both" options ∅ (staged w (entry s))
             = (inl (<["local_whisper" := d1]> ∅), s1)
             ∧ temp_path s1 = Some (tmp_name w) ∧ tmp_name w ∈ files s1
             ∧ d1 !! "status" ∈ [Some "success"; Some "error"])
    as (d1 & s1 & Hl & Hp1 & Hin1 & Hs1).
  { rewrite (run_local_runs g w "both" options ∅ _ (tmp_name w));
      [|exact Hm|by apply list_elem_of_here|reflexivity].
    cbv zeta. destruct (whisper_transcribe w _ _ _) as [text lang|e] eqn:Hr.
    - do 2 eexists. split; [reflexivity|]. split; [reflexivity|].
      split; [apply tmp_in_staged|]. apply list_elem_of_here.
    - rewrite (Hw _ _ _ _ Hr).
      do 2 eexists. split; [reflexivity|]. split; [reflexivity|].
      split; [apply tmp_in_staged|].
      apply list_elem_of_further, list_elem_of_here. }
  erewrite bind_inl by exact Hl.
  assert (∃ d2 s2,
             Server.run_openai g w "both" options (<["local_whisper" := d1]> ∅) s1
             = (inl (<["openai_whisper" := d2]> (<["local_whisper" := d1]> ∅)), s2)
             ∧ d2 !! "status" ∈ (if Server.openai_client g
                                 then [Some "success"; Some "error"]
                                 else [Some "not_configured"]))
    as (d2 & s2 & Hr & Hs2).
  { destruct (Server.openai_client g) eqn:Hoc.
    - rewrite (run_openai_runs g w "both" options _ _ (tmp_name w));
        [|exact Hoc|by apply list_elem_of_here|exact Hp1|exact Hin1].
      cbv zeta. destruct (openai_create w _ _ _) as [text|e] eqn:Hr.
      + do 2 eexists. split; [reflexivity|]. apply list_elem_of_here.
      + rewrite (Ho _ _ _ _ Hr). do 2 eexists. split; [reflexivity|].
        apply list_elem_of_further, list_elem_of_here.
    - rewrite run_openai_not_configured; [|exact Hoc|by apply list_elem_of_here].
      do 2 eexists. split; [reflexivity|]. apply list_elem_of_here. }
  erewrite bind_inl by exact Hr.
  destruct (two_entries d1 d2) as (Hdom & Hsz & Hl1 & Hl2).
  eexists. split; [unfold Server.shape; reflexivity|].
  split; [exact Hdom|]. split; [exact Hsz|].
  split; [exists d1; split; assumption|exists d2; split; assumption].
Qed.

Lemma engines_ok_raise_Exceptions : engines_raise_Exceptions Examples.engines_ok.
Proof. split; intros; discriminate. Defined.

(** The theorem at a request for both engines, with both configured. *)
Lemma both_engines_two_entries_witness :
  Server.whisper_model Examples.compare_both = true
  ∧ is_audio Examples.wav = true
  ∧ tmp_fault Examples.engines_ok = None
  ∧ copy_fault Examples.engines_ok = None
  ∧ engines_raise_Exceptions Examples.engines_ok
  ∧ ∃ results,
      (Server.transcribe_audio Examples.compare_both Examples.engines_ok
         Examples.wav "en-IN" "both" Examples.s0).1
      = inl (Server.Dual results true (filename Examples.wav))
      ∧ dom results = {["local_whisper"; "openai_whisper"]}
      ∧ size results = 2
      ∧ (∃ d, results !! "local_whisper" = Some d
              ∧ d !! "status" ∈ [Some "success"; Some "error"])
      ∧ (∃ d, results !! "openai_whisper" = Some d
              ∧ d !! "status" ∈ (if Server.openai_client Examples.compare_both
                                 then [Some "success"; Some "error"]
                                 else [Some "not_configured"])).
Proof.
  split; [reflexivity|]. split; [reflexivity|]. split; [reflexivity|].
  split; [reflexivity|]. split; [exact engines_ok_raise_Exceptions|].
  apply (both_engines_two_entries Examples.compare_both Examples.engines_ok
           Examples.wav "en-IN" Examples.s0);
    first [reflexivity | exact engines_ok_raise_Exceptions].
Defined.

(** C7 (as stated) fails: with no OpenAI client, the entry of
    [openai_whisper] is tagged [not_configured], neither success nor
    failure. *)
Lemma both_engines_not_configured_status :
  Server.openai_client Examples.compare_local_only = false
  ∧ (Server.transcribe_audio Examples.compare_local_only Examples.engines_ok
       Examples.wav "auto" "both" Examples.s0).1
    = inl (Server.Dual
             (<["openai_whisper" :=
                  dict [("text", "OpenAI not configured - add API key to python/.env");
                        ("status", "not_configured");
                        ("engine", "openai_whisper")]]>
                (<["local_whisper" :=
                     dict [("text", "hello");
                           ("language_detected", "en");
                           ("confidence", "N/A");
                           ("engine", "local_whisper");
                           ("model_size", "base");
                           ("status", "success")]]> ∅))
             true "clip.wav")
  ∧ dict [("text", "OpenAI not configured - add API key to python/.env");
          ("status", "not_configured");
          ("engine", "openai_whisper")] !! "status" = Some "not_configured".
Proof. repeat split; reflexivity. Qed.

(** C10.  In [server.py] a request is refused with 503 whenever the local
    model is not loaded, whatever [engines] asks for and whether or not an
    OpenAI client is available: before the content-type check, before any
    file is created and before any engine is called. *)
Theorem server_refuses_without_local_model g w audio language engines s :
  Server.whisper_model g = false →
  (Server.transcribe_audio g w audio language engines s).1
  = inr (HTTPException 503 "Whisper model not loaded")
  ∧ status_of (Server.transcribe_audio g w audio language engines s).1 = Some 503
  ∧ files (Server.transcribe_audio g w audio language engines s).2 = files s
  ∧ trace (Server.transcribe_audio g w audio language engines s).2 = trace s.
Proof. intros Hm. by rewrite server_not_loaded. Qed.

(** The theorem at a request for the OpenAI engine alone, with its client
    available and an upload that is not even audio. *)
Lemma server_refuses_without_local_model_witness :
  Server.whisper_model Examples.compare_openai_only = false
  ∧ Server.openai_client Examples.compare_openai_only = true
  ∧ (Server.transcribe_audio Examples.compare_openai_only Examples.engines_ok
       (Upload (Some "text/plain") "notes.txt") "auto" "openai" Examples.s0).1
    = inr (HTTPException 503 "Whisper model not loaded")
  ∧ status_of (Server.transcribe_audio Examples.compare_openai_only
                 Examples.engines_ok (Upload (Some "text/plain") "notes.txt")
                 "auto" "openai" Examples.s0).1 = Some 503
  ∧ files (Server.transcribe_audio Examples.compare_openai_only
             Examples.engines_ok (Upload (Some "text/plain") "notes.txt")
             "auto" "openai" Examples.s0).2 = files Examples.s0
  ∧ trace (Server.transcribe_audio Examples.compare_openai_only
             Examples.engines_ok (Upload (Some "text/plain") "notes.txt")
             "auto" "openai" Examples.s0).2 = trace Examples.s0.
Proof.
  split; [reflexivity|]. split; [reflexivity|].
  apply (server_refuses_without_local_model Examples.compare_openai_only
           Examples.engines_ok (Upload (Some "text/plain") "notes.txt")
           "auto" "openai" Examples.s0).
  reflexivity.
Defined.

(** ** [server.py]: a request for one engine *)

Lemma not_in_both_local : "openai" ∉ ["both"; "local"].
Proof. rewrite !elem_of_cons, elem_of_nil. by intros [?|[?|[]]]. Qed.

Lemma not_in_both_openai : "local" ∉ ["both"; "openai"].
Proof. rewrite !elem_of_cons, elem_of_nil. by intros [?|[?|[]]]. Qed.

Lemma server_single_local_fails g w audio language s e :
  Server.whisper_model g = true → is_audio audio = true →
  tmp_fault w = None → copy_fault w = None →
  whisper_transcribe w (trace (staged w (entry s))) (tmp_name w)
    (prepare_options language) = WRaise e →
  is_Exception e = true →
  (Server.transcribe_audio g w audio language "local" s).1
  = inl (Server.Single (dict [("text", "Local Whisper failed: " +:+ str e);
                              ("status", "error");
                              ("engine", "local_whisper")])).
Proof.
  intros Hm Ha Ht Hc Hr He.
  rewrite server_staged by done.
  destruct (staged_then_cleanup (Server.compare_engines g w audio language "local")
              w (entry s) (trace_only_compare_engines _ _ _ _ _))
    as (s' & -> & _).
  cbn [fst]. unfold Server.compare_engines.
  erewrite bind_inl; last first.
  { rewrite (run_local_runs g w "local" _ ∅ _ (tmp_name w));
      [|exact Hm|apply list_elem_of_further, list_elem_of_here|reflexivity].
    cbv zeta. rewrite Hr, He. reflexivity. }
  erewrite bind_inl; last by apply run_openai_skips, not_in_both_openai.
  reflexivity.
Qed.

Lemma server_single_openai_fails g w audio language s e :
  Server.whisper_model g = true → Server.openai_client g = true →
  is_audio audio = true → tmp_fault w = None → copy_fault w = None →
  openai_create w (trace (staged w (entry s))) (tmp_name w)
    (normalize language) = ORaise e →
  is_Exception e = true →
  (Server.transcribe_audio g w audio language "openai" s).1
  = inl (Server.Single (dict [("text", "OpenAI Whisper failed: " +:+ str e);
                              ("status", "error");
                              ("engine", "openai_whisper")])).
Proof.
  intros Hm Hoc Ha Ht Hc Hr He.
  rewrite server_staged by done.
  destruct (staged_then_cleanup (Server.compare_engines g w audio language "openai")
              w (entry s) (trace_only_compare_engines _ _ _ _ _))
    as (s' & -> & _).
  cbn [fst]. unfold Server.compare_engines.
  erewrite bind_inl; last by apply run_local_skips, not_in_both_local.
  erewrite bind_inl; last first.
  { rewrite (run_openai_runs g w "openai" _ ∅ _ (tmp_name w));
      [|exact Hoc|apply list_elem_of_further, list_elem_of_here|reflexivity
       |apply tmp_in_staged].
    cbv zeta. rewrite server_openai_language, Hr, He. reflexivity. }
  reflexivity.
Qed.

(** Whatever [engines] asks for, the two engine blocks of [server.py]
    return: an [Exception] of an engine ends up in the results. *)
Lemma run_local_returns g w engines options results s :
  engines_raise_Exceptions w → is_Some (temp_path s) →
  ∃ results' s', Server.run_local g w engines options results s
                 = (inl results', s').
Proof.
  intros [Hw _] [p Hp]. unfold Server.run_local.
  destruct (_ && _); [|by do 2 eexists].
  unfold try_except, mbind, M_bind, read_temp_path, model_transcribe.
  rewrite Hp.
  destruct (whisper_transcribe w _ _ _) as [text lang|e] eqn:Hr.
  - do 2 eexists. reflexivity.
  - rewrite (Hw _ _ _ _ Hr). do 2 eexists. reflexivity.
Qed.

Lemma run_openai_returns g w engines options results s :
  engines_raise_Exceptions w → is_Some (temp_path s) →
  ∃ results' s', Server.run_openai g w engines options results s
                 = (inl results', s').
Proof.
  intros [_ Ho] [p Hp]. unfold Server.run_openai.
  destruct (_ && Server.openai_client g).
  - unfold try_except, mbind, M_bind, read_temp_path, open_rb,
      transcriptions_create.
    rewrite Hp. case_bool_decide.
    + destruct (openai_create w _ _ _) as [text|e] eqn:Hr.
      * do 2 eexists. reflexivity.
      * rewrite (Ho _ _ _ _ Hr). do 2 eexists. reflexivity.
    + cbn [is_Exception]. do 2 eexists. reflexivity.
  - destruct (_ && _); do 2 eexists; reflexivity.
Qed.

Lemma server_answers_200 g w audio language engines s :
  Server.whisper_model g = true → is_audio audio = true →
  tmp_fault w = None → copy_fault w = None → engines_raise_Exceptions w →
  ∃ response,
    (Server.transcribe_audio g w audio language engines s).1 = inl response.
Proof.
  intros Hm Ha Ht Hc Hw.
  rewrite server_staged by done.
  destruct (staged_then_cleanup (Server.compare_engines g w audio language engines)
              w (entry s) (trace_only_compare_engines _ _ _ _ _))
    as (s' & -> & _).
  cbn [fst]. unfold Server.compare_engines.
  destruct (run_local_returns g w engines (prepare_options language) ∅
              (staged w (entry s)) Hw) as (r1 & s1 & H1); [by eexists|].
  erewrite bind_inl by exact H1.
  destruct (run_openai_returns g w engines (prepare_options language) r1 s1 Hw)
    as (r2 & s2 & H2).
  { destruct (trace_only_run_local g w engines (prepare_options language) ∅
                (staged w (entry s))) as (_ & Htp & _).
    rewrite H1 in Htp. cbn [snd] in Htp. rewrite Htp. by eexists. }
  erewrite bind_inl by exact H2.
  by eexists.
Qed.

(** ** [server_original.py] *)

Lemma original_not_loaded g w audio language s :
  ServerOriginal.whisper_model g = false →
  ServerOriginal.transcribe_audio g w audio language s
  = (inr (HTTPException 503 "Whisper model not loaded"), entry s).
Proof.
  intros Hm. unfold ServerOriginal.transcribe_audio, call. by rewrite Hm.
Qed.

Lemma trace_only_transcription_failed e :
  trace_only (ServerOriginal.transcription_failed e).
Proof. apply trace_only_raise. Qed.

Lemma original_staged g w audio language s :
  ServerOriginal.whisper_model g = true → is_audio audio = true →
  tmp_fault w = None → copy_fault w = None →
  ServerOriginal.transcribe_audio g w audio language s
  = try_finally
      (try_except (ServerOriginal.transcribe_staged g w language) ServerOriginal.transcription_failed)
      cleanup (staged w (entry s)).
Proof.
  intros Hm Ha Ht Hc. unfold ServerOriginal.transcribe_audio, call.
  rewrite Hm. cbn [negb].
  erewrite bind_inl; [|by apply check_content_type_audio].
  unfold mbind at 1, M_bind at 1, NamedTemporaryFile. rewrite Ht.
  unfold try_finally, try_except at 1, mbind at 1, M_bind at 1, copyfileobj.
  rewrite Hc.
  unfold mbind at 1, M_bind at 1, bind_temp_path. cbn [log trace files temp_path].
  unfold try_except, staged.
  rewrite <- app_assoc. reflexivity.
Qed.

Lemma original_copy_raises g w audio language s e :
  ServerOriginal.whisper_model g = true → is_audio audio = true →
  tmp_fault w = None → copy_fault w = Some e →
  ServerOriginal.transcribe_audio g w audio language s
  = (inr (UnboundLocalError "temp_path"), half_staged w (entry s)).
Proof.
  intros Hm Ha Ht Hc. unfold ServerOriginal.transcribe_audio, call.
  rewrite Hm. cbn [negb].
  erewrite bind_inl; [|by apply check_content_type_audio].
  unfold mbind at 1, M_bind at 1, NamedTemporaryFile. rewrite Ht.
  eapply try_finally_cleanup_unbound with (r := inr _).
  - unfold try_except, mbind, M_bind, copyfileobj. rewrite Hc.
    instantiate (1 := if is_Exception e
                      then HTTPException 500 ("Transcription failed: " +:+ str e)
                      else e).
    unfold ServerOriginal.transcription_failed, raise.
    by destruct (is_Exception e).
  - reflexivity.
Qed.

Lemma trace_only_transcribe_staged g w language :
  trace_only (ServerOriginal.transcribe_staged g w language).
Proof. unfold ServerOriginal.transcribe_staged. auto 10 with trace_only. Qed.

Lemma original_engine_fails g w audio language s e :
  ServerOriginal.whisper_model g = true → is_audio audio = true →
  tmp_fault w = None → copy_fault w = None →
  whisper_transcribe w (trace (staged w (entry s))) (tmp_name w)
    (prepare_options language) = WRaise e →
  is_Exception e = true →
  (ServerOriginal.transcribe_audio g w audio language s).1
  = inr (HTTPException 500 ("Transcription failed: " +:+ str e)).
Proof.
  intros Hm Ha Ht Hc Hr He.
  rewrite original_staged by done.
  edestruct (staged_then_cleanup
              (try_except (ServerOriginal.transcribe_staged g w language)
                 ServerOriginal.transcription_failed) w (entry s)) as (s' & -> & _).
  { auto using trace_only_transcribe_staged, trace_only_transcription_failed
      with trace_only. }
  cbn [fst].
  erewrite try_except_caught; [reflexivity| |exact He].
  unfold ServerOriginal.transcribe_staged, mbind, M_bind, read_temp_path,
    model_transcribe.
  cbn [temp_path staged]. rewrite Hr. reflexivity.
Qed.

Lemma original_answers g w audio language s :
  ServerOriginal.whisper_model g = true → is_audio audio = true →
  tmp_fault w = None → copy_fault w = None → engines_raise_Exceptions w →
  (∃ d, (ServerOriginal.transcribe_audio g w audio language s).1 = inl d)
  ∨ (∃ e, (ServerOriginal.transcribe_audio g w audio language s).1
          = inr (HTTPException 500 ("Transcription failed: " +:+ str e))).
Proof.
  intros Hm Ha Ht Hc [Hw _].
  rewrite original_staged by done.
  edestruct (staged_then_cleanup
              (try_except (ServerOriginal.transcribe_staged g w language)
                 ServerOriginal.transcription_failed) w (entry s)) as (s' & -> & _).
  { auto using trace_only_transcribe_staged, trace_only_transcription_failed
      with trace_only. }
  cbn [fst].
  unfold try_except, ServerOriginal.transcribe_staged, mbind, M_bind,
    read_temp_path, model_transcribe.
  cbn [temp_path staged].
  destruct (whisper_transcribe w _ _ _) as [text lang|e] eqn:Hr.
  - left. eexists. reflexivity.
  - right. rewrite (Hw _ _ _ _ Hr). exists e. reflexivity.
Qed.

Lemma original_payload_deleted g w audio language s :
  ServerOriginal.whisper_model g = true → is_audio audio = true →
  tmp_fault w = None → copy_fault w = None →
  tmp_name w ∉ files (ServerOriginal.transcribe_audio g w audio language s).2.
Proof.
  intros Hm Ha Ht Hc.
  rewrite original_staged by done.
  edestruct (staged_then_cleanup
              (try_except (ServerOriginal.transcribe_staged g w language)
                 ServerOriginal.transcription_failed) w (entry s)) as (s' & -> & Hs' & _).
  { auto using trace_only_transcribe_staged, trace_only_transcription_failed
      with trace_only. }
  exact Hs'.
Qed.

(** ** [server_dual.py] *)

(** *** Engine selection *)

Lemma select_explicit g engine s :
  engine ≠ "auto" →
  ServerDual.select_engine g engine s = (inl (engine +:+ "_whisper"), s).
Proof.
  intros He. unfold ServerDual.select_engine.
  by rewrite (bool_decide_eq_false_2 _ He).
Qed.

Lemma select_auto_none g s :
  ServerDual.local_whisper_model g = false → ServerDual.openai_client g = false →
  ServerDual.select_engine g "auto" s
  = (inr (HTTPException 503 "No transcription engines available"), s).
Proof.
  intros Hl Ho. unfold ServerDual.select_engine. rewrite Hl, Ho.
  cbn [bool_decide decide_rel]. by rewrite !andb_false_r.
Qed.

Lemma select_auto_some g s :
  ServerDual.local_whisper_model g || ServerDual.openai_client g = true →
  ∃ sel, ServerDual.select_engine g "auto" s = (inl sel, s)
         ∧ ServerDual.available g sel = true.
Proof.
  intros H. unfold ServerDual.select_engine, ServerDual.available.
  rewrite (bool_decide_eq_true_2 ("auto" = "auto") eq_refl).
  destruct (ServerDual.local_whisper_model g) eqn:Hl,
           (ServerDual.openai_client g) eqn:Ho; try discriminate;
    repeat (case_bool_decide; cbn [andb orb]);
    eexists; (split; [reflexivity|]); reflexivity.
Qed.

Lemma select_selectable g engine s :
  ServerDual.selectable g engine = true →
  ∃ sel, ServerDual.select_engine g engine s = (inl sel, s).
Proof.
  unfold ServerDual.selectable. case_bool_decide as He; cbn [negb orb].
  - subst. intros H. destruct (select_auto_some g s H) as (sel & Hs & _).
    by exists sel.
  - intros _. eexists. by apply select_explicit.
Qed.

(** *** Staging *)

Lemma dual_staged g w audio language engine s sel :
  is_audio audio = true →
  ServerDual.select_engine g engine (entry s) = (inl sel, entry s) →
  tmp_fault w = None → copy_fault w = None →
  ServerDual.transcribe_audio g w audio language engine s
  = try_finally (ServerDual.dispatch g w sel language) cleanup
      (staged w (entry s)).
Proof.
  intros Ha Hs Ht Hc. unfold ServerDual.transcribe_audio, call.
  erewrite bind_inl; [|by apply check_content_type_audio].
  erewrite bind_inl by exact Hs.
  by rewrite stage_ok.
Qed.

Lemma dual_copy_raises g w audio language engine s e :
  is_audio audio = true → ServerDual.selectable g engine = true →
  tmp_fault w = None → copy_fault w = Some e →
  ServerDual.transcribe_audio g w audio language engine s
  = (inr (UnboundLocalError "temp_path"), half_staged w (entry s)).
Proof.
  intros Ha Hs Ht Hc. unfold ServerDual.transcribe_audio, call.
  erewrite bind_inl; [|by apply check_content_type_audio].
  destruct (select_selectable g engine (entry s) Hs) as (sel & Hsel).
  erewrite bind_inl by exact Hsel.
  by erewrite stage_copy_raises.
Qed.

Lemma dual_auto_none g w audio language s :
  is_audio audio = true →
  ServerDual.local_whisper_model g = false → ServerDual.openai_client g = false →
  ServerDual.transcribe_audio g w audio language "auto" s
  = (inr (HTTPException 503 "No transcription engines available"), entry s).
Proof.
  intros Ha Hl Ho. unfold ServerDual.transcribe_audio, call.
  erewrite bind_inl; [|by apply check_content_type_audio].
  erewrite bind_inr; [reflexivity|]. by apply select_auto_none.
Qed.

Lemma dual_not_audio g w audio language engine s ct :
  content_type audio = Some ct → startswith "audio/" ct = false →
  ServerDual.transcribe_audio g w audio language engine s
  = (inr (HTTPException 400 "File must be an audio file"), entry s).
Proof.
  intros Hct Hs. unfold ServerDual.transcribe_audio, call.
  erewrite bind_inr; [reflexivity|].
  unfold check_content_type. by rewrite Hct, Hs.
Qed.

(** *** The adapters and the two attempts only extend the trace *)

Lemma trace_only_local_adapter g w p language :
  trace_only (ServerDual.transcribe_with_local_whisper g w p language).
Proof. unfold ServerDual.transcribe_with_local_whisper. auto 10 with trace_only. Qed.

Lemma trace_only_openai_adapter w p language :
  trace_only (ServerDual.transcribe_with_openai w p language).
Proof. unfold ServerDual.transcribe_with_openai. auto 10 with trace_only. Qed.

Lemma trace_only_try_primary g w sel p language :
  trace_only (ServerDual.try_primary g w sel p language).
Proof.
  unfold ServerDual.try_primary.
  auto 10 using trace_only_local_adapter, trace_only_openai_adapter
    with trace_only.
Qed.

Lemma trace_only_try_fallback g w e p language :
  trace_only (ServerDual.try_fallback g w e p language).
Proof.
  unfold ServerDual.try_fallback.
  auto 10 using trace_only_local_adapter, trace_only_openai_adapter
    with trace_only.
Qed.

Lemma trace_only_on_primary_error g w e p language :
  trace_only (ServerDual.on_primary_error g w e p language).
Proof.
  unfold ServerDual.on_primary_error.
  auto 10 using trace_only_try_fallback with trace_only.
Qed.

Lemma trace_only_dispatch g w sel language :
  trace_only (ServerDual.dispatch g w sel language).
Proof.
  unfold ServerDual.dispatch.
  auto 10 using trace_only_try_primary, trace_only_on_primary_error
    with trace_only.
Qed.

(** *** Engine names *)

Lemma string_length_app (a c : string) :
  String.length (a +:+ c) = String.length a + String.length c.
Proof.
  induction a as [|x a IH]; [reflexivity|].
  change (S (String.length (a +:+ c)) = S (String.length a + String.length c)).
  by rewrite IH.
Qed.

Lemma string_app_inv_tail (a b c : string) : a +:+ c = b +:+ c → a = b.
Proof.
  revert b. induction a as [|x a IH]; intros [|y b] H.
  - reflexivity.
  - apply (f_equal String.length) in H.
    rewrite !string_length_app in H. cbn in H. lia.
  - apply (f_equal String.length) in H.
    rewrite !string_length_app in H. cbn in H. lia.
  - change (String x (a +:+ c) = String y (b +:+ c)) in H.
    injection H as -> H. by rewrite (IH b H).
Qed.

Lemma unknown_engine_unavailable g engine :
  engine ∉ ["auto"; "local"; "openai"] →
  ServerDual.available g (engine +:+ "_whisper") = false.
Proof.
  rewrite !elem_of_cons, elem_of_nil. intros Hn.
  unfold ServerDual.available.
  rewrite !bool_decide_eq_false_2; [reflexivity| |].
  - intros H. apply (string_app_inv_tail engine "openai" "_whisper") in H. tauto.
  - intros H. apply (string_app_inv_tail engine "local" "_whisper") in H. tauto.
Qed.


(** *** The first attempt and the fallback policy *)

Lemma try_primary_unavailable g w sel p language s :
  ServerDual.available g sel = false →
  ServerDual.try_primary g w sel p language s
  = (inr (Exception ("Engine " +:+ sel +:+ " not available")), s).
Proof.
  unfold ServerDual.available, ServerDual.try_primary.
  intros [H1 H2]%orb_false_elim. by rewrite H1, H2.
Qed.

Lemma dispatch_unavailable g w sel language s p :
  temp_path s = Some p → ServerDual.available g sel = false →
  ServerDual.dispatch g w sel language s
  = ServerDual.on_primary_error g w
      (Exception ("Engine " +:+ sel +:+ " not available")) p language s.
Proof.
  intros Hp Ha. unfold ServerDual.dispatch.
  erewrite bind_inl; [|by unfold read_temp_path; rewrite Hp].
  erewrite try_except_caught;
    [reflexivity|by apply try_primary_unavailable|reflexivity].
Qed.

Lemma dispatch_primary_fails g w sel language s p e s1 :
  temp_path s = Some p →
  ServerDual.try_primary g w sel p language s = (inr e, s1) →
  is_Exception e = true →
  ServerDual.dispatch g w sel language s
  = ServerDual.on_primary_error g w e p language s1.
Proof.
  intros Hp Hr He. unfold ServerDual.dispatch.
  erewrite bind_inl; [|by unfold read_temp_path; rewrite Hp].
  by erewrite try_except_caught.
Qed.

Lemma on_primary_error_no_fallback g w e p language s :
  ServerDual.ENABLE_DUAL_ENGINE g && truthy (ServerDual.FALLBACK_ENGINE g) = false →
  ServerDual.on_primary_error g w e p language s
  = (inr (HTTPException 500 ("Transcription failed: " +:+ str e)), s).
Proof. intros H. unfold ServerDual.on_primary_error. by rewrite H. Qed.


Lemma on_primary_error_both_fail g w e p language s e2 s' :
  ServerDual.ENABLE_DUAL_ENGINE g = true →
  truthy (ServerDual.FALLBACK_ENGINE g) = true →
  ServerDual.try_fallback g w e p language s = (inr e2, s') →
  is_Exception e2 = true →
  ServerDual.on_primary_error g w e p language s
  = (inr (HTTPException 500
            ("Both engines failed. Primary: " +:+ str e
               +:+ ", Fallback: " +:+ str e2)), s').
Proof.
  intros He Ht Hf He2. unfold ServerDual.on_primary_error.
  rewrite He, Ht. cbn [andb].
  by erewrite try_except_caught.
Qed.


(** The three ways the fallback policy can end. *)
Lemma on_primary_error_outcome g w e p language s :
  (∃ d, (ServerDual.on_primary_error g w e p language s).1 = inl d)
  ∨ (∃ detail, (ServerDual.on_primary_error g w e p language s).1
               = inr (HTTPException 500 detail))
  ∨ (∃ e2 s2, ServerDual.try_fallback g w e p language s = (inr e2, s2)
              ∧ is_Exception e2 = false
              ∧ (ServerDual.on_primary_error g w e p language s).1 = inr e2).
Proof.
  unfold ServerDual.on_primary_error.
  destruct (_ && _); [|right; left; by eexists].
  unfold try_except.
  destruct (ServerDual.try_fallback g w e p language s) as [[d|e2] s2].
  - left. by eexists.
  - destruct (is_Exception e2) eqn:He2.
    + right; left. by eexists.
    + right; right. by exists e2, s2.
Qed.

Lemma dispatch_outcome g w sel language s :
  (∃ d, (ServerDual.dispatch g w sel language s).1 = inl d)
  ∨ (∃ detail, (ServerDual.dispatch g w sel language s).1
               = inr (HTTPException 500 detail))
  ∨ (∃ e, is_Exception e = false
          ∧ (ServerDual.dispatch g w sel language s).1 = inr e)
  ∨ temp_path s = None.
Proof.
  unfold ServerDual.dispatch, mbind, M_bind, read_temp_path.
  destruct (temp_path s) as [p|]; [|by repeat right].
  unfold try_except.
  destruct (ServerDual.try_primary g w sel p language s) as [[d|e] s1].
  - left. by eexists.
  - destruct (is_Exception e) eqn:He.
    + destruct (on_primary_error_outcome g w e p language s1)
        as [[d Hd]|[[detail Hd]|(e2 & s2 & _ & He2 & Hd)]].
      * left. by exists d.
      * right; left. by exists detail.
      * right; right; left. by exists e2.
    + right; right; left. by exists e.
Qed.

Lemma raises_Exceptions_bind {A B} (m : M A) (f : A → M B) :
  raises_Exceptions m → (∀ a, raises_Exceptions (f a)) →
  raises_Exceptions (m ≫= f).
Proof.
  intros Hm Hf s e s'. unfold mbind, M_bind.
  destruct (m s) as [[a|e1] s1] eqn:Hms.
  - apply Hf.
  - intros [= <- <-]. by eapply Hm.
Qed.

Lemma raises_Exceptions_ret {A} (a : A) : raises_Exceptions (mret a).
Proof. by intros s e s'. Qed.

Lemma raises_Exceptions_raise {A} e :
  is_Exception e = true → raises_Exceptions (@raise A e).
Proof. by intros He s e' s' [= <- <-]. Qed.

Lemma raises_Exceptions_if {A} (b : bool) (m1 m2 : M A) :
  raises_Exceptions m1 → raises_Exceptions m2 →
  raises_Exceptions (if b then m1 else m2).
Proof. by destruct b. Qed.

Lemma raises_Exceptions_open_rb p : raises_Exceptions (open_rb p).
Proof. intros s e s'. unfold open_rb. case_bool_decide; by intros [= <- <-]. Qed.

Lemma raises_Exceptions_model_transcribe w p options :
  engines_raise_Exceptions w → raises_Exceptions (model_transcribe w p options).
Proof.
  intros [Hw _] s e s'. unfold model_transcribe.
  destruct (whisper_transcribe w _ _ _) eqn:Hr; intros [= <- <-]. by eapply Hw.
Qed.

Lemma raises_Exceptions_transcriptions_create w p language :
  engines_raise_Exceptions w →
  raises_Exceptions (transcriptions_create w p language).
Proof.
  intros [_ Ho] s e s'. unfold transcriptions_create.
  destruct (openai_create w _ _ _) eqn:Hr; intros [= <- <-]. by eapply Ho.
Qed.

Lemma raises_Exceptions_try_primary g w sel p language :
  engines_raise_Exceptions w →
  raises_Exceptions (ServerDual.try_primary g w sel p language).
Proof.
  intros Hw. unfold ServerDual.try_primary,
    ServerDual.transcribe_with_local_whisper, ServerDual.transcribe_with_openai.
  auto 10 using raises_Exceptions_bind, raises_Exceptions_ret,
    raises_Exceptions_raise, raises_Exceptions_if, raises_Exceptions_open_rb,
    raises_Exceptions_model_transcribe, raises_Exceptions_transcriptions_create.
Qed.

Lemma raises_Exceptions_try_fallback g w e p language :
  engines_raise_Exceptions w →
  raises_Exceptions (ServerDual.try_fallback g w e p language).
Proof.
  intros Hw. unfold ServerDual.try_fallback,
    ServerDual.transcribe_with_local_whisper, ServerDual.transcribe_with_openai.
  auto 10 using raises_Exceptions_bind, raises_Exceptions_ret,
    raises_Exceptions_raise, raises_Exceptions_if, raises_Exceptions_open_rb,
    raises_Exceptions_model_transcribe, raises_Exceptions_transcriptions_create.
Qed.

(** *** A request that names its engine *)

(** When the named engine cannot serve, no engine is tried first: the
    handler stages the upload and goes straight to the fallback policy. *)
Lemma dual_explicit_unavailable g w audio language engine s :
  engine ≠ "auto" → is_audio audio = true →
  tmp_fault w = None → copy_fault w = None →
  ServerDual.available g (engine +:+ "_whisper") = false →
  ∃ s',
    ServerDual.transcribe_audio g w audio language engine s
    = ((ServerDual.on_primary_error g w
          (Exception ("Engine " +:+ (engine +:+ "_whisper") +:+ " not available"))
          (tmp_name w) language (staged w (entry s))).1, s')
    ∧ (tmp_name w ∉ files s')
    ∧ trace s'
      = trace (ServerDual.on_primary_error g w
                 (Exception ("Engine " +:+ (engine +:+ "_whisper") +:+ " not available"))
                 (tmp_name w) language (staged w (entry s))).2
        ++ [Unlinked (tmp_name w)].
Proof.
  intros He Ha Ht Hc Hu.
  rewrite (dual_staged g w audio language engine s (engine +:+ "_whisper"))
    by (done || by apply select_explicit).
  destruct (staged_then_cleanup
              (ServerDual.dispatch g w (engine +:+ "_whisper") language)
              w (entry s) (trace_only_dispatch _ _ _ _))
    as (s' & Hr & Hfl & Htr).
  exists s'. rewrite Hr, Htr.
  by rewrite (dispatch_unavailable g w _ language _ (tmp_name w)).
Qed.

(** C3 (as amended).  When no engine is available, a request is answered
    503 with no temporary file created and no engine called: in
    [server_dual.py] if it is for [auto] and uploads audio; in [server.py]
    and [server_original.py] for every request, whatever it uploads (there
    the local model alone decides, and the check comes first). *)
Theorem no_engine_503_before_staging gd gs go w audio language engines s :
  ServerDual.local_whisper_model gd = false →
  ServerDual.openai_client gd = false →
  Server.whisper_model gs = false →
  ServerOriginal.whisper_model go = false →
  (is_audio audio = true →
   ServerDual.transcribe_audio gd w audio language "auto" s
   = (inr (HTTPException 503 "No transcription engines available"), entry s))
  ∧ (Server.transcribe_audio gs w audio language engines s
     = (inr (HTTPException 503 "Whisper model not loaded"), entry s))
  ∧ (ServerOriginal.transcribe_audio go w audio language s
     = (inr (HTTPException 503 "Whisper model not loaded"), entry s))
  ∧ files (entry s) = files s ∧ trace (entry s) = trace s.
Proof.
  intros Hl Ho Hs Hg. split; [intros Ha; by apply dual_auto_none|].
  split; [by apply server_not_loaded|].
  split; [by apply original_not_loaded|]. done.
Qed.

(** The theorem at the three servers with nothing loaded: an audio upload
    for [server_dual.py], an upload that is no audio for the other two. *)
Lemma no_engine_503_before_staging_witness :
  ServerDual.local_whisper_model Examples.dual_none = false
  ∧ ServerDual.openai_client Examples.dual_none = false
  ∧ Server.whisper_model (Server.Globals false false "base") = false
  ∧ ServerOriginal.whisper_model (ServerOriginal.Globals false "base") = false
  ∧ is_audio Examples.wav = true
  ∧ is_audio (Upload (Some "text/plain") "notes.txt") = false
  ∧ (ServerDual.transcribe_audio Examples.dual_none Examples.engines_ok
       Examples.wav "auto" "auto" Examples.s0
     = (inr (HTTPException 503 "No transcription engines available"),
        entry Examples.s0))
  ∧ (Server.transcribe_audio (Server.Globals false false "base")
       Examples.engines_ok (Upload (Some "text/plain") "notes.txt")
       "auto" "both" Examples.s0
     = (inr (HTTPException 503 "Whisper model not loaded"), entry Examples.s0))
  ∧ (ServerOriginal.transcribe_audio (ServerOriginal.Globals false "base")
       Examples.engines_ok (Upload (Some "text/plain") "notes.txt")
       "auto" Examples.s0
     = (inr (HTTPException 503 "Whisper model not loaded"), entry Examples.s0))
  ∧ files (entry Examples.s0) = files Examples.s0
  ∧ trace (entry Examples.s0) = trace Examples.s0.
Proof.
  do 6 (split; [reflexivity|]).
  split.
  - exact (proj1 (no_engine_503_before_staging Examples.dual_none
                    (Server.Globals false false "base")
                    (ServerOriginal.Globals false "base")
                    Examples.engines_ok Examples.wav "auto" "both" Examples.s0
                    eq_refl eq_refl eq_refl eq_refl) eq_refl).
  - exact (proj2 (no_engine_503_before_staging Examples.dual_none
                    (Server.Globals false false "base")
                    (ServerOriginal.Globals false "base")
                    Examples.engines_ok (Upload (Some "text/plain") "notes.txt")
                    "auto" "both" Examples.s0
                    eq_refl eq_refl eq_refl eq_refl)).
Defined.

(** C3 (as stated) fails: with no engine available, a request to
    [server_dual.py] that names its engine is staged all the same and is
    answered 500, not 503. *)
Lemma no_engine_explicit_request_is_staged :
  ServerDual.local_whisper_model Examples.dual_none = false
  ∧ ServerDual.openai_client Examples.dual_none = false
  ∧ (ServerDual.transcribe_audio Examples.dual_none Examples.engines_ok
       Examples.wav "auto" "local" Examples.s0).1
    = inr (HTTPException 500
             "Both engines failed. Primary: Engine local_whisper not available, Fallback: Fallback engine openai_whisper not available")
  ∧ trace (ServerDual.transcribe_audio Examples.dual_none Examples.engines_ok
             Examples.wav "auto" "local" Examples.s0).2
    = [Created Examples.tmp; Copied Examples.tmp; Unlinked Examples.tmp].
Proof. repeat split; reflexivity. Qed.

Lemma status_not_503_400 {A} (r : A + exn) :
  (∃ d, r = inl d) ∨ (∃ detail, r = inr (HTTPException 500 detail))
  ∨ (∃ e, is_Exception e = false ∧ r = inr e) →
  status_of r ≠ Some 503 ∧ status_of r ≠ Some 400.
Proof.
  intros [[d ->]|[[detail ->]|(e & He & ->)]]; cbn; [done..|].
  by destruct e.
Qed.

Lemma on_primary_error_status g w e p language s :
  status_of (ServerDual.on_primary_error g w e p language s).1 ≠ Some 503
  ∧ status_of (ServerDual.on_primary_error g w e p language s).1 ≠ Some 400.
Proof.
  apply status_not_503_400.
  destruct (on_primary_error_outcome g w e p language s)
    as [?|[?|(e2 & s2 & _ & He2 & Hr)]]; [by left|by right; left|].
  right; right. by exists e2.
Qed.




(** *** A request that names an engine nobody knows *)

Lemma server_unknown_engine g w audio language engines s :
  engines ∉ ["both"; "local"; "openai"] →
  Server.whisper_model g = true → is_audio audio = true →
  tmp_fault w = None → copy_fault w = None →
  (Server.transcribe_audio g w audio language engines s).1
  = inl (Server.Dual ∅ true (filename audio))
  ∧ trace (Server.transcribe_audio g w audio language engines s).2
    = trace s ++ [Created (tmp_name w); Copied (tmp_name w);
                  Unlinked (tmp_name w)].
Proof.
  rewrite !elem_of_cons, elem_of_nil. intros Hn Hm Ha Ht Hc.
  rewrite server_staged by done.
  destruct (staged_then_cleanup (Server.compare_engines g w audio language engines)
              w (entry s) (trace_only_compare_engines _ _ _ _ _))
    as (s' & -> & _ & Htr).
  cbn [fst snd]. rewrite Htr. unfold Server.compare_engines.
  erewrite bind_inl; last first.
  { apply run_local_skips. rewrite !elem_of_cons, elem_of_nil. tauto. }
  erewrite bind_inl; last first.
  { apply run_openai_skips. rewrite !elem_of_cons, elem_of_nil. tauto. }
  cbn [fst snd mret M_ret]. unfold Server.shape.
  rewrite !bool_decide_eq_false_2 by tauto.
  split; [reflexivity|]. cbn [trace staged entry]. by rewrite <- app_assoc.
Qed.

(** C6 (as amended).  No handler checks the engine name against the known
    engines, and none answers with an invalid-input error (400).  In
    [server_dual.py] the upload is staged, the first attempt calls no
    engine, and the fallback policy decides: without a fallback the request
    fails with 500.  In [server.py] the upload is staged, no engine is
    called and the answer is 200 with an empty [engines] mapping.  In both
    the temporary file is unlinked. *)
Theorem unknown_engine_not_validated gd gs w audio language engine s :
  engine ∉ ["auto"; "local"; "openai"] →
  engine ∉ ["both"; "local"; "openai"] →
  is_audio audio = true → tmp_fault w = None → copy_fault w = None →
  Server.whisper_model gs = true →
  status_of (ServerDual.transcribe_audio gd w audio language engine s).1 ≠ Some 400
  ∧ (∃ evs,
        trace (ServerDual.transcribe_audio gd w audio language engine s).2
        = trace s ++ [Created (tmp_name w); Copied (tmp_name w)] ++ evs
            ++ [Unlinked (tmp_name w)])
  ∧ (ServerDual.ENABLE_DUAL_ENGINE gd && truthy (ServerDual.FALLBACK_ENGINE gd) = false →
     (ServerDual.transcribe_audio gd w audio language engine s).1
     = inr (HTTPException 500
              ("Transcription failed: Engine " +:+ (engine +:+ "_whisper")
                 +:+ " not available"))
     ∧ trace (ServerDual.transcribe_audio gd w audio language engine s).2
       = trace s ++ [Created (tmp_name w); Copied (tmp_name w);
                     Unlinked (tmp_name w)])
  ∧ (Server.transcribe_audio gs w audio language engine s).1
    = inl (Server.Dual ∅ true (filename audio))
  ∧ trace (Server.transcribe_audio gs w audio language engine s).2
    = trace s ++ [Created (tmp_name w); Copied (tmp_name w);
                  Unlinked (tmp_name w)].
Proof.
  intros Hd Hs Ha Ht Hc Hm.
  assert (engine ≠ "auto") as He.
  { intros ->. apply Hd, list_elem_of_here. }
  destruct (dual_explicit_unavailable gd w audio language engine s He Ha Ht Hc
              (unknown_engine_unavailable gd engine Hd))
    as (s' & -> & _ & Htr).
  cbn [fst snd]. rewrite Htr.
  split; [exact (proj2 (on_primary_error_status _ _ _ _ _ _))|].
  split.
  { destruct (trace_only_on_primary_error gd w
                (Exception ("Engine " +:+ (engine +:+ "_whisper") +:+ " not available"))
                (tmp_name w) language (staged w (entry s)))
      as (_ & _ & evs & ->).
    exists evs. cbn [trace staged entry]. by rewrite <- !app_assoc. }
  split.
  - intros Hn. rewrite on_primary_error_no_fallback by exact Hn.
    split; [reflexivity|]. cbn [snd trace staged entry].
    by rewrite <- app_assoc.
  - by apply server_unknown_engine.
Qed.

Lemma azure_unknown :
  ("azure" ∉ ["auto"; "local"; "openai"])
  ∧ ("azure" ∉ ["both"; "local"; "openai"]).
Proof.
  split; rewrite !elem_of_cons, elem_of_nil;
    intros [?|[?|[?|[]]]]; discriminate.
Defined.

(** The theorem at a request for an engine called [azure]. *)
Lemma unknown_engine_not_validated_witness :
  ("azure" ∉ ["auto"; "local"; "openai"])
  ∧ ("azure" ∉ ["both"; "local"; "openai"])
  ∧ is_audio Examples.wav = true
  ∧ tmp_fault Examples.engines_ok = None
  ∧ copy_fault Examples.engines_ok = None
  ∧ Server.whisper_model Examples.compare_both = true
  ∧ status_of (ServerDual.transcribe_audio Examples.dual_both
                 Examples.engines_ok Examples.wav "auto" "azure" Examples.s0).1
    ≠ Some 400
  ∧ (Server.transcribe_audio Examples.compare_both Examples.engines_ok
       Examples.wav "auto" "azure" Examples.s0).1
    = inl (Server.Dual ∅ true (filename Examples.wav)).
Proof.
  split; [exact (proj1 azure_unknown)|]. split; [exact (proj2 azure_unknown)|].
  do 4 (split; [reflexivity|]).
  destruct (unknown_engine_not_validated Examples.dual_both Examples.compare_both
              Examples.engines_ok Examples.wav "auto" "azure" Examples.s0
              (proj1 azure_unknown) (proj2 azure_unknown)
              eq_refl eq_refl eq_refl eq_refl)
    as (H1 & _ & _ & H4 & _).
  split; [exact H1|exact H4].
Defined.

(** C6 (as stated) fails: a request to [server_dual.py] for an engine
    nobody knows is staged and served by the fallback engine, 200. *)
Lemma unknown_engine_is_staged_and_served :
  (ServerDual.transcribe_audio Examples.dual_both Examples.engines_ok
     Examples.wav "auto" "azure" Examples.s0).1
  = inl (dict [("text", "hello");
               ("language_detected", "auto-detected");
               ("confidence", "N/A");
               ("engine", "openai_whisper");
               ("model", "whisper-1");
               ("engine_used", "openai_whisper (fallback)");
               ("primary_engine_error", "Engine azure_whisper not available")])
  ∧ trace (ServerDual.transcribe_audio Examples.dual_both Examples.engines_ok
             Examples.wav "auto" "azure" Examples.s0).2
    = [Created Examples.tmp; Copied Examples.tmp;
       OpenAIWhisper Examples.tmp None; Unlinked Examples.tmp].
Proof. repeat split; reflexivity. Qed.

(** *** [auto]: the fallback after a failed first attempt *)


(** When the fallback raises as well, the request fails with both
    messages. *)
Lemma auto_both_fail g w audio language s sel e1 s1 e2 s2 :
  is_audio audio = true → tmp_fault w = None → copy_fault w = None →
  ServerDual.select_engine g "auto" (entry s) = (inl sel, entry s) →
  ServerDual.try_primary g w sel (tmp_name w) language (staged w (entry s))
  = (inr e1, s1) →
  is_Exception e1 = true →
  ServerDual.ENABLE_DUAL_ENGINE g = true →
  truthy (ServerDual.FALLBACK_ENGINE g) = true →
  ServerDual.try_fallback g w e1 (tmp_name w) language s1 = (inr e2, s2) →
  is_Exception e2 = true →
  (ServerDual.transcribe_audio g w audio language "auto" s).1
  = inr (HTTPException 500
           ("Both engines failed. Primary: " +:+ str e1
              +:+ ", Fallback: " +:+ str e2)).
Proof.
  intros Ha Ht Hc Hsel Hp He1 Hen Htr Hf He2.
  rewrite (dual_staged g w audio language "auto" s sel) by done.
  destruct (staged_then_cleanup (ServerDual.dispatch g w sel language)
              w (entry s) (trace_only_dispatch _ _ _ _))
    as (s' & -> & _).
  cbn [fst].
  rewrite (dispatch_primary_fails g w sel language _ (tmp_name w) e1 s1)
    by done.
  by rewrite (on_primary_error_both_fail _ _ _ _ _ _ _ _ Hen Htr Hf He2).
Qed.



(** The text of [primary_engine_error] is whatever [str] gives for the first
    exception: for an exception without a message it is empty. *)
Lemma auto_fallback_empty_primary_error :
  (ServerDual.transcribe_audio Examples.dual_both Examples.local_fails_silently
     Examples.wav "auto" "auto" Examples.s0).1
  = inl (dict [("text", "hello");
               ("language_detected", "auto-detected");
               ("confidence", "N/A");
               ("engine", "openai_whisper");
               ("model", "whisper-1");
               ("engine_used", "openai_whisper (fallback)");
               ("primary_engine_error", "")]).
Proof. reflexivity. Qed.

(** ** The staged file, on every way out *)

(** When the copy succeeds, every way out of the three handlers unlinks the
    temporary file. *)
Lemma server_payload_deleted g w audio language engines s :
  Server.whisper_model g = true → is_audio audio = true →
  tmp_fault w = None → copy_fault w = None →
  tmp_name w ∉ files (Server.transcribe_audio g w audio language engines s).2.
Proof.
  intros Hm Ha Ht Hc. rewrite server_staged by done.
  destruct (staged_then_cleanup (Server.compare_engines g w audio language engines)
              w (entry s) (trace_only_compare_engines _ _ _ _ _))
    as (s' & -> & Hs' & _).
  exact Hs'.
Qed.

Lemma dual_payload_deleted g w audio language engine s :
  is_audio audio = true → ServerDual.selectable g engine = true →
  tmp_fault w = None → copy_fault w = None →
  tmp_name w ∉ files (ServerDual.transcribe_audio g w audio language engine s).2.
Proof.
  intros Ha Hs Ht Hc.
  destruct (select_selectable g engine (entry s) Hs) as (sel & Hsel).
  rewrite (dual_staged g w audio language engine s sel) by done.
  destruct (staged_then_cleanup (ServerDual.dispatch g w sel language)
              w (entry s) (trace_only_dispatch _ _ _ _))
    as (s' & -> & Hs' & _).
  exact Hs'.
Qed.

(** C2.  The claim fails on the code: when the copy of the upload into the
    temporary file raises, [temp_path] is not bound yet, the [finally]
    clause raises [UnboundLocalError] instead of unlinking, and the file
    stays behind.  This holds for the three handlers. *)
Theorem staged_payload_left_when_copy_raises
    gd gs go w e audio language engines engine s :
  is_audio audio = true → tmp_fault w = None → copy_fault w = Some e →
  Server.whisper_model gs = true →
  ServerDual.selectable gd engine = true →
  ServerOriginal.whisper_model go = true →
  Server.transcribe_audio gs w audio language engines s
  = (inr (UnboundLocalError "temp_path"), half_staged w (entry s))
  ∧ ServerDual.transcribe_audio gd w audio language engine s
    = (inr (UnboundLocalError "temp_path"), half_staged w (entry s))
  ∧ ServerOriginal.transcribe_audio go w audio language s
    = (inr (UnboundLocalError "temp_path"), half_staged w (entry s))
  ∧ tmp_name w ∈ files (half_staged w (entry s))
  ∧ trace (half_staged w (entry s)) = trace s ++ [Created (tmp_name w)].
Proof.
  intros Ha Ht Hc Hs Hd Ho.
  split; [by eapply server_copy_raises|].
  split; [by eapply dual_copy_raises|].
  split; [by eapply original_copy_raises|].
  split; [apply tmp_in_half_staged|reflexivity].
Qed.

(** The theorem when the disk is full. *)
Lemma staged_payload_left_when_copy_raises_witness :
  is_audio Examples.wav = true
  ∧ tmp_fault Examples.copy_fails = None
  ∧ copy_fault Examples.copy_fails
    = Some (Exception "[Errno 28] No space left on device")
  ∧ Server.whisper_model Examples.compare_both = true
  ∧ ServerDual.selectable Examples.dual_both "auto" = true
  ∧ ServerOriginal.whisper_model Examples.original_loaded = true
  ∧ Server.transcribe_audio Examples.compare_both Examples.copy_fails
      Examples.wav "auto" "both" Examples.s0
    = (inr (UnboundLocalError "temp_path"),
       half_staged Examples.copy_fails (entry Examples.s0))
  ∧ ServerDual.transcribe_audio Examples.dual_both Examples.copy_fails
      Examples.wav "auto" "auto" Examples.s0
    = (inr (UnboundLocalError "temp_path"),
       half_staged Examples.copy_fails (entry Examples.s0))
  ∧ ServerOriginal.transcribe_audio Examples.original_loaded Examples.copy_fails
      Examples.wav "auto" Examples.s0
    = (inr (UnboundLocalError "temp_path"),
       half_staged Examples.copy_fails (entry Examples.s0))
  ∧ tmp_name Examples.copy_fails
    ∈ files (half_staged Examples.copy_fails (entry Examples.s0))
  ∧ trace (half_staged Examples.copy_fails (entry Examples.s0))
    = trace Examples.s0 ++ [Created (tmp_name Examples.copy_fails)].
Proof.
  do 6 (split; [reflexivity|]).
  apply (staged_payload_left_when_copy_raises Examples.dual_both
           Examples.compare_both Examples.original_loaded Examples.copy_fails
           (Exception "[Errno 28] No space left on device")
           Examples.wav "auto" "both" "auto" Examples.s0); reflexivity.
Defined.

(** The same at a request, evaluated: the answer is an error and the file
    is still there when the handler is done. *)
Lemma copy_fails_file_remains :
  (Server.transcribe_audio Examples.compare_both Examples.copy_fails
     Examples.wav "auto" "both" Examples.s0).1
  = inr (UnboundLocalError "temp_path")
  ∧ elements (files (Server.transcribe_audio Examples.compare_both
                       Examples.copy_fails Examples.wav "auto" "both"
                       Examples.s0).2)
    = [Examples.tmp]
  ∧ trace (Server.transcribe_audio Examples.compare_both Examples.copy_fails
             Examples.wav "auto" "both" Examples.s0).2
    = [Created Examples.tmp].
Proof. repeat split; reflexivity. Qed.

(** ** The language each engine is given *)

Lemma normalize_fr : normalize "fr" = Some "fr".
Proof. reflexivity. Qed.

(** The local adapter of [server_dual.py] gives the model the normalised
    language. *)
Lemma dual_local_language g w p language s :
  trace (ServerDual.transcribe_with_local_whisper g w p language s).2
  = trace s ++ [LocalWhisper p (normalize language)].
Proof.
  unfold ServerDual.transcribe_with_local_whisper, mbind, M_bind,
    model_transcribe, normalize.
  by destruct (whisper_transcribe w _ _ _).
Qed.

(** Its remote adapter does not: it gives the API the tag as it came,
    unless the tag is [auto]. *)
Lemma dual_openai_language_raw language :
  language ≠ "auto" → ServerDual.openai_language language = Some language.
Proof.
  intros H. unfold ServerDual.openai_language.
  by rewrite (bool_decide_eq_false_2 _ H).
Qed.

Lemma dual_openai_language_table language code :
  lang_map !! language = Some code →
  normalize language = Some code
  ∧ ServerDual.openai_language language = Some language
  ∧ code ≠ language.
Proof.
  unfold lang_map. rewrite !lookup_insert.
  repeat case_decide; rewrite ?lookup_empty; intros [= <-]; subst;
    repeat split; discriminate.
Qed.

(** C9.  The claim fails on the code: the table and the pass-through are as
    stated where the mapping is applied, but the remote adapter of
    [server_dual.py] does not apply it.  For [en-IN] the local model is
    given [en] and the remote API [en-IN]; for the empty tag the local model
    is given nothing and the remote API the empty string.  [server.py]
    gives both engines [en]. *)
Theorem openai_adapter_skips_lang_map :
  normalize "en-IN" = Some "en"
  ∧ normalize "" = None
  ∧ ServerDual.openai_language "en-IN" = Some "en-IN"
  ∧ ServerDual.openai_language "" = Some ""
  ∧ trace (ServerDual.transcribe_audio Examples.dual_both Examples.engines_ok
             Examples.wav "en-IN" "openai" Examples.s0).2
    = [Created Examples.tmp; Copied Examples.tmp;
       OpenAIWhisper Examples.tmp (Some "en-IN"); Unlinked Examples.tmp]
  ∧ trace (ServerDual.transcribe_audio Examples.dual_both Examples.engines_ok
             Examples.wav "en-IN" "local" Examples.s0).2
    = [Created Examples.tmp; Copied Examples.tmp;
       LocalWhisper Examples.tmp (Some "en"); Unlinked Examples.tmp]
  ∧ trace (Server.transcribe_audio Examples.compare_both Examples.engines_ok
             Examples.wav "en-IN" "both" Examples.s0).2
    = [Created Examples.tmp; Copied Examples.tmp;
       LocalWhisper Examples.tmp (Some "en");
       OpenAIWhisper Examples.tmp (Some "en"); Unlinked Examples.tmp].
Proof. repeat split; reflexivity. Qed.

(** ** An engine that fails *)

(** C4 (as amended).  In [server.py] a request for one engine
    ([engines=local], or [engines=openai] with a client configured) whose
    transcription raises an [Exception] is answered 200 with that engine's
    entry: status [error] and the text ["<Engine> failed: <message>"].
    This does not depend on the other engine: it is not called, and
    whether it is configured or would fail plays no part.  In
    [server_original.py], which has one engine, the request fails with
    500 ["Transcription failed: <message>"]. *)
Theorem single_engine_failure_outcome gs go w audio language s :
  is_audio audio = true → tmp_fault w = None → copy_fault w = None →
  (∀ e1,
      Server.whisper_model gs = true →
      whisper_transcribe w
        (trace s ++ [Created (tmp_name w); Copied (tmp_name w)])
        (tmp_name w) (prepare_options language) = WRaise e1 →
      is_Exception e1 = true →
      (Server.transcribe_audio gs w audio language "local" s).1
      = inl (Server.Single (dict [("text", "Local Whisper failed: " +:+ str e1);
                                  ("status", "error");
                                  ("engine", "local_whisper")]))
      ∧ status_of (Server.transcribe_audio gs w audio language "local" s).1
        = Some 200)
  ∧ (∀ e2,
        Server.whisper_model gs = true → Server.openai_client gs = true →
        openai_create w
          (trace s ++ [Created (tmp_name w); Copied (tmp_name w)])
          (tmp_name w) (normalize language) = ORaise e2 →
        is_Exception e2 = true →
        (Server.transcribe_audio gs w audio language "openai" s).1
        = inl (Server.Single
                 (dict [("text", "OpenAI Whisper failed: " +:+ str e2);
                        ("status", "error");
                        ("engine", "openai_whisper")]))
        ∧ status_of (Server.transcribe_audio gs w audio language "openai" s).1
          = Some 200)
  ∧ (∀ e1,
        ServerOriginal.whisper_model go = true →
        whisper_transcribe w
          (trace s ++ [Created (tmp_name w); Copied (tmp_name w)])
          (tmp_name w) (prepare_options language) = WRaise e1 →
        is_Exception e1 = true →
        (ServerOriginal.transcribe_audio go w audio language s).1
        = inr (HTTPException 500 ("Transcription failed: " +:+ str e1))).
Proof.
  intros Ha Ht Hc. split; [|split].
  - intros e1 Hm Hr1 He1.
    rewrite (server_single_local_fails gs w audio language s e1) by done.
    split; reflexivity.
  - intros e2 Hm Hoc Hr2 He2.
    rewrite (server_single_openai_fails gs w audio language s e2) by done.
    split; reflexivity.
  - intros e1 Ho Hr1 He1.
    by rewrite (original_engine_fails go w audio language s e1).
Qed.

(** The theorem when the local model alone raises, at a server that has no
    OpenAI client; and, for the remote engine, when it raises. *)
Lemma single_engine_failure_outcome_witness :
  is_audio Examples.wav = true
  ∧ tmp_fault Examples.local_fails = None
  ∧ copy_fault Examples.local_fails = None
  ∧ Server.whisper_model Examples.compare_local_only = true
  ∧ Server.openai_client Examples.compare_local_only = false
  ∧ ServerOriginal.whisper_model Examples.original_loaded = true
  ∧ is_Exception (Exception "CUDA out of memory") = true
  ∧ is_Exception (Exception "Connection error.") = true
  ∧ (Server.transcribe_audio Examples.compare_local_only Examples.local_fails
       Examples.wav "auto" "local" Examples.s0).1
    = inl (Server.Single
             (dict [("text", "Local Whisper failed: "
                               +:+ str (Exception "CUDA out of memory"));
                    ("status", "error");
                    ("engine", "local_whisper")]))
  ∧ (Server.transcribe_audio Examples.compare_both Examples.both_fail
       Examples.wav "auto" "openai" Examples.s0).1
    = inl (Server.Single
             (dict [("text", "OpenAI Whisper failed: "
                               +:+ str (Exception "Connection error."));
                    ("status", "error");
                    ("engine", "openai_whisper")]))
  ∧ (ServerOriginal.transcribe_audio Examples.original_loaded
       Examples.local_fails Examples.wav "auto" Examples.s0).1
    = inr (HTTPException 500
             ("Transcription failed: " +:+ str (Exception "CUDA out of memory"))).
Proof.
  do 8 (split; [reflexivity|]).
  destruct (single_engine_failure_outcome Examples.compare_local_only
              Examples.original_loaded Examples.local_fails Examples.wav "auto"
              Examples.s0 eq_refl eq_refl eq_refl)
    as (H1 & _ & H3).
  destruct (single_engine_failure_outcome Examples.compare_both
              Examples.original_loaded Examples.both_fail Examples.wav "auto"
              Examples.s0 eq_refl eq_refl eq_refl)
    as (_ & H2 & _).
  split; [exact (proj1 (H1 (Exception "CUDA out of memory")
                          eq_refl eq_refl eq_refl))|].
  split; [exact (proj1 (H2 (Exception "Connection error.")
                          eq_refl eq_refl eq_refl eq_refl))|].
  exact (H3 (Exception "CUDA out of memory") eq_refl eq_refl eq_refl).
Defined.

(** C4 (as stated) fails: a request to [server.py] for the local engine,
    which raises, is answered 200 with an entry that reports the error. *)
Lemma single_engine_failure_answered_200 :
  (Server.transcribe_audio Examples.compare_both Examples.local_fails
     Examples.wav "auto" "local" Examples.s0).1
  = inl (Server.Single
           (dict [("text", "Local Whisper failed: CUDA out of memory");
                  ("status", "error");
                  ("engine", "local_whisper")]))
  ∧ status_of (Server.transcribe_audio Examples.compare_both Examples.local_fails
                 Examples.wav "auto" "local" Examples.s0).1 = Some 200
  ∧ trace (Server.transcribe_audio Examples.compare_both Examples.local_fails
             Examples.wav "auto" "local" Examples.s0).2
    = [Created Examples.tmp; Copied Examples.tmp;
       LocalWhisper Examples.tmp None; Unlinked Examples.tmp].
Proof. repeat split; reflexivity. Qed.

(** ** Where the faults of the engines end up *)

(** The adapters of [server_dual.py] catch nothing: a fault of the engine
    is a fault of the adapter. *)
Lemma dual_local_adapter_propagates g w p language s e :
  whisper_transcribe w (trace s) p (prepare_options language) = WRaise e →
  (ServerDual.transcribe_with_local_whisper g w p language s).1 = inr e.
Proof.
  intros Hr. unfold ServerDual.transcribe_with_local_whisper, mbind, M_bind,
    model_transcribe.
  by rewrite Hr.
Qed.

Lemma dual_openai_adapter_propagates w p language s e :
  p ∈ files s →
  openai_create w (trace s) p (ServerDual.openai_language language) = ORaise e →
  (ServerDual.transcribe_with_openai w p language s).1 = inr e.
Proof.
  intros Hp Hr. unfold ServerDual.transcribe_with_openai, mbind, M_bind,
    open_rb, transcriptions_create.
  by rewrite (bool_decide_eq_true_2 _ Hp), Hr.
Qed.

(** With engines that raise nothing but [Exception]s, the two attempts of
    [server_dual.py] end in a result or in an [HTTPException] 500. *)
Lemma dispatch_outcome_caught g w sel language s :
  engines_raise_Exceptions w → is_Some (temp_path s) →
  (∃ d, (ServerDual.dispatch g w sel language s).1 = inl d)
  ∨ (∃ detail, (ServerDual.dispatch g w sel language s).1
               = inr (HTTPException 500 detail)).
Proof.
  intros Hw [p Hp].
  unfold ServerDual.dispatch, mbind, M_bind, read_temp_path. rewrite Hp.
  unfold try_except.
  destruct (ServerDual.try_primary g w sel p language s) as [[d|e] s1] eqn:Hr.
  - left. by eexists.
  - rewrite (raises_Exceptions_try_primary g w sel p language Hw _ _ _ Hr).
    destruct (on_primary_error_outcome g w e p language s1)
      as [[d Hd]|[[detail Hd]|(e2 & s2 & Hf & He2 & _)]].
    + left. by exists d.
    + right. by exists detail.
    + rewrite (raises_Exceptions_try_fallback g w e p language Hw _ _ _ Hf)
        in He2.
      discriminate.
Qed.

Lemma dual_answers g w audio language engine s :
  is_audio audio = true → tmp_fault w = None → copy_fault w = None →
  engines_raise_Exceptions w →
  (∃ d, (ServerDual.transcribe_audio g w audio language engine s).1 = inl d)
  ∨ (∃ detail, (ServerDual.transcribe_audio g w audio language engine s).1
               = inr (HTTPException 500 detail))
  ∨ (ServerDual.transcribe_audio g w audio language engine s).1
    = inr (HTTPException 503 "No transcription engines available").
Proof.
  intros Ha Ht Hc Hw.
  destruct (ServerDual.selectable g engine) eqn:Hs.
  - destruct (select_selectable g engine (entry s) Hs) as (sel & Hsel).
    rewrite (dual_staged g w audio language engine s sel) by done.
    destruct (staged_then_cleanup (ServerDual.dispatch g w sel language)
                w (entry s) (trace_only_dispatch _ _ _ _))
      as (s' & -> & _).
    cbn [fst].
    destruct (dispatch_outcome_caught g w sel language (staged w (entry s)) Hw)
      as [H|H]; [by eexists|by left|by right; left].
  - unfold ServerDual.selectable in Hs.
    apply orb_false_elim in Hs as [[He Hl]%orb_false_elim Ho].
    apply negb_false_iff, bool_decide_eq_true in He as ->.
    right; right. by rewrite dual_auto_none.
Qed.

(** ** No outcome carries an [errorKind] *)

(** What a computation returns, when it returns. *)
Lemma returns_ret {A} (P : A → Prop) a : P a → returns P (mret a).
Proof. by intros HP s a' s' [= <- <-]. Qed.

Lemma returns_raise {A} (P : A → Prop) e : returns P (raise e).
Proof. by intros s a s'. Qed.

Lemma returns_bind {A B} (P : B → Prop) (m : M A) (f : A → M B) :
  (∀ a, returns P (f a)) → returns P (m ≫= f).
Proof.
  intros Hf s b s'. unfold mbind, M_bind.
  destruct (m s) as [[a|e] s1]; [apply Hf|discriminate].
Qed.

Lemma returns_try_except {A} (P : A → Prop) (m : M A) h :
  returns P m → (∀ e, returns P (h e)) → returns P (try_except m h).
Proof.
  intros Hm Hh s a s'. unfold try_except.
  destruct (m s) as [[a1|e] s1] eqn:Hms.
  - intros [= <- <-]. by eapply Hm.
  - destruct (is_Exception e); [apply Hh|discriminate].
Qed.

Lemma returns_try_finally {A} (P : A → Prop) (m : M A) f :
  returns P m → returns P (try_finally m f).
Proof.
  intros Hm s a s'. unfold try_finally.
  destruct (m s) as [r s1] eqn:Hms. destruct (f s1) as [[[]|e] s2].
  - intros [= -> <-]. by eapply Hm.
  - discriminate.
Qed.

Lemma returns_if {A} (P : A → Prop) (b : bool) (m1 m2 : M A) :
  returns P m1 → returns P m2 → returns P (if b then m1 else m2).
Proof. by destruct b. Qed.

Lemma returns_call {A} (P : A → Prop) (m : M A) : returns P m → returns P (call m).
Proof. intros Hm s a s'. unfold call. apply Hm. Qed.

Lemma no_error_kind_insert k v (d : gmap string string) :
  k ≠ "errorKind" → no_error_kind d → no_error_kind (<[k := v]> d).
Proof. intros Hk Hd. unfold no_error_kind. by rewrite lookup_insert_ne. Qed.

Lemma returns_no_error_kind_local_adapter g w p language :
  returns no_error_kind (ServerDual.transcribe_with_local_whisper g w p language).
Proof.
  unfold ServerDual.transcribe_with_local_whisper.
  apply returns_bind. intros r. apply returns_ret. reflexivity.
Qed.

Lemma returns_no_error_kind_openai_adapter w p language :
  returns no_error_kind (ServerDual.transcribe_with_openai w p language).
Proof.
  unfold ServerDual.transcribe_with_openai.
  apply returns_bind. intros _. apply returns_bind. intros r.
  apply returns_ret. reflexivity.
Qed.

Lemma returns_no_error_kind_attempt g w p language (b1 b2 : bool) e :
  returns no_error_kind
    (if b1 then ServerDual.transcribe_with_local_whisper g w p language
     else if b2 then ServerDual.transcribe_with_openai w p language
     else raise e).
Proof.
  apply returns_if; [apply returns_no_error_kind_local_adapter|].
  apply returns_if; [apply returns_no_error_kind_openai_adapter|apply returns_raise].
Qed.

Lemma returns_no_error_kind_dispatch g w sel language :
  returns no_error_kind (ServerDual.dispatch g w sel language).
Proof.
  unfold ServerDual.dispatch. apply returns_bind. intros p.
  apply returns_try_except.
  - unfold ServerDual.try_primary. intros s d s'. unfold mbind, M_bind.
    destruct (_ s) as [[r|e] s1] eqn:Hr; [|discriminate].
    intros [= <- <-]. apply no_error_kind_insert; [discriminate|].
    by eapply returns_no_error_kind_attempt.
  - intros e. unfold ServerDual.on_primary_error.
    apply returns_if; [|apply returns_raise].
    apply returns_try_except; [|intros e2; apply returns_raise].
    unfold ServerDual.try_fallback. intros s d s'. unfold mbind, M_bind.
    destruct (_ s) as [[r|e'] s1] eqn:Hr; [|discriminate].
    intros [= <- <-].
    do 2 (apply no_error_kind_insert; [discriminate|]).
    by eapply returns_no_error_kind_attempt.
Qed.

Lemma returns_no_error_kind_dual g w audio language engine :
  returns no_error_kind (ServerDual.transcribe_audio g w audio language engine).
Proof.
  unfold ServerDual.transcribe_audio. apply returns_call.
  apply returns_bind. intros _. apply returns_bind. intros sel.
  apply returns_bind. intros tmp. apply returns_try_finally.
  apply returns_bind. intros _. apply returns_bind. intros _.
  apply returns_no_error_kind_dispatch.
Qed.

Lemma returns_no_error_kind_original g w audio language :
  returns no_error_kind (ServerOriginal.transcribe_audio g w audio language).
Proof.
  unfold ServerOriginal.transcribe_audio. apply returns_call.
  apply returns_if; [apply returns_raise|].
  apply returns_bind. intros _. apply returns_bind. intros tmp.
  apply returns_try_finally. apply returns_try_except.
  - apply returns_bind. intros _. apply returns_bind. intros _.
    unfold ServerOriginal.transcribe_staged.
    apply returns_bind. intros p. apply returns_bind. intros r.
    apply returns_ret. reflexivity.
  - intros e. apply returns_raise.
Qed.

Lemma entries_insert (P : gmap string string → Prop) name d
    (results : gmap string (gmap string string)) :
  P d →
  (∀ n d', results !! n = Some d' → P d') →
  ∀ n d', <[name := d]> results !! n = Some d' → P d'.
Proof.
  intros Hd Hr n d'. rewrite lookup_insert. case_decide.
  - by intros [= <-].
  - apply Hr.
Qed.

Lemma returns_no_error_kind_run_local g w engines options results :
  (∀ n d, results !! n = Some d → no_error_kind d) →
  returns (λ rs : gmap string (gmap string string),
             ∀ n d, rs !! n = Some d → no_error_kind d)
    (Server.run_local g w engines options results).
Proof.
  intros Hr. unfold Server.run_local.
  apply returns_if; [|by apply returns_ret].
  apply returns_try_except.
  - apply returns_bind. intros p. apply returns_bind. intros r.
    apply returns_ret, entries_insert; [reflexivity|exact Hr].
  - intros e. apply returns_ret, entries_insert; [reflexivity|exact Hr].
Qed.

Lemma returns_no_error_kind_run_openai g w engines options results :
  (∀ n d, results !! n = Some d → no_error_kind d) →
  returns (λ rs : gmap string (gmap string string),
             ∀ n d, rs !! n = Some d → no_error_kind d)
    (Server.run_openai g w engines options results).
Proof.
  intros Hr. unfold Server.run_openai.
  apply returns_if; [|apply returns_if; [|by apply returns_ret]].
  - apply returns_try_except.
    + apply returns_bind. intros p. apply returns_bind. intros _.
      apply returns_bind. intros r.
      apply returns_ret, entries_insert; [reflexivity|exact Hr].
    + intros e. apply returns_ret, entries_insert; [reflexivity|exact Hr].
  - apply returns_ret, entries_insert; [reflexivity|exact Hr].
Qed.

Lemma returns_no_error_kind_server g w audio language engines :
  returns answer_no_error_kind (Server.transcribe_audio g w audio language engines).
Proof.
  unfold Server.transcribe_audio. apply returns_call.
  apply returns_if; [apply returns_raise|].
  apply returns_bind. intros _. apply returns_bind. intros tmp.
  apply returns_try_finally.
  apply returns_bind. intros _. apply returns_bind. intros _.
  unfold Server.compare_engines.
  intros s a s'. unfold mbind at 1, M_bind at 1.
  destruct (Server.run_local _ _ _ _ _ s) as [[r1|e] s1] eqn:H1; [|discriminate].
  unfold mbind, M_bind.
  destruct (Server.run_openai _ _ _ _ _ s1) as [[r2|e] s2] eqn:H2; [|discriminate].
  intros [= <- <-].
  assert (∀ n d, r2 !! n = Some d → no_error_kind d) as Hr2.
  { eapply (returns_no_error_kind_run_openai g w engines _ r1); [|exact H2].
    eapply (returns_no_error_kind_run_local g w engines _ ∅); [|exact H1].
    intros n d. by rewrite lookup_empty. }
  unfold Server.shape.
  repeat case_bool_decide;
    repeat match goal with
           | |- context [match ?x !! ?k with _ => _ end] =>
               destruct (x !! k) eqn:?
           end; cbn [answer_no_error_kind]; eauto.
Qed.

(** C1 (as amended).  No [Exception] raised by an engine leaves a request
    handler unhandled, and no outcome carries an [errorKind].  When the
    engines are reached, [server.py] always answers 200.  The adapters of
    [server_dual.py] let the exception through to the handler, which
    answers 200, an [HTTPException] 500, or 503 (for [auto] with no engine
    available).  [server_original.py] answers 200 or the [HTTPException]
    500 ["Transcription failed: <message>"].  Whatever a handler returns,
    for any request and any engines, has no [errorKind]: not the result of
    [server_dual.py] or [server_original.py], and no entry of an answer of
    [server.py], the entries that report a failure included; the failures
    that are raised are [HTTPException]s, which carry a status and a detail
    only. *)
Theorem engine_failures_handled_without_error_kind
    gd gs go w audio language engines engine s :
  is_audio audio = true → tmp_fault w = None → copy_fault w = None →
  engines_raise_Exceptions w →
  Server.whisper_model gs = true →
  ServerOriginal.whisper_model go = true →
  (∃ response,
      (Server.transcribe_audio gs w audio language engines s).1 = inl response)
  ∧ ((∃ d, (ServerDual.transcribe_audio gd w audio language engine s).1 = inl d)
     ∨ (∃ detail, (ServerDual.transcribe_audio gd w audio language engine s).1
                  = inr (HTTPException 500 detail))
     ∨ (ServerDual.transcribe_audio gd w audio language engine s).1
       = inr (HTTPException 503 "No transcription engines available"))
  ∧ ((∃ d, (ServerOriginal.transcribe_audio go w audio language s).1 = inl d)
     ∨ (∃ e, (ServerOriginal.transcribe_audio go w audio language s).1
             = inr (HTTPException 500 ("Transcription failed: " +:+ str e))))
  ∧ (∀ p s' e,
        whisper_transcribe w (trace s') p (prepare_options language) = WRaise e →
        (ServerDual.transcribe_with_local_whisper gd w p language s').1 = inr e)
  ∧ (∀ p s' e,
        p ∈ files s' →
        openai_create w (trace s') p (ServerDual.openai_language language)
        = ORaise e →
        (ServerDual.transcribe_with_openai w p language s').1 = inr e)
  ∧ (∀ w' audio' language' engines' s0 r s',
        Server.transcribe_audio gs w' audio' language' engines' s0 = (inl r, s') →
        answer_no_error_kind r)
  ∧ (∀ w' audio' language' engine' s0 d s',
        ServerDual.transcribe_audio gd w' audio' language' engine' s0
        = (inl d, s') →
        no_error_kind d)
  ∧ (∀ w' audio' language' s0 d s',
        ServerOriginal.transcribe_audio go w' audio' language' s0 = (inl d, s') →
        no_error_kind d).
Proof.
  intros Ha Ht Hc Hw Hs Ho.
  split; [by apply server_answers_200|].
  split; [by apply dual_answers|].
  split; [by apply original_answers|].
  split; [intros p s' e; apply dual_local_adapter_propagates|].
  split; [intros p s' e; apply dual_openai_adapter_propagates|].
  split; [|split].
  - intros w' audio' language' engines' s0 r s'.
    apply returns_no_error_kind_server.
  - intros w' audio' language' engine' s0 d s'.
    apply returns_no_error_kind_dual.
  - intros w' audio' language' s0 d s'.
    apply returns_no_error_kind_original.
Qed.

Lemma both_fail_raise_Exceptions : engines_raise_Exceptions Examples.both_fail.
Proof. split; intros t p o e [= <-]; reflexivity. Defined.

(** The theorem when both engines raise. *)
Lemma engine_failures_handled_without_error_kind_witness :
  is_audio Examples.wav = true
  ∧ tmp_fault Examples.both_fail = None
  ∧ copy_fault Examples.both_fail = None
  ∧ engines_raise_Exceptions Examples.both_fail
  ∧ Server.whisper_model Examples.compare_both = true
  ∧ ServerOriginal.whisper_model Examples.original_loaded = true
  ∧ (∃ response,
        (Server.transcribe_audio Examples.compare_both Examples.both_fail
           Examples.wav "auto" "both" Examples.s0).1 = inl response)
  ∧ ((∃ d, (ServerDual.transcribe_audio Examples.dual_both Examples.both_fail
              Examples.wav "auto" "auto" Examples.s0).1 = inl d)
     ∨ (∃ detail,
           (ServerDual.transcribe_audio Examples.dual_both Examples.both_fail
              Examples.wav "auto" "auto" Examples.s0).1
           = inr (HTTPException 500 detail))
     ∨ (ServerDual.transcribe_audio Examples.dual_both Examples.both_fail
          Examples.wav "auto" "auto" Examples.s0).1
       = inr (HTTPException 503 "No transcription engines available"))
  ∧ answer_no_error_kind
      (Server.Dual
         (<["openai_whisper" :=
              dict [("text", "OpenAI Whisper failed: Connection error.");
                    ("status", "error");
                    ("engine", "openai_whisper")]]>
            (<["local_whisper" :=
                 dict [("text", "Local Whisper failed: CUDA out of memory");
                       ("status", "error");
                       ("engine", "local_whisper")]]> ∅))
         true "clip.wav").
Proof.
  do 3 (split; [reflexivity|]). split; [exact both_fail_raise_Exceptions|].
  do 2 (split; [reflexivity|]).
  destruct (engine_failures_handled_without_error_kind Examples.dual_both
              Examples.compare_both Examples.original_loaded Examples.both_fail
              Examples.wav "auto" "both" "auto" Examples.s0
              eq_refl eq_refl eq_refl both_fail_raise_Exceptions eq_refl eq_refl)
    as (H1 & H2 & _ & _ & _ & H6 & _).
  split; [exact H1|]. split; [exact H2|].
  exact (H6 Examples.both_fail Examples.wav "auto" "both" Examples.s0 _ _
           eq_refl).
Defined.

(** C1 (as stated) fails: the remote adapter of [server_dual.py] raises the
    fault of its engine across its boundary, and the failure outcomes of
    [server.py] carry no [errorKind]. *)
Lemma engine_failure_carries_no_error_kind :
  (ServerDual.transcribe_with_openai Examples.both_fail Examples.tmp "auto"
     (staged Examples.both_fail Examples.s0)).1
  = inr (Exception "Connection error.")
  ∧ (Server.transcribe_audio Examples.compare_both Examples.both_fail
       Examples.wav "auto" "both" Examples.s0).1
    = inl (Server.Dual
             (<["openai_whisper" :=
                  dict [("text", "OpenAI Whisper failed: Connection error.");
                        ("status", "error");
                        ("engine", "openai_whisper")]]>
                (<["local_whisper" :=
                     dict [("text", "Local Whisper failed: CUDA out of memory");
                           ("status", "error");
                           ("engine", "local_whisper")]]> ∅))
             true "clip.wav")
  ∧ dict [("text", "OpenAI Whisper failed: Connection error.");
          ("status", "error");
          ("engine", "openai_whisper")] !! "errorKind" = None
  ∧ dict [("text", "Local Whisper failed: CUDA out of memory");
          ("status", "error");
          ("engine", "local_whisper")] !! "errorKind" = None.
Proof. repeat split; reflexivity. Qed.

(** * Further properties of the handlers *)

(** ** Requests that are turned away before staging *)

Lemma check_content_type_not_audio audio ct s :
  content_type audio = Some ct → startswith "audio/" ct = false →
  check_content_type audio s
  = (inr (HTTPException 400 "File must be an audio file"), s).
Proof. intros Hct Hs. unfold check_content_type. by rewrite Hct, Hs. Qed.

Lemma check_content_type_missing audio s :
  content_type audio = None →
  check_content_type audio s
  = (inr (Exception "'NoneType' object has no attribute 'startswith'"), s).
Proof. intros Hct. unfold check_content_type. by rewrite Hct. Qed.

(** X1.  An upload whose content type does not begin with [audio/] is
    answered 400 by the three handlers with nothing staged and no engine
    called; in [server_dual.py] whatever the engine asked for and whether
    or not any engine is available. *)
Theorem non_audio_rejected gd gs go w audio ct language engines engine s :
  content_type audio = Some ct → startswith "audio/" ct = false →
  Server.whisper_model gs = true → ServerOriginal.whisper_model go = true →
  ServerDual.transcribe_audio gd w audio language engine s
  = (inr (HTTPException 400 "File must be an audio file"), entry s)
  ∧ Server.transcribe_audio gs w audio language engines s
    = (inr (HTTPException 400 "File must be an audio file"), entry s)
  ∧ ServerOriginal.transcribe_audio go w audio language s
    = (inr (HTTPException 400 "File must be an audio file"), entry s).
Proof.
  intros Hct Hs Hm Ho. split; [by eapply dual_not_audio|]. split.
  - unfold Server.transcribe_audio, call. rewrite Hm. cbn [negb].
    erewrite bind_inr; [reflexivity|by eapply check_content_type_not_audio].
  - unfold ServerOriginal.transcribe_audio, call. rewrite Ho. cbn [negb].
    erewrite bind_inr; [reflexivity|by eapply check_content_type_not_audio].
Qed.

(** The theorem at a text upload, with every engine of [server_dual.py]
    missing. *)
Lemma non_audio_rejected_witness :
  content_type (Upload (Some "text/plain") "notes.txt") = Some "text/plain"
  ∧ startswith "audio/" "text/plain" = false
  ∧ Server.whisper_model Examples.compare_both = true
  ∧ ServerOriginal.whisper_model Examples.original_loaded = true
  ∧ ServerDual.transcribe_audio Examples.dual_none Examples.engines_ok
      (Upload (Some "text/plain") "notes.txt") "auto" "auto" Examples.s0
    = (inr (HTTPException 400 "File must be an audio file"), entry Examples.s0)
  ∧ Server.transcribe_audio Examples.compare_both Examples.engines_ok
      (Upload (Some "text/plain") "notes.txt") "auto" "both" Examples.s0
    = (inr (HTTPException 400 "File must be an audio file"), entry Examples.s0)
  ∧ ServerOriginal.transcribe_audio Examples.original_loaded Examples.engines_ok
      (Upload (Some "text/plain") "notes.txt") "auto" Examples.s0
    = (inr (HTTPException 400 "File must be an audio file"), entry Examples.s0).
Proof.
  do 4 (split; [reflexivity|]).
  apply (non_audio_rejected Examples.dual_none Examples.compare_both
           Examples.original_loaded Examples.engines_ok
           (Upload (Some "text/plain") "notes.txt") "text/plain"
           "auto" "both" "auto" Examples.s0); reflexivity.
Defined.

(** X2.  An upload without a content type makes the content-type test
    itself raise: the handlers fail with an unhandled [AttributeError]
    (500), not with 400, and nothing is staged. *)
Theorem missing_content_type_is_a_fault gd gs go w audio language engines engine s :
  content_type audio = None →
  Server.whisper_model gs = true → ServerOriginal.whisper_model go = true →
  ServerDual.transcribe_audio gd w audio language engine s
  = (inr (Exception "'NoneType' object has no attribute 'startswith'"), entry s)
  ∧ Server.transcribe_audio gs w audio language engines s
    = (inr (Exception "'NoneType' object has no attribute 'startswith'"), entry s)
  ∧ ServerOriginal.transcribe_audio go w audio language s
    = (inr (Exception "'NoneType' object has no attribute 'startswith'"), entry s)
  ∧ status_of (ServerDual.transcribe_audio gd w audio language engine s).1
    = Some 500.
Proof.
  intros Hct Hm Ho.
  assert (ServerDual.transcribe_audio gd w audio language engine s
          = (inr (Exception "'NoneType' object has no attribute 'startswith'"),
             entry s)) as Hd.
  { unfold ServerDual.transcribe_audio, call.
    erewrite bind_inr; [reflexivity|by apply check_content_type_missing]. }
  rewrite Hd. split; [reflexivity|]. split; [|split; [|reflexivity]].
  - unfold Server.transcribe_audio, call. rewrite Hm. cbn [negb].
    erewrite bind_inr; [reflexivity|by apply check_content_type_missing].
  - unfold ServerOriginal.transcribe_audio, call. rewrite Ho. cbn [negb].
    erewrite bind_inr; [reflexivity|by apply check_content_type_missing].
Qed.

Lemma missing_content_type_is_a_fault_witness :
  content_type (Upload None "clip.wav") = None
  ∧ Server.whisper_model Examples.compare_both = true
  ∧ ServerOriginal.whisper_model Examples.original_loaded = true
  ∧ ServerDual.transcribe_audio Examples.dual_both Examples.engines_ok
      (Upload None "clip.wav") "auto" "auto" Examples.s0
    = (inr (Exception "'NoneType' object has no attribute 'startswith'"),
       entry Examples.s0)
  ∧ status_of (ServerDual.transcribe_audio Examples.dual_both Examples.engines_ok
                 (Upload None "clip.wav") "auto" "auto" Examples.s0).1
    = Some 500.
Proof.
  do 3 (split; [reflexivity|]).
  destruct (missing_content_type_is_a_fault Examples.dual_both
              Examples.compare_both Examples.original_loaded Examples.engines_ok
              (Upload None "clip.wav") "auto" "both" "auto" Examples.s0
              eq_refl eq_refl eq_refl) as (H1 & _ & _ & H4).
  split; [exact H1|exact H4].
Defined.

(** ** When the temporary file cannot be created *)

(** X3.  When [NamedTemporaryFile] raises, the fault leaves the handler as
    it is (the [try] block is not entered yet): no file exists, no engine
    is called, and [server_original.py] does not turn it into its 500
    ["Transcription failed"]. *)
Theorem tempfile_fault_goes_through gd gs go w e audio language engines engine s :
  is_audio audio = true → tmp_fault w = Some e →
  Server.whisper_model gs = true →
  ServerDual.selectable gd engine = true →
  ServerOriginal.whisper_model go = true →
  Server.transcribe_audio gs w audio language engines s = (inr e, entry s)
  ∧ ServerDual.transcribe_audio gd w audio language engine s = (inr e, entry s)
  ∧ ServerOriginal.transcribe_audio go w audio language s = (inr e, entry s).
Proof.
  intros Ha Ht Hm Hs Ho. split; [|split].
  - unfold Server.transcribe_audio, call. rewrite Hm. cbn [negb].
    erewrite bind_inl; [|by apply check_content_type_audio].
    by apply stage_not_created.
  - unfold ServerDual.transcribe_audio, call.
    erewrite bind_inl; [|by apply check_content_type_audio].
    destruct (select_selectable gd engine (entry s) Hs) as (sel & Hsel).
    erewrite bind_inl by exact Hsel.
    by apply stage_not_created.
  - unfold ServerOriginal.transcribe_audio, call. rewrite Ho. cbn [negb].
    erewrite bind_inl; [|by apply check_content_type_audio].
    by apply stage_not_created.
Qed.

(** The theorem when the temporary directory is not writable. *)
Lemma tempfile_fault_goes_through_witness :
  is_audio Examples.wav = true
  ∧ tmp_fault Examples.tmp_fails
    = Some (Exception "[Errno 13] Permission denied: '/tmp/tmpq3x7.wav'")
  ∧ Server.whisper_model Examples.compare_both = true
  ∧ ServerDual.selectable Examples.dual_both "auto" = true
  ∧ ServerOriginal.whisper_model Examples.original_loaded = true
  ∧ Server.transcribe_audio Examples.compare_both Examples.tmp_fails
      Examples.wav "auto" "both" Examples.s0
    = (inr (Exception "[Errno 13] Permission denied: '/tmp/tmpq3x7.wav'"),
       entry Examples.s0)
  ∧ ServerDual.transcribe_audio Examples.dual_both Examples.tmp_fails
      Examples.wav "auto" "auto" Examples.s0
    = (inr (Exception "[Errno 13] Permission denied: '/tmp/tmpq3x7.wav'"),
       entry Examples.s0)
  ∧ ServerOriginal.transcribe_audio Examples.original_loaded Examples.tmp_fails
      Examples.wav "auto" Examples.s0
    = (inr (Exception "[Errno 13] Permission denied: '/tmp/tmpq3x7.wav'"),
       entry Examples.s0).
Proof.
  do 5 (split; [reflexivity|]).
  exact (tempfile_fault_goes_through Examples.dual_both Examples.compare_both
           Examples.original_loaded Examples.tmp_fails
           (Exception "[Errno 13] Permission denied: '/tmp/tmpq3x7.wav'")
           Examples.wav "auto" "both" "auto" Examples.s0
           eq_refl eq_refl eq_refl eq_refl eq_refl).
Defined.

(** ** What a request does between staging and cleanup *)

Lemma calls_within_ret {A} p (a : A) : calls_within p 0 (mret a).
Proof. intros s _. exists []. by rewrite app_nil_r. Qed.

Lemma calls_within_raise {A} p e : calls_within p 0 (@raise A e).
Proof. intros s _. exists []. by rewrite app_nil_r. Qed.

Lemma calls_within_weaken {A} p n k (m : M A) :
  n ≤ k → calls_within p n m → calls_within p k m.
Proof.
  intros Hnk Hm s Hp. destruct (Hm s Hp) as (evs & Htr & Hall & Hlen).
  exists evs. repeat split; [done..|lia].
Qed.

Lemma calls_within_bind {A B} p n k (m : M A) (f : A → M B) :
  trace_only m → calls_within p n m → (∀ a, calls_within p k (f a)) →
  calls_within p (n + k) (m ≫= f).
Proof.
  intros Ht Hm Hf s Hp. unfold mbind, M_bind.
  destruct (Hm s Hp) as (evs & Htr & Hall & Hlen).
  destruct (Ht s) as (_ & Htp & _).
  destruct (m s) as [[a|e] s1]; cbn [snd] in *.
  - destruct (Hf a s1) as (evs' & Htr' & Hall' & Hlen'); [congruence|].
    exists (evs ++ evs'). rewrite Htr', Htr, app_assoc.
    split; [done|]. split; [by apply Forall_app|]. rewrite length_app. lia.
  - exists evs. repeat split; [done..|lia].
Qed.

Lemma calls_within_try_except {A} p n k (m : M A) (h : exn → M A) :
  trace_only m → calls_within p n m → (∀ e, calls_within p k (h e)) →
  calls_within p (n + k) (try_except m h).
Proof.
  intros Ht Hm Hh s Hp. unfold try_except.
  destruct (Hm s Hp) as (evs & Htr & Hall & Hlen).
  destruct (Ht s) as (_ & Htp & _).
  destruct (m s) as [[a|e] s1]; cbn [snd] in *.
  - exists evs. repeat split; [done..|lia].
  - destruct (is_Exception e).
    + destruct (Hh e s1) as (evs' & Htr' & Hall' & Hlen'); [congruence|].
      exists (evs ++ evs'). rewrite Htr', Htr, app_assoc.
      split; [done|]. split; [by apply Forall_app|]. rewrite length_app. lia.
    + exists evs. repeat split; [done..|lia].
Qed.

Lemma calls_within_if {A} p n (b : bool) (m1 m2 : M A) :
  calls_within p n m1 → calls_within p n m2 →
  calls_within p n (if b then m1 else m2).
Proof. by destruct b. Qed.

(** Reading [temp_path] gives the file the calls are counted on. *)
Lemma calls_within_read {A} p n (f : string → M A) :
  calls_within p n (f p) → calls_within p n (read_temp_path ≫= f).
Proof.
  intros Hf s Hp. unfold mbind, M_bind, read_temp_path. rewrite Hp.
  by apply Hf.
Qed.

Lemma calls_within_open_rb p : calls_within p 0 (open_rb p).
Proof.
  intros s _. unfold open_rb.
  case_bool_decide; exists []; by rewrite app_nil_r.
Qed.

Lemma calls_within_model_transcribe w p options :
  calls_within p 1 (model_transcribe w p options).
Proof.
  intros s _. unfold model_transcribe.
  exists [LocalWhisper p (options !! "language")].
  split; [by destruct (whisper_transcribe w _ _ _)|].
  split; [|done]. apply Forall_singleton. cbn. by apply bool_decide_eq_true_2.
Qed.

Lemma calls_within_transcriptions_create w p language :
  calls_within p 1 (transcriptions_create w p language).
Proof.
  intros s _. unfold transcriptions_create.
  exists [OpenAIWhisper p language].
  split; [by destruct (openai_create w _ _ _)|].
  split; [|done]. apply Forall_singleton. cbn. by apply bool_decide_eq_true_2.
Qed.

(** [server.py]: each engine block calls its engine at most once. *)
Lemma calls_within_run_local g w engines options results p :
  calls_within p 1 (Server.run_local g w engines options results).
Proof.
  unfold Server.run_local. apply calls_within_if.
  - apply (calls_within_try_except p 1 0).
    + auto 10 with trace_only.
    + apply calls_within_read.
      apply (calls_within_bind p 1 0);
        [apply trace_only_model_transcribe|apply calls_within_model_transcribe|].
      intros a. apply calls_within_ret.
    + intros e. apply calls_within_ret.
  - apply (calls_within_weaken p 0); [lia|apply calls_within_ret].
Qed.

Lemma calls_within_run_openai g w engines options results p :
  calls_within p 1 (Server.run_openai g w engines options results).
Proof.
  unfold Server.run_openai. apply calls_within_if.
  - apply (calls_within_try_except p 1 0).
    + auto 10 with trace_only.
    + apply calls_within_read.
      apply (calls_within_bind p 0 1);
        [apply trace_only_open_rb|apply calls_within_open_rb|].
      intros _.
      apply (calls_within_bind p 1 0);
        [apply trace_only_transcriptions_create
        |apply calls_within_transcriptions_create|].
      intros a. apply calls_within_ret.
    + intros e. apply calls_within_ret.
  - apply calls_within_if;
      (apply (calls_within_weaken p 0); [lia|apply calls_within_ret]).
Qed.

Lemma calls_within_compare_engines g w audio language engines p :
  calls_within p 2 (Server.compare_engines g w audio language engines).
Proof.
  unfold Server.compare_engines.
  apply (calls_within_bind p 1 1);
    [apply trace_only_run_local|apply calls_within_run_local|].
  intros r1.
  apply (calls_within_bind p 1 0);
    [apply trace_only_run_openai|apply calls_within_run_openai|].
  intros r2. apply calls_within_ret.
Qed.

(** [server_dual.py]: an adapter calls its engine at most once, so the two
    attempts call engines at most twice. *)
Lemma calls_within_local_adapter g w p language :
  calls_within p 1 (ServerDual.transcribe_with_local_whisper g w p language).
Proof.
  unfold ServerDual.transcribe_with_local_whisper.
  apply (calls_within_bind p 1 0);
    [apply trace_only_model_transcribe|apply calls_within_model_transcribe|].
  intros a. apply calls_within_ret.
Qed.

Lemma calls_within_openai_adapter w p language :
  calls_within p 1 (ServerDual.transcribe_with_openai w p language).
Proof.
  unfold ServerDual.transcribe_with_openai.
  apply (calls_within_bind p 0 1);
    [apply trace_only_open_rb|apply calls_within_open_rb|].
  intros _.
  apply (calls_within_bind p 1 0);
    [apply trace_only_transcriptions_create
    |apply calls_within_transcriptions_create|].
  intros a. apply calls_within_ret.
Qed.

Lemma calls_within_attempt g w p language (b1 b2 : bool) e :
  calls_within p 1
    (if b1 then ServerDual.transcribe_with_local_whisper g w p language
     else if b2 then ServerDual.transcribe_with_openai w p language
     else raise e).
Proof.
  apply calls_within_if; [apply calls_within_local_adapter|].
  apply calls_within_if; [apply calls_within_openai_adapter|].
  apply (calls_within_weaken p 0); [lia|apply calls_within_raise].
Qed.

Lemma trace_only_attempt g w p language (b1 b2 : bool) e :
  trace_only
    (if b1 then ServerDual.transcribe_with_local_whisper g w p language
     else if b2 then ServerDual.transcribe_with_openai w p language
     else raise e).
Proof.
  auto using trace_only_local_adapter, trace_only_openai_adapter
    with trace_only.
Qed.

Lemma calls_within_try_primary g w sel p language :
  calls_within p 1 (ServerDual.try_primary g w sel p language).
Proof.
  unfold ServerDual.try_primary.
  apply (calls_within_bind p 1 0);
    [apply trace_only_attempt|apply calls_within_attempt|].
  intros a. apply calls_within_ret.
Qed.

Lemma calls_within_try_fallback g w e p language :
  calls_within p 1 (ServerDual.try_fallback g w e p language).
Proof.
  unfold ServerDual.try_fallback.
  apply (calls_within_bind p 1 0);
    [apply trace_only_attempt|apply calls_within_attempt|].
  intros a. apply calls_within_ret.
Qed.

Lemma calls_within_on_primary_error g w e p language :
  calls_within p 1 (ServerDual.on_primary_error g w e p language).
Proof.
  unfold ServerDual.on_primary_error. apply calls_within_if.
  - apply (calls_within_try_except p 1 0);
      [apply trace_only_try_fallback|apply calls_within_try_fallback|].
    intros e2. apply calls_within_raise.
  - apply (calls_within_weaken p 0); [lia|apply calls_within_raise].
Qed.

Lemma calls_within_dispatch g w sel language p :
  calls_within p 2 (ServerDual.dispatch g w sel language).
Proof.
  unfold ServerDual.dispatch. apply calls_within_read.
  apply (calls_within_try_except p 1 1);
    [apply trace_only_try_primary|apply calls_within_try_primary|].
  intros e. apply calls_within_on_primary_error.
Qed.

Lemma calls_within_transcribe_staged g w language p :
  calls_within p 1
    (try_except (ServerOriginal.transcribe_staged g w language)
       ServerOriginal.transcription_failed).
Proof.
  apply (calls_within_try_except p 1 0).
  - apply trace_only_transcribe_staged.
  - unfold ServerOriginal.transcribe_staged. apply calls_within_read.
    apply (calls_within_bind p 1 0);
      [apply trace_only_model_transcribe|apply calls_within_model_transcribe|].
    intros a. apply calls_within_ret.
  - intros e. apply calls_within_raise.
Qed.

(** From the [staged] state: the whole trace of [try: body finally:
    cleanup], and the files it leaves. *)
Lemma staged_run {A} (body : M A) w s n :
  trace_only body → calls_within (tmp_name w) n body →
  ∃ evs,
    trace (try_finally body cleanup (staged w s)).2
    = trace s ++ [Created (tmp_name w); Copied (tmp_name w)] ++ evs
        ++ [Unlinked (tmp_name w)]
    ∧ Forall (λ ev, is_call_on (tmp_name w) ev = true) evs
    ∧ length evs ≤ n
    ∧ files (try_finally body cleanup (staged w s)).2
      = files s ∖ {[tmp_name w]}.
Proof.
  intros Ht Hc.
  destruct (try_finally_cleanup body (staged w s) (tmp_name w) Ht eq_refl)
    as (s' & -> & Hfl & Htr).
  destruct (Hc (staged w s) eq_refl) as (evs & Hevs & Hall & Hlen).
  exists evs. cbn [snd]. rewrite Htr, Hevs, Hfl.
  rewrite (bool_decide_eq_true_2 _ (tmp_in_staged w s)).
  split; [cbn [trace staged]; by rewrite <- !app_assoc|].
  split; [done|]. split; [done|].
  cbn [files staged]. apply set_eq; intros x.
  rewrite !elem_of_difference, elem_of_union, elem_of_singleton. tauto.
Qed.



(** X5.  A request that is staged touches no file but its own temporary
    file, which is gone when the handler is done: the files afterwards are
    the files before, less that path.  This holds whatever the engines do,
    also when they raise faults the handlers do not catch. *)
Theorem only_the_temporary_file_is_touched
    gd gs go w audio language engines engine s :
  is_audio audio = true → tmp_fault w = None → copy_fault w = None →
  Server.whisper_model gs = true →
  ServerDual.selectable gd engine = true →
  ServerOriginal.whisper_model go = true →
  files (Server.transcribe_audio gs w audio language engines s).2
  = files s ∖ {[tmp_name w]}
  ∧ files (ServerDual.transcribe_audio gd w audio language engine s).2
    = files s ∖ {[tmp_name w]}
  ∧ files (ServerOriginal.transcribe_audio go w audio language s).2
    = files s ∖ {[tmp_name w]}.
Proof.
  intros Ha Ht Hc Hm Hs Ho. split; [|split].
  - rewrite server_staged by done.
    destruct (staged_run (Server.compare_engines gs w audio language engines)
                w (entry s) 2 (trace_only_compare_engines _ _ _ _ _)
                (calls_within_compare_engines _ _ _ _ _ _))
      as (evs & _ & _ & _ & Hfl).
    exact Hfl.
  - destruct (select_selectable gd engine (entry s) Hs) as (sel & Hsel).
    rewrite (dual_staged gd w audio language engine s sel) by done.
    destruct (staged_run (ServerDual.dispatch gd w sel language)
                w (entry s) 2 (trace_only_dispatch _ _ _ _)
                (calls_within_dispatch _ _ _ _ _))
      as (evs & _ & _ & _ & Hfl).
    exact Hfl.
  - rewrite original_staged by done.
    edestruct (staged_run
                (try_except (ServerOriginal.transcribe_staged go w language)
                   ServerOriginal.transcription_failed) w (entry s) 1)
      as (evs & _ & _ & _ & Hfl).
    { auto using trace_only_transcribe_staged, trace_only_transcription_failed
        with trace_only. }
    { apply calls_within_transcribe_staged. }
    exact Hfl.
Qed.

Lemma only_the_temporary_file_is_touched_witness :
  is_audio Examples.wav = true
  ∧ tmp_fault Examples.local_cancelled = None
  ∧ copy_fault Examples.local_cancelled = None
  ∧ Server.whisper_model Examples.compare_both = true
  ∧ ServerDual.selectable Examples.dual_both "auto" = true
  ∧ ServerOriginal.whisper_model Examples.original_loaded = true
  ∧ files (Server.transcribe_audio Examples.compare_both
             Examples.local_cancelled Examples.wav "auto" "both"
             (State {["/etc/hosts"]} [] None)).2
    = {["/etc/hosts"]} ∖ {[tmp_name Examples.local_cancelled]}.
Proof.
  do 6 (split; [reflexivity|]).
  destruct (only_the_temporary_file_is_touched Examples.dual_both
              Examples.compare_both Examples.original_loaded
              Examples.local_cancelled Examples.wav "auto" "both" "auto"
              (State {["/etc/hosts"]} [] None)
              eq_refl eq_refl eq_refl eq_refl eq_refl eq_refl)
    as (H1 & _).
  exact H1.
Defined.

(** ** [server_dual.py]: the first attempt *)

Lemma available_cases g sel :
  ServerDual.available g sel = true →
  (sel = "local_whisper" ∧ ServerDual.local_whisper_model g = true)
  ∨ (sel = "openai_whisper" ∧ ServerDual.openai_client g = true
     ∧ bool_decide (sel = "local_whisper") && ServerDual.local_whisper_model g
       = false).
Proof.
  unfold ServerDual.available.
  case_bool_decide as H1; cbn [andb orb].
  - destruct (ServerDual.local_whisper_model g); [by left|].
    subst. rewrite bool_decide_eq_false_2 by discriminate. discriminate.
  - case_bool_decide as H2; cbn [andb]; [|discriminate].
    intros Ho. right. done.
Qed.

(** What an attempt on an available engine does: one call, and either the
    result of the adapter or the fault of the engine. *)
Lemma try_primary_local g w p language s :
  ServerDual.local_whisper_model g = true →
  ServerDual.try_primary g w "local_whisper" p language s
  = let s' := log (LocalWhisper p (normalize language)) s in
    match whisper_transcribe w (trace s) p (prepare_options language) with
    | WResult text lang =>
        (inl (<["engine_used" := "local_whisper"]>
                (dict [("text", strip text);
                       ("language_detected", default "unknown" lang);
                       ("confidence", "N/A");
                       ("engine", "local_whisper");
                       ("model_size", ServerDual.MODEL_SIZE g)])), s')
    | WRaise e => (inr e, s')
    end.
Proof.
  intros Hl. unfold ServerDual.try_primary. rewrite Hl.
  rewrite (bool_decide_eq_true_2 ("local_whisper" = "local_whisper") eq_refl).
  cbn [andb].
  unfold ServerDual.transcribe_with_local_whisper, mbind, M_bind,
    model_transcribe, normalize.
  by destruct (whisper_transcribe w _ _ _).
Qed.

Lemma try_primary_openai g w p language s :
  ServerDual.openai_client g = true → p ∈ files s →
  ServerDual.try_primary g w "openai_whisper" p language s
  = let s' := log (OpenAIWhisper p (ServerDual.openai_language language)) s in
    match openai_create w (trace s) p (ServerDual.openai_language language) with
    | OTranscript text =>
        (inl (<["engine_used" := "openai_whisper"]>
                (dict [("text", strip text);
                       ("language_detected",
                        if bool_decide (language = "auto") then "auto-detected"
                        else language);
                       ("confidence", "N/A");
                       ("engine", "openai_whisper");
                       ("model", "whisper-1")])), s')
    | ORaise e => (inr e, s')
    end.
Proof.
  intros Ho Hp. unfold ServerDual.try_primary. rewrite Ho.
  rewrite (bool_decide_eq_false_2 ("openai_whisper" = "local_whisper"))
    by discriminate.
  rewrite (bool_decide_eq_true_2 ("openai_whisper" = "openai_whisper") eq_refl).
  cbn [andb].
  unfold ServerDual.transcribe_with_openai, mbind, M_bind, open_rb,
    transcriptions_create.
  rewrite (bool_decide_eq_true_2 _ Hp).
  by destruct (openai_create w _ _ _).
Qed.

Lemma try_fallback_openai g w e1 p language s :
  ServerDual.FALLBACK_ENGINE g = "openai_whisper" →
  ServerDual.openai_client g = true → p ∈ files s →
  ServerDual.try_fallback g w e1 p language s
  = let s' := log (OpenAIWhisper p (ServerDual.openai_language language)) s in
    match openai_create w (trace s) p (ServerDual.openai_language language) with
    | OTranscript text =>
        (inl (<["primary_engine_error" := str e1]>
                (<["engine_used" := "openai_whisper (fallback)"]>
                   (dict [("text", strip text);
                          ("language_detected",
                           if bool_decide (language = "auto")
                           then "auto-detected" else language);
                          ("confidence", "N/A");
                          ("engine", "openai_whisper");
                          ("model", "whisper-1")]))), s')
    | ORaise e => (inr e, s')
    end.
Proof.
  intros Hf Ho Hp. unfold ServerDual.try_fallback. rewrite Hf, Ho.
  rewrite (bool_decide_eq_false_2 ("openai_whisper" = "local_whisper"))
    by discriminate.
  rewrite (bool_decide_eq_true_2 ("openai_whisper" = "openai_whisper") eq_refl).
  cbn [andb].
  unfold ServerDual.transcribe_with_openai, mbind, M_bind, open_rb,
    transcriptions_create.
  rewrite (bool_decide_eq_true_2 _ Hp).
  by destruct (openai_create w _ _ _).
Qed.

(** An attempt on an available engine makes exactly the call of that
    engine. *)
Lemma try_primary_trace g w sel p language s :
  ServerDual.available g sel = true → p ∈ files s →
  trace (ServerDual.try_primary g w sel p language s).2
  = trace s ++ [engine_call sel p language].
Proof.
  intros [[-> Hl]|(-> & Ho & _)]%available_cases Hp.
  - rewrite try_primary_local by done. cbv zeta.
    by destruct (whisper_transcribe w _ _ _).
  - rewrite try_primary_openai by done. cbv zeta.
    by destruct (openai_create w _ _ _).
Qed.

(** An attempt that returns was made on an available engine; its result
    names that engine and carries no error of an earlier attempt. *)
Lemma try_primary_returns g w sel p language s d s1 :
  ServerDual.try_primary g w sel p language s = (inl d, s1) →
  ServerDual.available g sel = true
  ∧ d !! "engine_used" = Some sel
  ∧ d !! "primary_engine_error" = None.
Proof.
  destruct (ServerDual.available g sel) eqn:Ha.
  - intros Hr. split; [done|].
    revert Hr. unfold ServerDual.try_primary, mbind, M_bind.
    match goal with |- context [match ?m s with _ => _ end] =>
      destruct (m s) as [[result|e'] s'] eqn:Hm end; [|discriminate].
    intros [= <- <-]. split; [apply lookup_insert_eq|].
    rewrite lookup_insert_ne by discriminate.
    revert Hm.
    unfold ServerDual.transcribe_with_local_whisper,
      ServerDual.transcribe_with_openai, mbind, M_bind, model_transcribe,
      open_rb, transcriptions_create, raise.
    repeat match goal with
           | |- context [if ?b then _ else _] => destruct b
           | |- context [match whisper_transcribe ?a ?b ?c ?d with _ => _ end] =>
               destruct (whisper_transcribe a b c d)
           | |- context [match openai_create ?a ?b ?c ?d with _ => _ end] =>
               destruct (openai_create a b c d)
           end; intros [= <- <-]; reflexivity.
  - rewrite try_primary_unavailable by done. discriminate.
Qed.

(** X6.  In [server_dual.py], when the first attempt returns, it alone
    serves the request: the answer is 200 with its result, [engine_used]
    names the selected engine, there is no [primary_engine_error], and the
    only engine call of the request is the call of that engine; the
    fallback engine is not called. *)
Theorem first_attempt_serves_alone g w audio language engine s sel d s1 :
  is_audio audio = true → tmp_fault w = None → copy_fault w = None →
  ServerDual.select_engine g engine (entry s) = (inl sel, entry s) →
  ServerDual.try_primary g w sel (tmp_name w) language (staged w (entry s))
  = (inl d, s1) →
  (ServerDual.transcribe_audio g w audio language engine s).1 = inl d
  ∧ d !! "engine_used" = Some sel
  ∧ d !! "primary_engine_error" = None
  ∧ trace (ServerDual.transcribe_audio g w audio language engine s).2
    = trace s ++ [Created (tmp_name w); Copied (tmp_name w);
                  engine_call sel (tmp_name w) language;
                  Unlinked (tmp_name w)].
Proof.
  intros Ha Ht Hc Hsel Hp.
  destruct (try_primary_returns _ _ _ _ _ _ _ _ Hp) as (Hav & Hu & He).
  rewrite (dual_staged g w audio language engine s sel) by done.
  destruct (staged_then_cleanup (ServerDual.dispatch g w sel language)
              w (entry s) (trace_only_dispatch _ _ _ _))
    as (s' & -> & _ & Htr).
  cbn [fst snd]. rewrite Htr.
  assert (ServerDual.dispatch g w sel language (staged w (entry s)) = (inl d, s1))
    as ->.
  { unfold ServerDual.dispatch.
    erewrite bind_inl; [|reflexivity]. by erewrite try_except_inl. }
  split; [reflexivity|]. split; [exact Hu|]. split; [exact He|].
  cbn [snd].
  pose proof (try_primary_trace g w sel (tmp_name w) language
                (staged w (entry s)) Hav (tmp_in_staged w (entry s))) as Ht1.
  rewrite Hp in Ht1. cbn [snd] in Ht1. rewrite Ht1.
  cbn [trace staged entry]. by rewrite <- !app_assoc.
Qed.

(** The theorem under the default configuration, when the local model
    answers. *)
Lemma first_attempt_serves_alone_witness :
  is_audio Examples.wav = true
  ∧ tmp_fault Examples.engines_ok = None
  ∧ copy_fault Examples.engines_ok = None
  ∧ ServerDual.select_engine Examples.dual_both "auto" (entry Examples.s0)
    = (inl "local_whisper", entry Examples.s0)
  ∧ (ServerDual.transcribe_audio Examples.dual_both Examples.engines_ok
       Examples.wav "hi-IN" "auto" Examples.s0).1
    = inl (dict [("text", "hello");
                 ("language_detected", "en");
                 ("confidence", "N/A");
                 ("engine", "local_whisper");
                 ("model_size", "base");
                 ("engine_used", "local_whisper")])
  ∧ trace (ServerDual.transcribe_audio Examples.dual_both Examples.engines_ok
             Examples.wav "hi-IN" "auto" Examples.s0).2
    = trace Examples.s0
        ++ [Created (tmp_name Examples.engines_ok);
            Copied (tmp_name Examples.engines_ok);
            engine_call "local_whisper" (tmp_name Examples.engines_ok) "hi-IN";
            Unlinked (tmp_name Examples.engines_ok)].
Proof.
  do 4 (split; [reflexivity|]).
  destruct (first_attempt_serves_alone Examples.dual_both Examples.engines_ok
              Examples.wav "hi-IN" "auto" Examples.s0 "local_whisper"
              (dict [("text", "hello");
                     ("language_detected", "en");
                     ("confidence", "N/A");
                     ("engine", "local_whisper");
                     ("model_size", "base");
                     ("engine_used", "local_whisper")])
              (log (LocalWhisper Examples.tmp (Some "hi"))
                 (staged Examples.engines_ok (entry Examples.s0))))
    as (H1 & _ & _ & H4); [reflexivity..|].
  split; [exact H1|exact H4].
Defined.

Lemma select_auto_primary g s :
  ServerDual.available g (ServerDual.PRIMARY_ENGINE g) = true →
  ServerDual.select_engine g "auto" s = (inl (ServerDual.PRIMARY_ENGINE g), s).
Proof.
  intros Hav. destruct (available_cases _ _ Hav) as [[Hp Hl]|(Hp & Ho & Hn)];
    destruct g as [l o size primary fallback dual];
    cbn [ServerDual.PRIMARY_ENGINE ServerDual.local_whisper_model
         ServerDual.openai_client] in *; subst;
    unfold ServerDual.select_engine;
    cbn [ServerDual.PRIMARY_ENGINE ServerDual.local_whisper_model
         ServerDual.openai_client]; reflexivity.
Qed.

(** X7.  For [auto], whenever the engine named by [PRIMARY_ENGINE] is
    available, it is the engine called first, right after the copy;
    whatever else the request does comes after that call (at most one
    more engine call, then the unlink). *)
Theorem auto_calls_primary_engine_first g w audio language s :
  is_audio audio = true → tmp_fault w = None → copy_fault w = None →
  ServerDual.available g (ServerDual.PRIMARY_ENGINE g) = true →
  ∃ evs,
    trace (ServerDual.transcribe_audio g w audio language "auto" s).2
    = trace s
        ++ [Created (tmp_name w); Copied (tmp_name w);
            engine_call (ServerDual.PRIMARY_ENGINE g) (tmp_name w) language]
        ++ evs ++ [Unlinked (tmp_name w)]
    ∧ length evs ≤ 1.
Proof.
  intros Ha Ht Hc Hav.
  rewrite (dual_staged g w audio language "auto" s (ServerDual.PRIMARY_ENGINE g))
    by (done || by apply select_auto_primary).
  destruct (staged_then_cleanup
              (ServerDual.dispatch g w (ServerDual.PRIMARY_ENGINE g) language)
              w (entry s) (trace_only_dispatch _ _ _ _))
    as (s' & -> & _ & Htr).
  cbn [snd]. rewrite Htr.
  unfold ServerDual.dispatch.
  erewrite bind_inl; [|reflexivity].
  unfold try_except.
  pose proof (try_primary_trace g w _ (tmp_name w) language
                (staged w (entry s)) Hav (tmp_in_staged w (entry s))) as Ht1.
  destruct (trace_only_try_primary g w (ServerDual.PRIMARY_ENGINE g)
              (tmp_name w) language (staged w (entry s))) as (_ & Htp & _).
  destruct (ServerDual.try_primary g w _ _ _ _) as [[d|e] s1]; cbn [snd] in *.
  - exists []. rewrite Ht1. cbn [trace staged entry length].
    split; [by rewrite <- !app_assoc|lia].
  - destruct (is_Exception e).
    + destruct (calls_within_on_primary_error g w e (tmp_name w) language s1)
        as (evs & Hevs & _ & Hlen).
      { exact Htp. }
      exists evs. rewrite Hevs, Ht1. cbn [trace staged entry].
      split; [by rewrite <- !app_assoc|done].
    + exists []. cbn [snd]. rewrite Ht1. cbn [trace staged entry length].
      split; [by rewrite <- !app_assoc|lia].
Qed.

(** The theorem under the default configuration, when both engines
    raise. *)
Lemma auto_calls_primary_engine_first_witness :
  is_audio Examples.wav = true
  ∧ tmp_fault Examples.both_fail = None
  ∧ copy_fault Examples.both_fail = None
  ∧ ServerDual.available Examples.dual_both
      (ServerDual.PRIMARY_ENGINE Examples.dual_both) = true
  ∧ ∃ evs,
      trace (ServerDual.transcribe_audio Examples.dual_both Examples.both_fail
               Examples.wav "gu-IN" "auto" Examples.s0).2
      = trace Examples.s0
          ++ [Created (tmp_name Examples.both_fail);
              Copied (tmp_name Examples.both_fail);
              engine_call (ServerDual.PRIMARY_ENGINE Examples.dual_both)
                (tmp_name Examples.both_fail) "gu-IN"]
          ++ evs ++ [Unlinked (tmp_name Examples.both_fail)]
      ∧ length evs ≤ 1.
Proof.
  do 4 (split; [reflexivity|]).
  apply (auto_calls_primary_engine_first Examples.dual_both Examples.both_fail
           Examples.wav "gu-IN" Examples.s0); reflexivity.
Defined.

(** ** [server_dual.py]: the fallback can be the engine that just failed *)

(** X8.  The fallback is chosen by [FALLBACK_ENGINE] alone, not by which
    engine was tried first.  When the remote engine is the one selected and
    is also the fallback, an [Exception] of its first call makes the
    handler call it a second time with the same arguments; the answer is
    what that second call gives: 200 marked as the fallback, or 500 with
    both messages. *)
Theorem fallback_retries_the_same_engine g w audio language engine s e1 :
  is_audio audio = true → tmp_fault w = None → copy_fault w = None →
  ServerDual.select_engine g engine (entry s) = (inl "openai_whisper", entry s) →
  ServerDual.openai_client g = true →
  ServerDual.ENABLE_DUAL_ENGINE g = true →
  ServerDual.FALLBACK_ENGINE g = "openai_whisper" →
  openai_create w (trace s ++ [Created (tmp_name w); Copied (tmp_name w)])
    (tmp_name w) (ServerDual.openai_language language) = ORaise e1 →
  is_Exception e1 = true →
  trace (ServerDual.transcribe_audio g w audio language engine s).2
  = trace s ++ [Created (tmp_name w); Copied (tmp_name w);
                OpenAIWhisper (tmp_name w) (ServerDual.openai_language language);
                OpenAIWhisper (tmp_name w) (ServerDual.openai_language language);
                Unlinked (tmp_name w)]
  ∧ (ServerDual.transcribe_audio g w audio language engine s).1
    = match openai_create w
              (trace s ++ [Created (tmp_name w); Copied (tmp_name w)]
                 ++ [OpenAIWhisper (tmp_name w)
                       (ServerDual.openai_language language)])
              (tmp_name w) (ServerDual.openai_language language) with
      | OTranscript text =>
          inl (<["primary_engine_error" := str e1]>
                 (<["engine_used" := "openai_whisper (fallback)"]>
                    (dict [("text", strip text);
                           ("language_detected",
                            if bool_decide (language = "auto")
                            then "auto-detected" else language);
                           ("confidence", "N/A");
                           ("engine", "openai_whisper");
                           ("model", "whisper-1")])))
      | ORaise e2 =>
          if is_Exception e2
          then inr (HTTPException 500
                      ("Both engines failed. Primary: " +:+ str e1
                         +:+ ", Fallback: " +:+ str e2))
          else inr e2
      end.
Proof.
  intros Ha Ht Hc Hsel Ho Hen Hf Hr1 He1.
  rewrite (dual_staged g w audio language engine s "openai_whisper") by done.
  destruct (staged_then_cleanup (ServerDual.dispatch g w "openai_whisper" language)
              w (entry s) (trace_only_dispatch _ _ _ _))
    as (s' & -> & _ & Htr).
  cbn [fst snd]. rewrite Htr.
  set (s1 := log (OpenAIWhisper (tmp_name w) (ServerDual.openai_language language))
               (staged w (entry s))).
  assert (ServerDual.try_primary g w "openai_whisper" (tmp_name w) language
            (staged w (entry s)) = (inr e1, s1)) as Hp.
  { rewrite try_primary_openai by (done || apply tmp_in_staged).
    cbv zeta. cbn [trace staged entry]. by rewrite Hr1. }
  rewrite (dispatch_primary_fails g w _ language _ (tmp_name w) e1 s1)
    by done.
  unfold ServerDual.on_primary_error. rewrite Hen, Hf.
  change (truthy "openai_whisper") with true. cbn [andb]. unfold try_except.
  rewrite try_fallback_openai by (done || apply tmp_in_staged).
  cbv zeta.
  assert (trace s1
          = trace s ++ [Created (tmp_name w); Copied (tmp_name w)]
              ++ [OpenAIWhisper (tmp_name w)
                    (ServerDual.openai_language language)]) as Hts1.
  { subst s1. cbn [trace log staged entry]. by rewrite <- app_assoc. }
  rewrite Hts1.
  assert (∀ s2 : state,
             trace s2 = trace s1
                          ++ [OpenAIWhisper (tmp_name w)
                                (ServerDual.openai_language language)] →
             trace s2 ++ [Unlinked (tmp_name w)]
             = trace s ++ [Created (tmp_name w); Copied (tmp_name w);
                  OpenAIWhisper (tmp_name w) (ServerDual.openai_language language);
                  OpenAIWhisper (tmp_name w) (ServerDual.openai_language language);
                  Unlinked (tmp_name w)]) as Hend.
  { intros s2 ->. rewrite Hts1. by rewrite <- !app_assoc. }
  clear Hr1 Hp.
  destruct (openai_create w _ _ _) as [text|e2].
  - split; [apply Hend; reflexivity|reflexivity].
  - destruct (is_Exception e2); (split; [apply Hend; reflexivity|reflexivity]).
Qed.

(** The theorem when only the remote engine is available and its first call
    fails: the second call serves the request. *)
Lemma fallback_retries_the_same_engine_witness :
  is_audio Examples.wav = true
  ∧ tmp_fault Examples.openai_flaky = None
  ∧ copy_fault Examples.openai_flaky = None
  ∧ ServerDual.select_engine Examples.dual_openai_only "auto" (entry Examples.s0)
    = (inl "openai_whisper", entry Examples.s0)
  ∧ ServerDual.openai_client Examples.dual_openai_only = true
  ∧ ServerDual.ENABLE_DUAL_ENGINE Examples.dual_openai_only = true
  ∧ ServerDual.FALLBACK_ENGINE Examples.dual_openai_only = "openai_whisper"
  ∧ is_Exception (Exception "Connection error.") = true
  ∧ trace (ServerDual.transcribe_audio Examples.dual_openai_only
             Examples.openai_flaky Examples.wav "auto" "auto" Examples.s0).2
    = [Created Examples.tmp; Copied Examples.tmp;
       OpenAIWhisper Examples.tmp None; OpenAIWhisper Examples.tmp None;
       Unlinked Examples.tmp]
  ∧ (ServerDual.transcribe_audio Examples.dual_openai_only
       Examples.openai_flaky Examples.wav "auto" "auto" Examples.s0).1
    = inl (dict [("text", "second try");
                 ("language_detected", "auto-detected");
                 ("confidence", "N/A");
                 ("engine", "openai_whisper");
                 ("model", "whisper-1");
                 ("engine_used", "openai_whisper (fallback)");
                 ("primary_engine_error", "Connection error.")]).
Proof.
  do 8 (split; [reflexivity|]).
  destruct (fallback_retries_the_same_engine Examples.dual_openai_only
              Examples.openai_flaky Examples.wav "auto" "auto" Examples.s0
              (Exception "Connection error."))
    as (H1 & H2); [reflexivity..|].
  split; [exact H1|exact H2].
Defined.

(** ** A fault of an engine that is not an [Exception] *)

(** X9.  A fault of the local model that is not an [Exception] (a
    cancellation) is caught nowhere: it leaves the handler as it is, no
    further engine is called ([server.py] skips the remote engine,
    [server_dual.py] tries no fallback, [server_original.py] does not make
    it a 500), and the temporary file is unlinked all the same.  In
    [server_dual.py] this holds for every request that selects the local
    engine, by name or through [auto]. *)
Theorem uncaught_fault_still_cleans_up
    gd gs go w audio language engines engine s e :
  is_audio audio = true → tmp_fault w = None → copy_fault w = None →
  Server.whisper_model gs = true → engines ∈ ["both"; "local"] →
  ServerDual.local_whisper_model gd = true →
  ServerDual.select_engine gd engine (entry s) = (inl "local_whisper", entry s) →
  ServerOriginal.whisper_model go = true →
  whisper_transcribe w (trace s ++ [Created (tmp_name w); Copied (tmp_name w)])
    (tmp_name w) (prepare_options language) = WRaise e →
  is_Exception e = false →
  (Server.transcribe_audio gs w audio language engines s).1 = inr e
  ∧ (ServerDual.transcribe_audio gd w audio language engine s).1 = inr e
  ∧ (ServerOriginal.transcribe_audio go w audio language s).1 = inr e
  ∧ trace (Server.transcribe_audio gs w audio language engines s).2
    = trace s ++ [Created (tmp_name w); Copied (tmp_name w);
                  LocalWhisper (tmp_name w) (normalize language);
                  Unlinked (tmp_name w)]
  ∧ trace (ServerDual.transcribe_audio gd w audio language engine s).2
    = trace s ++ [Created (tmp_name w); Copied (tmp_name w);
                  LocalWhisper (tmp_name w) (normalize language);
                  Unlinked (tmp_name w)]
  ∧ trace (ServerOriginal.transcribe_audio go w audio language s).2
    = trace s ++ [Created (tmp_name w); Copied (tmp_name w);
                  LocalWhisper (tmp_name w) (normalize language);
                  Unlinked (tmp_name w)].
Proof.
  intros Ha Ht Hc Hm Hin Hl Hsel Ho Hr He.
  set (s1 := log (LocalWhisper (tmp_name w) (normalize language))
               (staged w (entry s))).
  assert (trace s1 ++ [Unlinked (tmp_name w)]
          = trace s ++ [Created (tmp_name w); Copied (tmp_name w);
                        LocalWhisper (tmp_name w) (normalize language);
                        Unlinked (tmp_name w)]) as Hend.
  { subst s1. cbn [trace log staged entry]. by rewrite <- !app_assoc. }
  assert (Server.compare_engines gs w audio language engines (staged w (entry s))
          = (inr e, s1)) as Hs.
  { unfold Server.compare_engines.
    erewrite bind_inr; [reflexivity|].
    rewrite (run_local_runs gs w engines _ ∅ _ (tmp_name w)) by done.
    cbv zeta. cbn [trace staged entry]. by rewrite Hr, He. }
  assert (ServerDual.dispatch gd w "local_whisper" language (staged w (entry s))
          = (inr e, s1)) as Hd.
  { unfold ServerDual.dispatch.
    erewrite bind_inl; [|reflexivity].
    erewrite try_except_passed; [reflexivity| |exact He].
    rewrite try_primary_local by done.
    cbv zeta. cbn [trace staged entry]. by rewrite Hr. }
  assert (try_except (ServerOriginal.transcribe_staged go w language)
            ServerOriginal.transcription_failed (staged w (entry s))
          = (inr e, s1)) as Hg.
  { erewrite try_except_passed; [reflexivity| |exact He].
    unfold ServerOriginal.transcribe_staged, mbind, M_bind, read_temp_path,
      model_transcribe.
    cbn [temp_path trace staged entry]. by rewrite Hr. }
  rewrite server_staged by done.
  rewrite (dual_staged gd w audio language engine s "local_whisper") by done.
  rewrite original_staged by done.
  destruct (staged_then_cleanup (Server.compare_engines gs w audio language engines)
              w (entry s) (trace_only_compare_engines _ _ _ _ _))
    as (s2 & -> & _ & Htr2).
  destruct (staged_then_cleanup (ServerDual.dispatch gd w "local_whisper" language)
              w (entry s) (trace_only_dispatch _ _ _ _))
    as (s3 & -> & _ & Htr3).
  edestruct (staged_then_cleanup
              (try_except (ServerOriginal.transcribe_staged go w language)
                 ServerOriginal.transcription_failed) w (entry s))
    as (s4 & -> & _ & Htr4).
  { auto using trace_only_transcribe_staged, trace_only_transcription_failed
      with trace_only. }
  cbn [fst snd]. rewrite Htr2, Htr3, Htr4, Hs, Hd, Hg. cbn [fst snd].
  by rewrite Hend.
Qed.

Lemma both_in_both_local : "both" ∈ ["both"; "local"].
Proof. apply list_elem_of_here. Defined.

(** The theorem when the local model is cancelled, at a request for
    [auto] with the local engine as primary. *)
Lemma uncaught_fault_still_cleans_up_witness :
  is_audio Examples.wav = true
  ∧ tmp_fault Examples.local_cancelled = None
  ∧ copy_fault Examples.local_cancelled = None
  ∧ Server.whisper_model Examples.compare_both = true
  ∧ "both" ∈ ["both"; "local"]
  ∧ ServerDual.local_whisper_model Examples.dual_both = true
  ∧ ServerDual.select_engine Examples.dual_both "auto" (entry Examples.s0)
    = (inl "local_whisper", entry Examples.s0)
  ∧ ServerOriginal.whisper_model Examples.original_loaded = true
  ∧ is_Exception (BaseException "CancelledError") = false
  ∧ (Server.transcribe_audio Examples.compare_both Examples.local_cancelled
       Examples.wav "auto" "both" Examples.s0).1
    = inr (BaseException "CancelledError")
  ∧ trace (ServerDual.transcribe_audio Examples.dual_both Examples.local_cancelled
             Examples.wav "auto" "auto" Examples.s0).2
    = trace Examples.s0
        ++ [Created (tmp_name Examples.local_cancelled);
            Copied (tmp_name Examples.local_cancelled);
            LocalWhisper (tmp_name Examples.local_cancelled) (normalize "auto");
            Unlinked (tmp_name Examples.local_cancelled)].
Proof.
  do 4 (split; [reflexivity|]). split; [exact both_in_both_local|].
  do 4 (split; [reflexivity|]).
  destruct (uncaught_fault_still_cleans_up Examples.dual_both
              Examples.compare_both Examples.original_loaded
              Examples.local_cancelled Examples.wav "auto" "both" "auto"
              Examples.s0 (BaseException "CancelledError")
              eq_refl eq_refl eq_refl eq_refl both_in_both_local
              eq_refl eq_refl eq_refl eq_refl eq_refl)
    as (H1 & _ & _ & _ & H5 & _).
  split; [exact H1|exact H5].
Defined.

(** ** [server.py]: more on what a request answers *)

(** X10.  With both engines configured, a request for both calls the local
    model and then the remote API, once each and in that order, with the
    same normalised language, whether or not the local model fails: a
    failure of one engine does not keep the other from being called. *)
Theorem both_engines_called_in_turn g w audio language s :
  is_audio audio = true → tmp_fault w = None → copy_fault w = None →
  Server.whisper_model g = true → Server.openai_client g = true →
  engines_raise_Exceptions w →
  trace (Server.transcribe_audio g w audio language "both" s).2
  = trace s ++ [Created (tmp_name w); Copied (tmp_name w);
                LocalWhisper (tmp_name w) (normalize language);
                OpenAIWhisper (tmp_name w) (normalize language);
                Unlinked (tmp_name w)].
Proof.
  intros Ha Ht Hc Hm Hoc [Hw Ho].
  rewrite server_staged by done.
  destruct (staged_then_cleanup (Server.compare_engines g w audio language "both")
              w (entry s) (trace_only_compare_engines _ _ _ _ _))
    as (s' & -> & _ & Htr).
  cbn [snd]. rewrite Htr. unfold Server.compare_engines.
  set (s1 := log (LocalWhisper (tmp_name w) (normalize language))
               (staged w (entry s))).
  assert (∃ r1, Server.run_local g w "both" (prepare_options language) ∅
                  (staged w (entry s)) = (inl r1, s1)) as [r1 H1].
  { rewrite (run_local_runs g w "both" _ ∅ _ (tmp_name w));
      [|exact Hm|apply list_elem_of_here|reflexivity].
    cbv zeta. destruct (whisper_transcribe w _ _ _) as [text lang|e] eqn:Hr.
    - eexists. reflexivity.
    - rewrite (Hw _ _ _ _ Hr). eexists. reflexivity. }
  erewrite bind_inl by exact H1.
  set (s2 := log (OpenAIWhisper (tmp_name w) (normalize language)) s1).
  assert (∃ r2, Server.run_openai g w "both" (prepare_options language) r1 s1
                = (inl r2, s2)) as [r2 H2].
  { rewrite (run_openai_runs g w "both" _ r1 _ (tmp_name w));
      [|exact Hoc|apply list_elem_of_here|reflexivity|apply tmp_in_staged].
    cbv zeta. rewrite server_openai_language.
    destruct (openai_create w _ _ _) as [text|e] eqn:Hr.
    - eexists. reflexivity.
    - rewrite (Ho _ _ _ _ Hr). eexists. reflexivity. }
  erewrite bind_inl by exact H2.
  subst s2 s1. cbn [snd mret M_ret trace log staged entry].
  by rewrite <- !app_assoc.
Qed.

(** The theorem when both engines raise. *)
Lemma both_engines_called_in_turn_witness :
  is_audio Examples.wav = true
  ∧ tmp_fault Examples.both_fail = None
  ∧ copy_fault Examples.both_fail = None
  ∧ Server.whisper_model Examples.compare_both = true
  ∧ Server.openai_client Examples.compare_both = true
  ∧ engines_raise_Exceptions Examples.both_fail
  ∧ trace (Server.transcribe_audio Examples.compare_both Examples.both_fail
             Examples.wav "hi-IN" "both" Examples.s0).2
    = trace Examples.s0
        ++ [Created (tmp_name Examples.both_fail);
            Copied (tmp_name Examples.both_fail);
            LocalWhisper (tmp_name Examples.both_fail) (normalize "hi-IN");
            OpenAIWhisper (tmp_name Examples.both_fail) (normalize "hi-IN");
            Unlinked (tmp_name Examples.both_fail)].
Proof.
  do 5 (split; [reflexivity|]). split; [exact both_fail_raise_Exceptions|].
  apply (both_engines_called_in_turn Examples.compare_both Examples.both_fail
           Examples.wav "hi-IN" Examples.s0);
    first [reflexivity | exact both_fail_raise_Exceptions].
Defined.

(** X11.  A request to [server.py] for the remote engine alone, when no
    OpenAI client is configured, is not an error: it is answered 200 with
    an entry tagged [not_configured], and no engine is called (the local
    model is not used in its place). *)
Theorem openai_request_without_client g w audio language s :
  is_audio audio = true → tmp_fault w = None → copy_fault w = None →
  Server.whisper_model g = true → Server.openai_client g = false →
  (Server.transcribe_audio g w audio language "openai" s).1
  = inl (Server.Single
           (dict [("text", "OpenAI not configured - add API key to python/.env");
                  ("status", "not_configured");
                  ("engine", "openai_whisper")]))
  ∧ trace (Server.transcribe_audio g w audio language "openai" s).2
    = trace s ++ [Created (tmp_name w); Copied (tmp_name w);
                  Unlinked (tmp_name w)].
Proof.
  intros Ha Ht Hc Hm Hoc.
  rewrite server_staged by done.
  destruct (staged_then_cleanup (Server.compare_engines g w audio language "openai")
              w (entry s) (trace_only_compare_engines _ _ _ _ _))
    as (s' & -> & _ & Htr).
  cbn [fst snd]. rewrite Htr. unfold Server.compare_engines.
  erewrite bind_inl; last by apply run_local_skips, not_in_both_local.
  erewrite bind_inl; last first.
  { apply run_openai_not_configured;
      [exact Hoc|apply list_elem_of_further, list_elem_of_here]. }
  split; [reflexivity|].
  cbn [snd mret M_ret trace staged entry]. by rewrite <- app_assoc.
Qed.

Lemma openai_request_without_client_witness :
  is_audio Examples.wav = true
  ∧ tmp_fault Examples.engines_ok = None
  ∧ copy_fault Examples.engines_ok = None
  ∧ Server.whisper_model Examples.compare_local_only = true
  ∧ Server.openai_client Examples.compare_local_only = false
  ∧ (Server.transcribe_audio Examples.compare_local_only Examples.engines_ok
       Examples.wav "auto" "openai" Examples.s0).1
    = inl (Server.Single
             (dict [("text", "OpenAI not configured - add API key to python/.env");
                    ("status", "not_configured");
                    ("engine", "openai_whisper")]))
  ∧ trace (Server.transcribe_audio Examples.compare_local_only
             Examples.engines_ok Examples.wav "auto" "openai" Examples.s0).2
    = trace Examples.s0
        ++ [Created (tmp_name Examples.engines_ok);
            Copied (tmp_name Examples.engines_ok);
            Unlinked (tmp_name Examples.engines_ok)].
Proof.
  do 5 (split; [reflexivity|]).
  apply (openai_request_without_client Examples.compare_local_only
           Examples.engines_ok Examples.wav "auto" Examples.s0); reflexivity.
Defined.

(** The entry each engine block of [server.py] leaves names its engine. *)
Lemma run_local_entry g w engines options results s :
  Server.whisper_model g = true → engines ∈ ["both"; "local"] →
  engines_raise_Exceptions w → is_Some (temp_path s) →
  ∃ d s', Server.run_local g w engines options results s
          = (inl (<["local_whisper" := d]> results), s')
          ∧ d !! "engine" = Some "local_whisper"
          ∧ temp_path s' = temp_path s ∧ files s' = files s.
Proof.
  intros Hm Hin [Hw _] [p Hp].
  rewrite (run_local_runs g w engines options results s p) by done.
  cbv zeta. destruct (whisper_transcribe w _ _ _) as [text lang|e] eqn:Hr.
  - do 2 eexists. split; [reflexivity|]. repeat split; reflexivity.
  - rewrite (Hw _ _ _ _ Hr). do 2 eexists. split; [reflexivity|].
    repeat split; reflexivity.
Qed.

Lemma run_openai_entry g w engines options results s :
  engines ∈ ["both"; "openai"] →
  engines_raise_Exceptions w → is_Some (temp_path s) →
  ∃ d s', Server.run_openai g w engines options results s
          = (inl (<["openai_whisper" := d]> results), s')
          ∧ d !! "engine" = Some "openai_whisper".
Proof.
  intros Hin [_ Ho] [p Hp]. unfold Server.run_openai.
  rewrite (bool_decide_eq_true_2 _ Hin). cbn [andb].
  destruct (Server.openai_client g); cbn [negb].
  - unfold try_except, mbind, M_bind, read_temp_path, open_rb,
      transcriptions_create.
    rewrite Hp. case_bool_decide.
    + destruct (openai_create w _ _ _) as [text|e] eqn:Hr.
      * do 2 eexists. split; reflexivity.
      * rewrite (Ho _ _ _ _ Hr). do 2 eexists. split; reflexivity.
    + cbn [is_Exception]. do 2 eexists. split; reflexivity.
  - do 2 eexists. split; reflexivity.
Qed.

(** X12.  The shape of the answer of [server.py] follows [engines] alone:
    for [local] and for [openai] it is the single entry of that engine
    (which names it), for anything else the dual shape with
    [dual_mode = True] and the name of the upload.  This holds whatever the
    engines answer, as long as they raise nothing but [Exception]s. *)
Theorem answer_shape_follows_engines g w audio language engines s :
  is_audio audio = true → tmp_fault w = None → copy_fault w = None →
  Server.whisper_model g = true → engines_raise_Exceptions w →
  (engines = "local" ∨ engines = "openai" →
   ∃ d, (Server.transcribe_audio g w audio language engines s).1
        = inl (Server.Single d)
        ∧ d !! "engine" = Some (engines +:+ "_whisper"))
  ∧ (engines ≠ "local" → engines ≠ "openai" →
     ∃ results, (Server.transcribe_audio g w audio language engines s).1
                = inl (Server.Dual results true (filename audio))).
Proof.
  intros Ha Ht Hc Hm Hw.
  rewrite server_staged by done.
  destruct (staged_then_cleanup (Server.compare_engines g w audio language engines)
              w (entry s) (trace_only_compare_engines _ _ _ _ _))
    as (s' & -> & _).
  cbn [fst]. unfold Server.compare_engines. split.
  - intros [->| ->].
    + destruct (run_local_entry g w "local" (prepare_options language) ∅
                  (staged w (entry s)) Hm)
        as (d & s1 & H1 & Hd & _);
        [apply list_elem_of_further, list_elem_of_here|exact Hw|by eexists|].
      erewrite bind_inl by exact H1.
      erewrite bind_inl; last by apply run_openai_skips, not_in_both_openai.
      exists d. split; [reflexivity|exact Hd].
    + erewrite bind_inl; last by apply run_local_skips, not_in_both_local.
      destruct (run_openai_entry g w "openai" (prepare_options language) ∅
                  (staged w (entry s)))
        as (d & s1 & H1 & Hd);
        [apply list_elem_of_further, list_elem_of_here|exact Hw|by eexists|].
      erewrite bind_inl by exact H1.
      exists d. split; [reflexivity|exact Hd].
  - intros Hl Ho.
    destruct (run_local_returns g w engines (prepare_options language) ∅
                (staged w (entry s)) Hw) as (r1 & s1 & H1); [by eexists|].
    erewrite bind_inl by exact H1.
    destruct (run_openai_returns g w engines (prepare_options language) r1 s1 Hw)
      as (r2 & s2 & H2).
    { destruct (trace_only_run_local g w engines (prepare_options language) ∅
                  (staged w (entry s))) as (_ & Htp & _).
      rewrite H1 in Htp. cbn [snd] in Htp. rewrite Htp. by eexists. }
    erewrite bind_inl by exact H2.
    exists r2. cbn [fst mret M_ret]. unfold Server.shape.
    by rewrite !bool_decide_eq_false_2 by done.
Qed.

(** The theorem at a request for the local engine. *)
Lemma answer_shape_follows_engines_witness :
  is_audio Examples.wav = true
  ∧ tmp_fault Examples.engines_ok = None
  ∧ copy_fault Examples.engines_ok = None
  ∧ Server.whisper_model Examples.compare_both = true
  ∧ engines_raise_Exceptions Examples.engines_ok
  ∧ ∃ d, (Server.transcribe_audio Examples.compare_both Examples.engines_ok
            Examples.wav "auto" "local" Examples.s0).1
         = inl (Server.Single d)
         ∧ d !! "engine" = Some ("local" +:+ "_whisper").
Proof.
  do 4 (split; [reflexivity|]). split; [exact engines_ok_raise_Exceptions|].
  destruct (answer_shape_follows_engines Examples.compare_both
              Examples.engines_ok Examples.wav "auto" "local" Examples.s0
              eq_refl eq_refl eq_refl eq_refl engines_ok_raise_Exceptions)
    as (H1 & _).
  apply H1. by left.
Defined.

(** ** [strip] *)

Lemma append_cons a (s t : string) : String a s +:+ t = String a (s +:+ t).
Proof. reflexivity. Qed.

Lemma append_nil_r (s : string) : s +:+ "" = s.
Proof. induction s as [|a s IH]; [reflexivity|]. by rewrite append_cons, IH. Qed.

Lemma append_assoc (a b c : string) : (a +:+ b) +:+ c = a +:+ (b +:+ c).
Proof.
  induction a as [|x a IH]; [reflexivity|]. by rewrite !append_cons, IH.
Qed.

Lemma rev_app_append (s1 s2 : string) :
  String.rev_app s1 s2 = String.rev s1 +:+ s2.
Proof.
  revert s2. induction s1 as [|a s1 IH]; intros s2; [reflexivity|].
  unfold String.rev. cbn [String.rev_app].
  rewrite (IH (String a s2)), (IH (String a "")), append_assoc.
  reflexivity.
Qed.

Lemma rev_cons a (s : string) : String.rev (String a s) = String.rev s +:+ String a "".
Proof. unfold String.rev at 1. cbn [String.rev_app]. apply rev_app_append. Qed.

Lemma rev_append (a b : string) :
  String.rev (a +:+ b) = String.rev b +:+ String.rev a.
Proof.
  induction a as [|x a IH]; [by rewrite append_nil_r|].
  by rewrite append_cons, !rev_cons, IH, append_assoc.
Qed.

Lemma rev_involutive (s : string) : String.rev (String.rev s) = s.
Proof.
  induction s as [|a s IH]; [reflexivity|].
  by rewrite rev_cons, rev_append, IH.
Qed.

(** *** Dropping leading characters *)

Section Leading.
Variable sp : list Ascii.ascii → bool.

Lemma drop_leading_unfold (s : string) :
  drop_leading sp s
  = match leading sp s with Some r => drop_leading sp r | None => s end.
Proof.
  destruct s as [|a r1]; [reflexivity|]. cbn [leading drop_leading].
  destruct (sp [a]); [reflexivity|].
  destruct r1 as [|b r2]; [reflexivity|].
  destruct (sp [a; b]); [reflexivity|].
  destruct r2 as [|c r3]; [reflexivity|].
  destruct (sp [a; b; c]); reflexivity.
Qed.

(** What [leading] takes off is one to three bytes that [sp] accepts. *)
Lemma leading_split (s r : string) :
  leading sp s = Some r → ∃ e, s = e +:+ r ∧ leading sp e = Some "" ∧ e ≠ "".
Proof.
  destruct s as [|a [|b [|c t]]]; cbn [leading]; [discriminate|..].
  - destruct (sp [a]) eqn:H1; [|discriminate]. intros [= <-].
    exists (String a ""). cbn [leading]. by rewrite H1.
  - destruct (sp [a]) eqn:H1.
    { intros [= <-]. exists (String a ""). cbn [leading]. by rewrite H1. }
    destruct (sp [a; b]) eqn:H2; [|discriminate]. intros [= <-].
    exists (String a (String b "")). cbn [leading]. by rewrite H1, H2.
  - destruct (sp [a]) eqn:H1.
    { intros [= <-]. exists (String a ""). cbn [leading]. by rewrite H1. }
    destruct (sp [a; b]) eqn:H2.
    { intros [= <-]. exists (String a (String b "")). cbn [leading].
      by rewrite H1, H2. }
    destruct (sp [a; b; c]) eqn:H3; [|discriminate]. intros [= <-].
    exists (String a (String b (String c ""))). cbn [leading].
    by rewrite H1, H2, H3.
Qed.

Lemma leading_append (s r t : string) :
  leading sp s = Some r → leading sp (s +:+ t) = Some (r +:+ t).
Proof.
  destruct s as [|a [|b [|c u]]]; cbn [leading]; [discriminate|..];
    rewrite ?append_cons; cbn [leading].
  - destruct (sp [a]); [|discriminate]. by intros [= <-].
  - destruct (sp [a]); [by intros [= <-]|].
    rewrite ?append_cons.
    destruct (sp [a; b]); [|discriminate]. by intros [= <-].
  - destruct (sp [a]); [by intros [= <-]|].
    rewrite ?append_cons.
    destruct (sp [a; b]); [by intros [= <-]|].
    destruct (sp [a; b; c]); [|discriminate]. by intros [= <-].
Qed.

Lemma leading_length (s r : string) :
  leading sp s = Some r → String.length r < String.length s.
Proof.
  intros (e & -> & _ & He)%leading_split.
  destruct e as [|a e]; [done|]. rewrite append_cons.
  cbn [String.length]. clear He.
  induction e as [|b e IH]; [change ("" +:+ r) with r; lia|].
  rewrite append_cons. cbn [String.length]. lia.
Qed.

(** [drop_leading] takes off all there is. *)
Lemma drop_leading_none (s : string) : leading sp (drop_leading sp s) = None.
Proof.
  remember (String.length s) as n eqn:Hn. revert s Hn.
  induction n as [n IH] using lt_wf_ind. intros s ->.
  rewrite drop_leading_unfold.
  destruct (leading sp s) as [r|] eqn:Hl; [|exact Hl].
  exact (IH _ (leading_length _ _ Hl) r eq_refl).
Qed.

(** What it takes off is made of such characters only. *)
Lemma drop_leading_prefix (s : string) :
  ∃ ws, s = ws +:+ drop_leading sp s ∧ drop_leading sp ws = "".
Proof.
  remember (String.length s) as n eqn:Hn. revert s Hn.
  induction n as [n IH] using lt_wf_ind. intros s ->.
  rewrite drop_leading_unfold.
  destruct (leading sp s) as [r|] eqn:Hl; [|by exists ""].
  destruct (IH _ (leading_length _ _ Hl) r eq_refl) as (ws & Hr & Hws).
  destruct (leading_split _ _ Hl) as (e & -> & He & _).
  exists (e +:+ ws). split.
  - rewrite append_assoc. by rewrite <- Hr.
  - rewrite drop_leading_unfold, (leading_append _ _ _ He). exact Hws.
Qed.

Lemma drop_leading_fixed (s : string) :
  leading sp s = None → drop_leading sp s = s.
Proof. intros H. by rewrite drop_leading_unfold, H. Qed.
End Leading.

Lemma starts_with_space_leading (s : string) :
  starts_with_space s = false ↔ leading space_char s = None.
Proof.
  unfold starts_with_space. rewrite bool_decide_eq_false.
  rewrite <- eq_None_not_Some. reflexivity.
Qed.

Lemma ends_with_space_leading (s : string) :
  ends_with_space s = false
  ↔ leading (λ bytes, space_char (reverse bytes)) (String.rev s) = None.
Proof.
  unfold ends_with_space. rewrite bool_decide_eq_false.
  rewrite <- eq_None_not_Some. reflexivity.
Qed.

(** [strip] leaves no white space at either end. *)
Lemma strip_no_edge_space (s : string) :
  starts_with_space (strip s) = false ∧ ends_with_space (strip s) = false.
Proof.
  rewrite starts_with_space_leading, ends_with_space_leading.
  unfold strip, rstrip. rewrite rev_involutive.
  split; [|apply drop_leading_none].
  set (sp' := λ bytes, space_char (reverse bytes)).
  destruct (drop_leading_prefix sp' (String.rev (lstrip s))) as (ws & Hu & _).
  apply (f_equal String.rev) in Hu. rewrite rev_involutive, rev_append in Hu.
  destruct (leading space_char (String.rev (drop_leading sp' _))) as [r|] eqn:Hl;
    [|reflexivity].
  apply (leading_append _ _ _ (String.rev ws)) in Hl.
  rewrite <- Hu in Hl. unfold lstrip in Hl.
  by rewrite drop_leading_none in Hl.
Qed.

(** It removes white space only: what it drops on the left and on the right
    is made of white-space characters. *)
Lemma strip_keeps_the_middle (s : string) :
  ∃ l r, s = l +:+ strip s +:+ r ∧ lstrip l = "" ∧ rstrip r = "".
Proof.
  unfold strip, rstrip.
  set (sp' := λ bytes, space_char (reverse bytes)).
  destruct (drop_leading_prefix space_char s) as (l & Hs & Hl).
  destruct (drop_leading_prefix sp' (String.rev (lstrip s))) as (ws & Hu & Hws).
  exists l, (String.rev ws). split; [|split; [exact Hl|]].
  - rewrite <- rev_append, <- Hu, rev_involutive. exact Hs.
  - rewrite rev_involutive. fold sp'. by rewrite Hws.
Qed.

Lemma strip_fixed (s : string) :
  starts_with_space s = false → ends_with_space s = false → strip s = s.
Proof.
  rewrite starts_with_space_leading, ends_with_space_leading.
  intros H1 H2. unfold strip, rstrip, lstrip.
  rewrite (drop_leading_fixed _ s H1), (drop_leading_fixed _ _ H2).
  apply rev_involutive.
Qed.

Lemma strip_idempotent (s : string) : strip (strip s) = strip s.
Proof. destruct (strip_no_edge_space s). by apply strip_fixed. Qed.

(** *** White space and UTF-8 *)

Lemma isspace_bound c : isspace c = true → (c <= 0x3000)%N.
Proof.
  unfold isspace.
  rewrite !orb_true_iff, !andb_true_iff, !N.leb_le, !N.eqb_eq. lia.
Qed.

Lemma space_char_1 a :
  space_char [a]
  = (Ascii.N_of_ascii a <? 0x80)%N && isspace (Ascii.N_of_ascii a).
Proof.
  unfold space_char. cbn [fmap list_fmap code_point].
  by destruct (_ <? _)%N.
Qed.

Lemma space_char_2 a b :
  space_char [a; b] = true →
  (0xC2 <= Ascii.N_of_ascii a <= 0xDF)%N
  ∧ (0x80 <= Ascii.N_of_ascii b <= 0xBF)%N.
Proof.
  unfold space_char. cbn [fmap list_fmap code_point]. unfold continuation.
  destruct (_ && _) eqn:H; [|discriminate]. intros _.
  rewrite !andb_true_iff, !N.leb_le in H. lia.
Qed.

Lemma space_char_3 a b c :
  space_char [a; b; c] = true →
  (0xE0 <= Ascii.N_of_ascii a <= 0xEF)%N
  ∧ (0x80 <= Ascii.N_of_ascii b <= 0xBF)%N
  ∧ (0x80 <= Ascii.N_of_ascii c <= 0xBF)%N.
Proof.
  unfold space_char. cbn [fmap list_fmap code_point]. unfold continuation.
  cbv zeta.
  destruct (_ && _) eqn:H; [|discriminate]. intros _.
  rewrite !andb_true_iff, !N.leb_le in H. lia.
Qed.

Lemma leading_1 a rest :
  (Ascii.N_of_ascii a < 0x80)%N →
  leading space_char (String a rest)
  = if isspace (Ascii.N_of_ascii a) then Some rest else None.
Proof.
  intros Ha. cbn [leading]. rewrite space_char_1.
  rewrite (proj2 (N.ltb_lt _ _) Ha). cbn [andb].
  destruct (isspace _); [reflexivity|].
  destruct rest as [|b r2]; [reflexivity|].
  destruct (space_char [a; b]) eqn:H2; [apply space_char_2 in H2; lia|].
  destruct r2 as [|c r3]; [reflexivity|].
  destruct (space_char [a; b; c]) eqn:H3; [apply space_char_3 in H3; lia|].
  reflexivity.
Qed.

Lemma leading_2 a b rest :
  (0xC2 <= Ascii.N_of_ascii a <= 0xDF)%N →
  leading space_char (String a (String b rest))
  = if space_char [a; b] then Some rest else None.
Proof.
  intros Ha. cbn [leading]. rewrite space_char_1.
  rewrite (proj2 (N.ltb_ge _ _)) by lia. cbn [andb].
  destruct (space_char [a; b]); [reflexivity|].
  destruct rest as [|c r3]; [reflexivity|].
  destruct (space_char [a; b; c]) eqn:H3; [apply space_char_3 in H3; lia|].
  reflexivity.
Qed.

Lemma leading_3 a b c rest :
  (0xE0 <= Ascii.N_of_ascii a)%N →
  leading space_char (String a (String b (String c rest)))
  = if space_char [a; b; c] then Some rest else None.
Proof.
  intros Ha. cbn [leading]. rewrite space_char_1.
  rewrite (proj2 (N.ltb_ge _ _)) by lia. cbn [andb].
  destruct (space_char [a; b]) eqn:H2; [apply space_char_2 in H2; lia|].
  reflexivity.
Qed.

Lemma N_of_byte n : (n < 256)%N → Ascii.N_of_ascii (Ascii.ascii_of_N n) = n.
Proof. apply Ascii.N_ascii_embedding. Qed.

Lemma byte_append a (s : string) : String a "" +:+ s = String a s.
Proof. reflexivity. Qed.

(** A text that begins with the character [c] starts with white space
    exactly when [str.isspace] holds for [c]. *)
Lemma leading_utf8 (c : N) (rest : string) :
  (c < 0x110000)%N →
  leading space_char (utf8 c +:+ rest) = if isspace c then Some rest else None.
Proof.
  intros Hc. unfold utf8. cbv beta zeta.
  destruct (N.ltb_spec c 0x80) as [H1|H1].
  { rewrite byte_append.
    rewrite leading_1; rewrite N_of_byte by lia; [reflexivity|lia]. }
  replace (c / 0x40000)%N with (c / 0x40 / 0x40 / 0x40)%N
    by (by rewrite !N.Div0.div_div).
  replace (c / 0x1000)%N with (c / 0x40 / 0x40)%N
    by (by rewrite !N.Div0.div_div).
  pose proof (N.div_mod c 0x40 ltac:(lia)) as Hd.
  pose proof (N.mod_lt c 0x40 ltac:(lia)) as Hm.
  pose proof (N.div_mod (c / 0x40) 0x40 ltac:(lia)) as Hd2.
  pose proof (N.mod_lt (c / 0x40) 0x40 ltac:(lia)) as Hm2.
  pose proof (N.div_mod (c / 0x40 / 0x40) 0x40 ltac:(lia)) as Hd3.
  pose proof (N.mod_lt (c / 0x40 / 0x40) 0x40 ltac:(lia)) as Hm3.
  set (q1 := (c / 0x40)%N) in *. set (m1 := (c mod 0x40)%N) in *.
  set (q2 := (q1 / 0x40)%N) in *. set (m2 := (q1 mod 0x40)%N) in *.
  set (q3 := (q2 / 0x40)%N) in *. set (m3 := (q2 mod 0x40)%N) in *.
  clearbody q1 m1 q2 m2 q3 m3.
  destruct (N.ltb_spec c 0x800) as [H2|H2].
  { rewrite !append_assoc, !byte_append.
    rewrite leading_2 by (rewrite N_of_byte; lia).
    unfold space_char. cbn [fmap list_fmap code_point]. unfold continuation.
    rewrite !N_of_byte by lia.
    rewrite !(proj2 (N.leb_le _ _)) by lia. cbn [andb].
    replace ((0xC0 + q1 - 0xC0) * 0x40 + (0x80 + m1 - 0x80))%N
      with c by lia.
    reflexivity. }
  destruct (N.ltb_spec c 0x10000) as [H3|H3].
  { rewrite !append_assoc, !byte_append.
    rewrite leading_3 by (rewrite N_of_byte; lia).
    unfold space_char. cbn [fmap list_fmap code_point]. unfold continuation.
    cbv zeta. rewrite !N_of_byte by lia.
    replace ((0xE0 + q2 - 0xE0) * 0x1000 + (0x80 + m2 - 0x80) * 0x40
             + (0x80 + m1 - 0x80))%N with c by lia.
    rewrite !(proj2 (N.leb_le _ _)) by lia. cbn [andb].
    destruct ((0xD800 <=? c) && (c <=? 0xDFFF))%N eqn:Hs; cbn [negb];
      [|reflexivity].
    rewrite andb_true_iff, !N.leb_le in Hs.
    destruct (isspace c) eqn:Hsp; [|reflexivity].
    apply isspace_bound in Hsp. lia. }
  rewrite !append_assoc, !byte_append.
  rewrite leading_3 by (rewrite N_of_byte; lia).
  destruct (space_char _) eqn:Hsp.
  - apply space_char_3 in Hsp. rewrite N_of_byte in Hsp by lia. lia.
  - destruct (isspace c) eqn:Hs; [|reflexivity].
    apply isspace_bound in Hs. lia.
Qed.

Lemma trailing_1 a rest :
  (Ascii.N_of_ascii a < 0x80)%N →
  leading (λ bytes, space_char (reverse bytes)) (String a rest)
  = if isspace (Ascii.N_of_ascii a) then Some rest else None.
Proof.
  intros Ha. cbn [leading].
  change (reverse [a]) with [a]. rewrite space_char_1.
  rewrite (proj2 (N.ltb_lt _ _) Ha). cbn [andb].
  destruct (isspace _); [reflexivity|].
  destruct rest as [|b r2]; [reflexivity|].
  change (reverse [a; b]) with [b; a].
  destruct (space_char [b; a]) eqn:H2; [apply space_char_2 in H2; lia|].
  destruct r2 as [|c r3]; [reflexivity|].
  change (reverse [a; b; c]) with [c; b; a].
  destruct (space_char [c; b; a]) eqn:H3; [apply space_char_3 in H3; lia|].
  reflexivity.
Qed.

Lemma trailing_2 a b rest :
  (0x80 <= Ascii.N_of_ascii a)%N → (0xC0 <= Ascii.N_of_ascii b)%N →
  leading (λ bytes, space_char (reverse bytes)) (String a (String b rest))
  = if space_char [b; a] then Some rest else None.
Proof.
  intros Ha Hb. cbn [leading].
  change (reverse [a]) with [a]. rewrite space_char_1.
  rewrite (proj2 (N.ltb_ge _ _)) by lia. cbn [andb].
  change (reverse [a; b]) with [b; a].
  destruct (space_char [b; a]); [reflexivity|].
  destruct rest as [|c r3]; [reflexivity|].
  change (reverse [a; b; c]) with [c; b; a].
  destruct (space_char [c; b; a]) eqn:H3; [apply space_char_3 in H3; lia|].
  reflexivity.
Qed.

Lemma trailing_3 a b c rest :
  (0x80 <= Ascii.N_of_ascii a)%N → (Ascii.N_of_ascii b <= 0xBF)%N →
  leading (λ bytes, space_char (reverse bytes))
    (String a (String b (String c rest)))
  = if space_char [c; b; a] then Some rest else None.
Proof.
  intros Ha Hb. cbn [leading].
  change (reverse [a]) with [a]. rewrite space_char_1.
  rewrite (proj2 (N.ltb_ge _ _)) by lia. cbn [andb].
  change (reverse [a; b]) with [b; a].
  destruct (space_char [b; a]) eqn:H2; [apply space_char_2 in H2; lia|].
  reflexivity.
Qed.

Lemma rev_bytes_1 a : String.rev (String a "") = String a "".
Proof. reflexivity. Qed.

Lemma rev_bytes_2 a b :
  String.rev (String a (String b "")) = String b (String a "").
Proof. reflexivity. Qed.

Lemma rev_bytes_3 a b c :
  String.rev (String a (String b (String c "")))
  = String c (String b (String a "")).
Proof. reflexivity. Qed.

Lemma rev_bytes_4 a b c d :
  String.rev (String a (String b (String c (String d ""))))
  = String d (String c (String b (String a ""))).
Proof. reflexivity. Qed.

(** A text that ends with the character [c] ends with white space exactly
    when [str.isspace] holds for [c]. *)
Lemma trailing_utf8 (c : N) (s : string) :
  (c < 0x110000)%N →
  leading (λ bytes, space_char (reverse bytes)) (String.rev (s +:+ utf8 c))
  = if isspace c then Some (String.rev s) else None.
Proof.
  intros Hc. rewrite rev_append. unfold utf8. cbv beta zeta.
  destruct (N.ltb_spec c 0x80) as [H1|H1].
  { rewrite rev_bytes_1, append_cons.
    rewrite trailing_1; rewrite N_of_byte by lia; [reflexivity|lia]. }
  replace (c / 0x40000)%N with (c / 0x40 / 0x40 / 0x40)%N
    by (by rewrite !N.Div0.div_div).
  replace (c / 0x1000)%N with (c / 0x40 / 0x40)%N
    by (by rewrite !N.Div0.div_div).
  pose proof (N.div_mod c 0x40 ltac:(lia)) as Hd.
  pose proof (N.mod_lt c 0x40 ltac:(lia)) as Hm.
  pose proof (N.div_mod (c / 0x40) 0x40 ltac:(lia)) as Hd2.
  pose proof (N.mod_lt (c / 0x40) 0x40 ltac:(lia)) as Hm2.
  pose proof (N.div_mod (c / 0x40 / 0x40) 0x40 ltac:(lia)) as Hd3.
  pose proof (N.mod_lt (c / 0x40 / 0x40) 0x40 ltac:(lia)) as Hm3.
  set (q1 := (c / 0x40)%N) in *. set (m1 := (c mod 0x40)%N) in *.
  set (q2 := (q1 / 0x40)%N) in *. set (m2 := (q1 mod 0x40)%N) in *.
  set (q3 := (q2 / 0x40)%N) in *. set (m3 := (q2 mod 0x40)%N) in *.
  clearbody q1 m1 q2 m2 q3 m3.
  destruct (N.ltb_spec c 0x800) as [H2|H2].
  { rewrite !byte_append, rev_bytes_2, !append_cons.
    rewrite trailing_2 by (rewrite N_of_byte; lia).
    unfold space_char. cbn [fmap list_fmap code_point]. unfold continuation.
    rewrite !N_of_byte by lia.
    rewrite !(proj2 (N.leb_le _ _)) by lia. cbn [andb].
    replace ((0xC0 + q1 - 0xC0) * 0x40 + (0x80 + m1 - 0x80))%N
      with c by lia.
    reflexivity. }
  destruct (N.ltb_spec c 0x10000) as [H3|H3].
  { rewrite ?append_assoc, !byte_append, rev_bytes_3, !append_cons.
    rewrite trailing_3 by (rewrite N_of_byte; lia).
    unfold space_char. cbn [fmap list_fmap code_point]. unfold continuation.
    cbv zeta. rewrite !N_of_byte by lia.
    replace ((0xE0 + q2 - 0xE0) * 0x1000 + (0x80 + m2 - 0x80) * 0x40
             + (0x80 + m1 - 0x80))%N with c by lia.
    rewrite !(proj2 (N.leb_le _ _)) by lia. cbn [andb].
    destruct ((0xD800 <=? c) && (c <=? 0xDFFF))%N eqn:Hs; cbn [negb];
      [|reflexivity].
    rewrite andb_true_iff, !N.leb_le in Hs.
    destruct (isspace c) eqn:Hsp; [|reflexivity].
    apply isspace_bound in Hsp. lia. }
  rewrite ?append_assoc, !byte_append, rev_bytes_4, !append_cons.
  rewrite trailing_3 by (rewrite N_of_byte; lia).
  destruct (space_char _) eqn:Hsp.
  - apply space_char_3 in Hsp. rewrite N_of_byte in Hsp by lia. lia.
  - destruct (isspace c) eqn:Hs; [|reflexivity].
    apply isspace_bound in Hs. lia.
Qed.

Lemma starts_with_space_utf8 (c : N) (rest : string) :
  (c < 0x110000)%N → starts_with_space (utf8 c +:+ rest) = isspace c.
Proof.
  intros Hc. unfold starts_with_space. rewrite leading_utf8 by done.
  destruct (isspace c).
  - apply bool_decide_eq_true. by eexists.
  - apply bool_decide_eq_false. by intros [? ?].
Qed.

Lemma ends_with_space_utf8 (c : N) (s : string) :
  (c < 0x110000)%N → ends_with_space (s +:+ utf8 c) = isspace c.
Proof.
  intros Hc. unfold ends_with_space. rewrite trailing_utf8 by done.
  destruct (isspace c).
  - apply bool_decide_eq_true. by eexists.
  - apply bool_decide_eq_false. by intros [? ?].
Qed.

(** *** [strip] on the characters of a text *)

Lemma lstrip_utf8 (c : N) (rest : string) :
  (c < 0x110000)%N →
  lstrip (utf8 c +:+ rest) = if isspace c then lstrip rest else utf8 c +:+ rest.
Proof.
  intros Hc. unfold lstrip. rewrite drop_leading_unfold, leading_utf8 by done.
  by destruct (isspace c).
Qed.

Lemma rstrip_utf8 (c : N) (s : string) :
  (c < 0x110000)%N →
  rstrip (s +:+ utf8 c) = if isspace c then rstrip s else s +:+ utf8 c.
Proof.
  intros Hc. unfold rstrip. rewrite drop_leading_unfold, trailing_utf8 by done.
  destruct (isspace c); [reflexivity|]. apply rev_involutive.
Qed.

Lemma encode_app (l1 l2 : list N) : encode (l1 ++ l2) = encode l1 +:+ encode l2.
Proof.
  induction l1 as [|c l1 IH]; [reflexivity|].
  cbn [app encode foldr]. fold (encode (l1 ++ l2)) (encode l1).
  by rewrite IH, append_assoc.
Qed.

Lemma drop_spaces_Forall (P : N → Prop) (cs : list N) :
  Forall P cs → Forall P (drop_spaces cs).
Proof.
  induction 1 as [|c cs Hc Hcs IH]; [constructor|].
  cbn [drop_spaces]. destruct (isspace c); [exact IH|by constructor].
Qed.

Lemma lstrip_encode (cs : list N) :
  Forall (λ c, (c < 0x110000)%N) cs →
  lstrip (encode cs) = encode (drop_spaces cs).
Proof.
  induction 1 as [|c cs Hc Hcs IH]; [reflexivity|].
  cbn [encode foldr drop_spaces]. fold (encode cs).
  rewrite lstrip_utf8 by exact Hc. rewrite IH. by destruct (isspace c).
Qed.

Lemma rstrip_encode (cs : list N) :
  Forall (λ c, (c < 0x110000)%N) cs →
  rstrip (encode cs) = encode (reverse (drop_spaces (reverse cs))).
Proof.
  induction cs as [|c cs IH] using rev_ind; [reflexivity|].
  intros [Hcs Hc]%Forall_app. apply Forall_inv in Hc.
  rewrite encode_app. cbn [encode foldr]. rewrite append_nil_r.
  rewrite rstrip_utf8 by exact Hc.
  rewrite reverse_app. cbn [reverse app drop_spaces].
  change (reverse [c]) with [c]. cbn [app drop_spaces].
  destruct (isspace c); [by apply IH|].
  rewrite reverse_cons, reverse_involutive, encode_app.
  cbn [encode foldr]. by rewrite append_nil_r.
Qed.

(** On a text given by its characters, [strip] is [s.strip()]: it removes
    the white-space characters at both ends, and nothing else. *)
Lemma strip_encode (cs : list N) :
  Forall (λ c, (c < 0x110000)%N) cs →
  strip (encode cs) = encode (strip_chars cs).
Proof.
  intros Hcs. unfold strip, strip_chars.
  rewrite lstrip_encode by done.
  by rewrite rstrip_encode by by apply drop_spaces_Forall.
Qed.

(** ** The text of an answer *)

Lemma text_stripped_strip text (rest : list (string * string)) :
  text_stripped (dict (("text", strip text) :: rest)).
Proof.
  exists (strip text). split; [apply lookup_insert_eq|apply strip_no_edge_space].
Qed.

Lemma text_stripped_insert k v (d : gmap string string) :
  k ≠ "text" → text_stripped d → text_stripped (<[k := v]> d).
Proof.
  intros Hk (t & Ht & Hs). exists t. split; [|done].
  by rewrite lookup_insert_ne.
Qed.

Lemma returns_stripped_local_adapter g w p language :
  returns text_stripped (ServerDual.transcribe_with_local_whisper g w p language).
Proof.
  unfold ServerDual.transcribe_with_local_whisper.
  apply returns_bind. intros r. apply returns_ret, text_stripped_strip.
Qed.

Lemma returns_stripped_openai_adapter w p language :
  returns text_stripped (ServerDual.transcribe_with_openai w p language).
Proof.
  unfold ServerDual.transcribe_with_openai.
  apply returns_bind. intros _. apply returns_bind. intros r.
  apply returns_ret, text_stripped_strip.
Qed.

Lemma returns_stripped_attempt g w p language (b1 b2 : bool) e :
  returns text_stripped
    (if b1 then ServerDual.transcribe_with_local_whisper g w p language
     else if b2 then ServerDual.transcribe_with_openai w p language
     else raise e).
Proof.
  apply returns_if; [apply returns_stripped_local_adapter|].
  apply returns_if; [apply returns_stripped_openai_adapter|apply returns_raise].
Qed.

Lemma returns_stripped_dispatch g w sel language :
  returns text_stripped (ServerDual.dispatch g w sel language).
Proof.
  unfold ServerDual.dispatch. apply returns_bind. intros p.
  apply returns_try_except.
  - unfold ServerDual.try_primary. intros s d s'. unfold mbind, M_bind.
    destruct (_ s) as [[r|e] s1] eqn:Hr; [|discriminate].
    intros [= <- <-]. apply text_stripped_insert; [discriminate|].
    by eapply returns_stripped_attempt.
  - intros e. unfold ServerDual.on_primary_error.
    apply returns_if; [|apply returns_raise].
    apply returns_try_except; [|intros e2; apply returns_raise].
    unfold ServerDual.try_fallback. intros s d s'. unfold mbind, M_bind.
    destruct (_ s) as [[r|e'] s1] eqn:Hr; [|discriminate].
    intros [= <- <-].
    do 2 (apply text_stripped_insert; [discriminate|]).
    by eapply returns_stripped_attempt.
Qed.

Lemma returns_stripped_dual g w audio language engine :
  returns text_stripped (ServerDual.transcribe_audio g w audio language engine).
Proof.
  unfold ServerDual.transcribe_audio. apply returns_call.
  apply returns_bind. intros _. apply returns_bind. intros sel.
  apply returns_bind. intros tmp. apply returns_try_finally.
  apply returns_bind. intros _. apply returns_bind. intros _.
  apply returns_stripped_dispatch.
Qed.

Lemma returns_stripped_original g w audio language :
  returns text_stripped (ServerOriginal.transcribe_audio g w audio language).
Proof.
  unfold ServerOriginal.transcribe_audio. apply returns_call.
  apply returns_if; [apply returns_raise|].
  apply returns_bind. intros _. apply returns_bind. intros tmp.
  apply returns_try_finally. apply returns_try_except.
  - apply returns_bind. intros _. apply returns_bind. intros _.
    unfold ServerOriginal.transcribe_staged.
    apply returns_bind. intros p. apply returns_bind. intros r.
    apply returns_ret, text_stripped_strip.
  - intros e. apply returns_raise.
Qed.

Lemma success_stripped_insert name d (results : gmap string (gmap string string)) :
  success_stripped d →
  (∀ n d', results !! n = Some d' → success_stripped d') →
  ∀ n d', <[name := d]> results !! n = Some d' → success_stripped d'.
Proof.
  intros Hd Hr n d'. rewrite lookup_insert. case_decide.
  - by intros [= <-].
  - apply Hr.
Qed.

Lemma returns_stripped_run_local g w engines options results :
  (∀ n d, results !! n = Some d → success_stripped d) →
  returns (λ rs : gmap string (gmap string string),
             ∀ n d, rs !! n = Some d → success_stripped d)
    (Server.run_local g w engines options results).
Proof.
  intros Hr. unfold Server.run_local.
  apply returns_if; [|by apply returns_ret].
  apply returns_try_except.
  - apply returns_bind. intros p. apply returns_bind. intros r.
    apply returns_ret, success_stripped_insert; [|done].
    intros _. apply text_stripped_strip.
  - intros e. apply returns_ret, success_stripped_insert; [|done].
    intros H. exfalso. revert H. change (Some "error" = Some "success" → False).
    discriminate.
Qed.

Lemma returns_stripped_run_openai g w engines options results :
  (∀ n d, results !! n = Some d → success_stripped d) →
  returns (λ rs : gmap string (gmap string string),
             ∀ n d, rs !! n = Some d → success_stripped d)
    (Server.run_openai g w engines options results).
Proof.
  intros Hr. unfold Server.run_openai.
  apply returns_if; [|apply returns_if; [|by apply returns_ret]].
  - apply returns_try_except.
    + apply returns_bind. intros p. apply returns_bind. intros _.
      apply returns_bind. intros r.
      apply returns_ret, success_stripped_insert; [|done].
      intros _. apply text_stripped_strip.
    + intros e. apply returns_ret, success_stripped_insert; [|done].
      intros H. exfalso. revert H.
      change (Some "error" = Some "success" → False). discriminate.
  - apply returns_ret, success_stripped_insert; [|done].
    intros H. exfalso. revert H.
    change (Some "not_configured" = Some "success" → False). discriminate.
Qed.

Lemma returns_stripped_server g w audio language engines :
  returns answer_stripped (Server.transcribe_audio g w audio language engines).
Proof.
  unfold Server.transcribe_audio. apply returns_call.
  apply returns_if; [apply returns_raise|].
  apply returns_bind. intros _. apply returns_bind. intros tmp.
  apply returns_try_finally.
  apply returns_bind. intros _. apply returns_bind. intros _.
  unfold Server.compare_engines.
  intros s a s'. unfold mbind at 1, M_bind at 1.
  destruct (Server.run_local _ _ _ _ _ s) as [[r1|e] s1] eqn:H1; [|discriminate].
  unfold mbind, M_bind.
  destruct (Server.run_openai _ _ _ _ _ s1) as [[r2|e] s2] eqn:H2; [|discriminate].
  intros [= <- <-].
  assert (∀ n d, r2 !! n = Some d → success_stripped d) as Hr2.
  { eapply (returns_stripped_run_openai g w engines _ r1); [|exact H2].
    eapply (returns_stripped_run_local g w engines _ ∅); [|exact H1].
    intros n d. by rewrite lookup_empty. }
  unfold Server.shape.
  repeat case_bool_decide;
    repeat match goal with
           | |- context [match ?x !! ?k with _ => _ end] =>
               destruct (x !! k) eqn:?
           end; cbn [answer_stripped]; eauto.
Qed.

(** X13.  Whatever an engine returns, the text of a successful answer has
    no white space at either end: the [text] of every 200 answer of
    [server_dual.py] and [server_original.py], and of every entry of
    [server.py] tagged [success].  White space is what [str.isspace]
    accepts, the characters outside ASCII included
    ([starts_with_space_utf8], [ends_with_space_utf8]; [strip_encode] for
    what [strip] removes). *)
Theorem successful_text_is_stripped gd gs go w audio language engines engine s :
  (∀ d s', ServerDual.transcribe_audio gd w audio language engine s = (inl d, s') →
           text_stripped d)
  ∧ (∀ d s', ServerOriginal.transcribe_audio go w audio language s = (inl d, s') →
             text_stripped d)
  ∧ (∀ r s', Server.transcribe_audio gs w audio language engines s = (inl r, s') →
             answer_stripped r).
Proof.
  split; [|split].
  - intros d s'. apply returns_stripped_dual.
  - intros d s'. apply returns_stripped_original.
  - intros r s'. apply returns_stripped_server.
Qed.

(** The theorem at an engine that pads its text with a no-break space, a
    blank, an ideographic space and a line separator. *)
Lemma successful_text_is_stripped_witness :
  text_stripped
    (dict [("text", "hello");
           ("language_detected", "en");
           ("confidence", "N/A");
           ("engine", "local_whisper");
           ("model_size", "base");
           ("engine_used", "local_whisper")]).
Proof.
  destruct (successful_text_is_stripped Examples.dual_both Examples.compare_both
              Examples.original_loaded Examples.engines_padded Examples.wav
              "auto" "both" "auto" Examples.s0) as (H1 & _).
  eapply H1. reflexivity.
Defined.

(** ** More on language options *)

Lemma normalize_some language :
  language ≠ "" → language ≠ "auto" →
  normalize language = Some (default language (lang_map !! language)).
Proof.
  intros H1 H2. unfold normalize, prepare_options, truthy.
  rewrite (bool_decide_eq_false_2 _ H1), (bool_decide_eq_false_2 _ H2).
  cbn [negb andb]. apply lookup_insert_eq.
Qed.

(** X14.  The language code an engine is given is absent exactly for the
    empty tag and for [auto]; when present it is never empty nor [auto],
    and it is a tag the mapping leaves alone: normalising it again gives
    it back. *)
Theorem normalize_is_stable language :
  (normalize language = None ↔ language = "" ∨ language = "auto")
  ∧ (∀ code, normalize language = Some code →
             code ≠ "" ∧ code ≠ "auto" ∧ normalize code = Some code).
Proof.
  split.
  - split.
    + intros Hn.
      destruct (decide (language = "")) as [|H1]; [by left|].
      destruct (decide (language = "auto")) as [|H2]; [by right|].
      by rewrite normalize_some in Hn.
    + by intros [-> | ->].
  - intros code Hn.
    destruct (decide (language = "")) as [->|H1]; [discriminate|].
    destruct (decide (language = "auto")) as [->|H2]; [discriminate|].
    rewrite normalize_some in Hn by done. injection Hn as <-.
    destruct (lang_map !! language) as [c|] eqn:Hl; cbn [default].
    + apply lang_map_values in Hl.
      rewrite !elem_of_cons, elem_of_nil in Hl.
      destruct Hl as [->|[->|[->|[]]]]; repeat split; discriminate.
    + repeat split; [done..|].
      rewrite normalize_some by done. by rewrite Hl.
Qed.

(** The theorem at the Hindi tag of the web client. *)
Lemma normalize_is_stable_witness :
  normalize "hi-IN" = Some "hi"
  ∧ "hi" ≠ "" ∧ "hi" ≠ "auto" ∧ normalize "hi" = Some "hi".
Proof.
  split; [reflexivity|].
  exact (proj2 (normalize_is_stable "hi-IN") "hi" eq_refl).
Defined.

(** ** The read-only endpoints *)

(** X15.  In [server_dual.py] the three read-only endpoints agree on which
    engines are available, and say what the handler of [POST /transcribe]
    goes by: [/health], [/engines] and [/] report the same flag for each
    engine, an engine's [status] in [/engines] is ["loaded"] /
    ["connected"] exactly when it is available, and [/health] gives the
    model size (the fallback engine) only when the local model is loaded
    (dual mode is on). *)
Theorem endpoints_agree_on_availability g :
  jpath ["engines"; "local_whisper"; "available"] (ServerDual.health_check g)
  = Some (JBool (ServerDual.available g "local_whisper"))
  ∧ jpath ["engines"; "openai_whisper"; "available"] (ServerDual.health_check g)
    = Some (JBool (ServerDual.available g "openai_whisper"))
  ∧ jpath ["local_whisper"; "available"] (ServerDual.get_engines g)
    = jpath ["engines"; "local_whisper"; "available"] (ServerDual.health_check g)
  ∧ jpath ["openai_whisper"; "available"] (ServerDual.get_engines g)
    = jpath ["engines"; "openai_whisper"; "available"] (ServerDual.health_check g)
  ∧ jpath ["engines_available"; "local_whisper"] (ServerDual.root g)
    = jpath ["engines"; "local_whisper"; "available"] (ServerDual.health_check g)
  ∧ jpath ["engines_available"; "openai_whisper"] (ServerDual.root g)
    = jpath ["engines"; "openai_whisper"; "available"] (ServerDual.health_check g)
  ∧ (jpath ["local_whisper"; "status"] (ServerDual.get_engines g)
     = Some (JStr "loaded")
     ↔ ServerDual.available g "local_whisper" = true)
  ∧ (jpath ["openai_whisper"; "status"] (ServerDual.get_engines g)
     = Some (JStr "connected")
     ↔ ServerDual.available g "openai_whisper" = true)
  ∧ (jpath ["engines"; "local_whisper"; "model_size"] (ServerDual.health_check g)
     = Some JNull
     ↔ ServerDual.available g "local_whisper" = false)
  ∧ (jpath ["fallback_engine"] (ServerDual.health_check g) = Some JNull
     ↔ ServerDual.ENABLE_DUAL_ENGINE g = false).
Proof.
  destruct g as [l o size primary fallback dual].
  unfold ServerDual.available.
  cbn [ServerDual.local_whisper_model ServerDual.openai_client].
  rewrite (bool_decide_eq_true_2 ("local_whisper" = "local_whisper") eq_refl).
  rewrite (bool_decide_eq_true_2 ("openai_whisper" = "openai_whisper") eq_refl).
  rewrite (bool_decide_eq_false_2 ("openai_whisper" = "local_whisper"))
    by discriminate.
  rewrite (bool_decide_eq_false_2 ("local_whisper" = "openai_whisper"))
    by discriminate.
  cbn [andb orb]. rewrite orb_false_r.
  repeat split; try reflexivity;
    destruct l, o, dual; vm_compute; intros; congruence.
Qed.

Lemma run_local_outcome g w engines options results s :
  is_Some (temp_path s) →
  (∃ r s', Server.run_local g w engines options results s = (inl r, s')
           ∧ temp_path s' = temp_path s)
  ∨ (∃ e, is_Exception e = false
          ∧ (Server.run_local g w engines options results s).1 = inr e).
Proof.
  intros [p Hp]. unfold Server.run_local.
  destruct (_ && _); [|left; by do 2 eexists].
  unfold try_except, mbind, M_bind, read_temp_path, model_transcribe.
  rewrite Hp.
  destruct (whisper_transcribe w _ _ _) as [text lang|e].
  - left. do 2 eexists. split; [reflexivity|exact Hp].
  - destruct (is_Exception e) eqn:He.
    + left. do 2 eexists. split; [reflexivity|exact Hp].
    + right. by exists e.
Qed.

Lemma run_openai_outcome g w engines options results s :
  is_Some (temp_path s) →
  (∃ r s', Server.run_openai g w engines options results s = (inl r, s'))
  ∨ (∃ e, is_Exception e = false
          ∧ (Server.run_openai g w engines options results s).1 = inr e).
Proof.
  intros [p Hp]. unfold Server.run_openai.
  destruct (_ && Server.openai_client g).
  - unfold try_except, mbind, M_bind, read_temp_path, open_rb,
      transcriptions_create.
    rewrite Hp. case_bool_decide.
    + destruct (openai_create w _ _ _) as [text|e].
      * left. do 2 eexists. reflexivity.
      * destruct (is_Exception e) eqn:He.
        -- left. do 2 eexists. reflexivity.
        -- right. by exists e.
    + cbn [is_Exception]. left. do 2 eexists. reflexivity.
  - left. destruct (_ && _); do 2 eexists; reflexivity.
Qed.

Lemma compare_engines_outcome g w audio language engines s :
  is_Some (temp_path s) →
  (∃ r, (Server.compare_engines g w audio language engines s).1 = inl r)
  ∨ (∃ e, is_Exception e = false
          ∧ (Server.compare_engines g w audio language engines s).1 = inr e).
Proof.
  intros Hp. unfold Server.compare_engines.
  destruct (run_local_outcome g w engines (prepare_options language) ∅ s Hp)
    as [(r1 & s1 & H1 & Hp1)|(e & He & H1)].
  - erewrite bind_inl by exact H1.
    destruct (run_openai_outcome g w engines (prepare_options language) r1 s1)
      as [(r2 & s2 & H2)|(e & He & H2)]; [by rewrite Hp1|..].
    + erewrite bind_inl by exact H2. left. by eexists.
    + right. exists e. split; [done|].
      unfold mbind, M_bind in *.
      destruct (Server.run_openai _ _ _ _ _ s1) as [[r|e'] s2];
        cbn [fst] in H2; [discriminate|]. by injection H2 as ->.
  - right. exists e. split; [done|].
    unfold mbind, M_bind in *.
    destruct (Server.run_local _ _ _ _ _ s) as [[r|e'] s2];
      cbn [fst] in H1; [discriminate|]. by injection H1 as ->.
Qed.

Lemma status_of_uncaught {A} (e : exn) :
  is_Exception e = false → status_of (@inr A exn e) = None.
Proof. by destruct e. Qed.

(** X16.  [POST /transcribe] answers 503 exactly when [/health] says so,
    provided the temporary file can be created: in [server_dual.py], for an
    audio upload and engine [auto], exactly when [/health] reports both
    engines unavailable; in [server.py], for every request (any upload,
    audio or not, with or without a content type), exactly when [/health]
    reports the model not loaded. *)
Theorem unavailable_exactly_when_health_says_so gd gs w audio language engines s :
  tmp_fault w = None →
  (is_audio audio = true →
   (status_of (ServerDual.transcribe_audio gd w audio language "auto" s).1
    = Some 503
    ↔ jpath ["engines"; "local_whisper"; "available"] (ServerDual.health_check gd)
      = Some (JBool false)
      ∧ jpath ["engines"; "openai_whisper"; "available"]
          (ServerDual.health_check gd)
        = Some (JBool false)))
  ∧ (status_of (Server.transcribe_audio gs w audio language engines s).1
     = Some 503
     ↔ jpath ["model_loaded"] (Server.health_check gs) = Some (JBool false)).
Proof.
  intros Ht. split.
  - intros Ha.
    change (jpath ["engines"; "local_whisper"; "available"]
              (ServerDual.health_check gd))
      with (Some (JBool (ServerDual.local_whisper_model gd))).
    change (jpath ["engines"; "openai_whisper"; "available"]
              (ServerDual.health_check gd))
      with (Some (JBool (ServerDual.openai_client gd))).
    destruct (ServerDual.selectable gd "auto") eqn:Hsel.
    + assert (¬ (ServerDual.local_whisper_model gd = false
                 ∧ ServerDual.openai_client gd = false)) as Hsome.
      { intros [Hl Ho]. unfold ServerDual.selectable in Hsel.
        rewrite Hl, Ho in Hsel. discriminate. }
      assert (status_of (ServerDual.transcribe_audio gd w audio language "auto" s).1
              ≠ Some 503) as Hne.
      { destruct (copy_fault w) as [e|] eqn:Hc.
        - by erewrite dual_copy_raises.
        - destruct (select_selectable gd "auto" (entry s) Hsel) as (sel & Hs).
          rewrite (dual_staged gd w audio language "auto" s sel) by done.
          destruct (staged_then_cleanup (ServerDual.dispatch gd w sel language)
                      w (entry s) (trace_only_dispatch _ _ _ _))
            as (s' & -> & _).
          cbn [fst]. apply status_not_503_400.
          destruct (dispatch_outcome gd w sel language (staged w (entry s)))
            as [H|[H|[H|H]]]; [by left|by right; left|by right; right|].
          discriminate. }
      split; [done|].
      intros [[= Hl] [= Ho]]. destruct Hsome. by split.
    + unfold ServerDual.selectable in Hsel.
      apply orb_false_elim in Hsel as [[_ Hl]%orb_false_elim Ho].
      rewrite dual_auto_none by done. rewrite Hl, Ho. done.
  - change (jpath ["model_loaded"] (Server.health_check gs))
      with (Some (JBool (Server.whisper_model gs))).
    destruct (Server.whisper_model gs) eqn:Hm; [|by rewrite server_not_loaded].
    assert (status_of (Server.transcribe_audio gs w audio language engines s).1
            ≠ Some 503) as Hne; [|split; [done|discriminate]].
    destruct (content_type audio) as [ct|] eqn:Hct.
    + destruct (startswith "audio/" ct) eqn:Hs.
      * assert (is_audio audio = true) as Ha.
        { unfold is_audio. by rewrite Hct. }
        destruct (copy_fault w) as [e|] eqn:Hc.
        -- by erewrite server_copy_raises.
        -- rewrite server_staged by done.
           destruct (staged_then_cleanup
                       (Server.compare_engines gs w audio language engines)
                       w (entry s) (trace_only_compare_engines _ _ _ _ _))
             as (s' & -> & _).
           cbn [fst].
           destruct (compare_engines_outcome gs w audio language engines
                       (staged w (entry s))) as [[r ->]|(e & He & ->)];
             [by eexists|done|].
           by rewrite status_of_uncaught.
      * unfold Server.transcribe_audio, call. rewrite Hm. cbn [negb].
        erewrite bind_inr; [|by eapply check_content_type_not_audio].
        discriminate.
    + unfold Server.transcribe_audio, call. rewrite Hm. cbn [negb].
      erewrite bind_inr; [|by apply check_content_type_missing].
      discriminate.
Qed.

(** The theorem with nothing available: an audio upload for
    [server_dual.py], a text upload for [server.py]. *)
Lemma unavailable_exactly_when_health_says_so_witness :
  tmp_fault Examples.engines_ok = None
  ∧ is_audio Examples.wav = true
  ∧ is_audio (Upload (Some "text/plain") "notes.txt") = false
  ∧ (status_of (ServerDual.transcribe_audio Examples.dual_none
                  Examples.engines_ok Examples.wav "auto" "auto" Examples.s0).1
     = Some 503
     ↔ jpath ["engines"; "local_whisper"; "available"]
         (ServerDual.health_check Examples.dual_none)
       = Some (JBool false)
       ∧ jpath ["engines"; "openai_whisper"; "available"]
           (ServerDual.health_check Examples.dual_none)
         = Some (JBool false))
  ∧ (status_of (Server.transcribe_audio Examples.compare_both
                  Examples.engines_ok (Upload (Some "text/plain") "notes.txt")
                  "auto" "both" Examples.s0).1
     = Some 503
     ↔ jpath ["model_loaded"] (Server.health_check Examples.compare_both)
       = Some (JBool false)).
Proof.
  do 3 (split; [reflexivity|]).
  split.
  - exact (proj1 (unavailable_exactly_when_health_says_so Examples.dual_none
                    Examples.compare_both Examples.engines_ok Examples.wav
                    "auto" "both" Examples.s0 eq_refl) eq_refl).
  - exact (proj2 (unavailable_exactly_when_health_says_so Examples.dual_none
                    Examples.compare_both Examples.engines_ok
                    (Upload (Some "text/plain") "notes.txt")
                    "auto" "both" Examples.s0 eq_refl)).
Defined.

(** ** Start-up *)

Lemma attempt_caught r :
  (∀ e, r = Some e → is_Exception e = true) →
  attempt r = inl (match r with Some _ => false | None => true end).
Proof.
  intros H. destruct r as [e|]; [|reflexivity].
  cbn. by rewrite (H e eq_refl).
Qed.

Lemma init_openai_caught b :
  (∀ key e, connect b key = Some e → is_Exception e = true) →
  ∃ client, init_openai b = inl client
    ∧ (client = true
       ↔ ∃ key, environ b !! "OPENAI_API_KEY" = Some key
                ∧ key ≠ "" ∧ key ≠ placeholder_key ∧ connect b key = None).
Proof.
  intros Hc. unfold init_openai, truthy.
  destruct (environ b !! "OPENAI_API_KEY") as [key|] eqn:Hk.
  - case_bool_decide as He; cbn [negb andb].
    + exists false. split; [done|]. split; [done|].
      intros (k & [= <-] & Hne & _). done.
    + case_bool_decide as Hp; cbn [negb].
      * exists false. split; [done|]. split; [done|].
        intros (k & [= <-] & _ & Hnp & _). done.
      * rewrite (attempt_caught _ (Hc key)).
        eexists. split; [reflexivity|].
        destruct (connect b key) as [e|] eqn:Hcon.
        -- split; [done|]. intros (k & [= <-] & _ & _ & Hn). congruence.
        -- split; [|done]. intros _. by exists key.
  - exists false. split; [done|]. split; [done|].
    intros (k & [=] & _).
Qed.

(** X17.  Start-up of [server_dual.py] and of [server.py] does not fail
    when loading the model or reaching OpenAI raises an [Exception]: it
    leaves the engine unavailable.  Afterwards the local engine is
    available exactly when the model of the configured size loaded, and
    the remote engine exactly when [OPENAI_API_KEY] is set, is not empty,
    is not the placeholder of the example [.env], and building the client
    and listing its models raised nothing. *)
Theorem startup_settles_availability b :
  boot_raises_Exceptions b →
  (∃ g, ServerDual.startup_event b = inl g
        ∧ (ServerDual.local_whisper_model g = true
           ↔ load_model b (getenv (environ b) "WHISPER_MODEL_SIZE" "base") = None)
        ∧ (ServerDual.openai_client g = true
           ↔ ∃ key, environ b !! "OPENAI_API_KEY" = Some key
                    ∧ key ≠ "" ∧ key ≠ placeholder_key
                    ∧ connect b key = None))
  ∧ (∃ g, Server.startup_event b = inl g
          ∧ (Server.whisper_model g = true
             ↔ load_model b (getenv (environ b) "WHISPER_MODEL_SIZE" "base") = None)
          ∧ (Server.openai_client g = true
             ↔ ∃ key, environ b !! "OPENAI_API_KEY" = Some key
                      ∧ key ≠ "" ∧ key ≠ placeholder_key
                      ∧ connect b key = None)).
Proof.
  intros [Hl Hc].
  destruct (init_openai_caught b Hc) as (client & Hi & Hcl).
  split.
  - unfold ServerDual.startup_event. cbv zeta.
    rewrite (attempt_caught _ (Hl _)), Hi.
    eexists. split; [reflexivity|]. split; [|exact Hcl].
    cbn [ServerDual.local_whisper_model].
    by destruct (load_model b _).
  - unfold Server.startup_event. cbv zeta.
    rewrite (attempt_caught _ (Hl _)), Hi.
    eexists. split; [reflexivity|]. split; [|exact Hcl].
    cbn [Server.whisper_model].
    by destruct (load_model b _).
Qed.

Lemma boot_ok_raises_Exceptions : boot_raises_Exceptions Examples.boot_ok.
Proof. split; intros; discriminate. Defined.

Lemma boot_bare_raises_Exceptions : boot_raises_Exceptions Examples.boot_bare.
Proof. split; [intros size e [= <-]; reflexivity|intros; discriminate]. Defined.

(** The theorem at a start-up where everything works. *)
Lemma startup_settles_availability_witness :
  boot_raises_Exceptions Examples.boot_ok
  ∧ ∃ g, ServerDual.startup_event Examples.boot_ok = inl g
         ∧ (ServerDual.local_whisper_model g = true
            ↔ load_model Examples.boot_ok
                (getenv (environ Examples.boot_ok) "WHISPER_MODEL_SIZE" "base")
              = None)
         ∧ (ServerDual.openai_client g = true
            ↔ ∃ key, environ Examples.boot_ok !! "OPENAI_API_KEY" = Some key
                     ∧ key ≠ "" ∧ key ≠ placeholder_key
                     ∧ connect Examples.boot_ok key = None).
Proof.
  split; [exact boot_ok_raises_Exceptions|].
  destruct (startup_settles_availability Examples.boot_ok
              boot_ok_raises_Exceptions) as (H1 & _).
  exact H1.
Defined.

(** X18.  When the model fails to load at start-up, [server.py] refuses
    every request with 503 from then on, also when its OpenAI client is
    connected; [server_dual.py] refuses the audio requests for [auto] with
    503 when, besides, the API key is missing, empty or the placeholder. *)
Theorem failed_startup_refuses_requests b w audio language engines s e :
  load_model b (getenv (environ b) "WHISPER_MODEL_SIZE" "base") = Some e →
  is_Exception e = true →
  (∀ key e', connect b key = Some e' → is_Exception e' = true) →
  (∃ g, Server.startup_event b = inl g
        ∧ Server.transcribe_audio g w audio language engines s
          = (inr (HTTPException 503 "Whisper model not loaded"), entry s))
  ∧ (is_audio audio = true →
     environ b !! "OPENAI_API_KEY" ∈ [None; Some ""; Some placeholder_key] →
     ∃ g, ServerDual.startup_event b = inl g
          ∧ ServerDual.transcribe_audio g w audio language "auto" s
            = (inr (HTTPException 503 "No transcription engines available"),
               entry s)).
Proof.
  intros Hl He Hc.
  destruct (init_openai_caught b Hc) as (client & Hi & Hcl).
  split.
  - unfold Server.startup_event. cbv zeta. rewrite Hl. cbn [attempt].
    rewrite He, Hi. eexists. split; [reflexivity|].
    by apply server_not_loaded.
  - intros Ha Hk.
    unfold ServerDual.startup_event. cbv zeta. rewrite Hl. cbn [attempt].
    rewrite He, Hi. eexists. split; [reflexivity|].
    apply dual_auto_none; [done|reflexivity|].
    cbn [ServerDual.openai_client].
    destruct client; [|reflexivity].
    destruct (proj1 Hcl eq_refl) as (key & Hkey & Hne & Hnp & _).
    rewrite Hkey, !elem_of_cons, elem_of_nil in Hk.
    destruct Hk as [[=]|[[= ->]|[[= ->]|[]]]]; done.
Qed.

Lemma placeholder_is_no_key :
  environ Examples.boot_bare !! "OPENAI_API_KEY"
  ∈ [None; Some ""; Some placeholder_key].
Proof. do 2 apply list_elem_of_further. apply list_elem_of_here. Defined.

(** The theorem at a start-up without model and with the placeholder
    key. *)
Lemma failed_startup_refuses_requests_witness :
  load_model Examples.boot_bare
    (getenv (environ Examples.boot_bare) "WHISPER_MODEL_SIZE" "base")
  = Some (Exception "CUDA driver not found")
  ∧ is_Exception (Exception "CUDA driver not found") = true
  ∧ (∀ key e', connect Examples.boot_bare key = Some e' →
               is_Exception e' = true)
  ∧ is_audio Examples.wav = true
  ∧ (∃ g, Server.startup_event Examples.boot_bare = inl g
          ∧ Server.transcribe_audio g Examples.engines_ok Examples.wav
              "auto" "openai" Examples.s0
            = (inr (HTTPException 503 "Whisper model not loaded"),
               entry Examples.s0))
  ∧ ∃ g, ServerDual.startup_event Examples.boot_bare = inl g
         ∧ ServerDual.transcribe_audio g Examples.engines_ok Examples.wav
             "auto" "auto" Examples.s0
           = (inr (HTTPException 503 "No transcription engines available"),
              entry Examples.s0).
Proof.
  do 2 (split; [reflexivity|]).
  split; [exact (proj2 boot_bare_raises_Exceptions)|].
  split; [reflexivity|].
  destruct (failed_startup_refuses_requests Examples.boot_bare
              Examples.engines_ok Examples.wav "auto" "openai" Examples.s0
              (Exception "CUDA driver not found")
              eq_refl eq_refl (proj2 boot_bare_raises_Exceptions))
    as (H1 & H2).
  split; [exact H1|].
  exact (H2 eq_refl placeholder_is_no_key).
Defined.

(** ** [server_dual.py]: when no fallback can run *)

(** X19.  When the first attempt raises an [Exception] and no fallback can
    run, the request fails with 500 and no second engine call is made.
    No fallback can run when dual mode is off (whether or not the fallback
    engine is available), when [FALLBACK_ENGINE] is empty, or when the
    fallback engine cannot serve (not loaded, not configured, or a name
    that is no engine).  With dual mode off or [FALLBACK_ENGINE] empty the
    detail is ["Transcription failed: <message>"]; otherwise it is
    ["Both engines failed..."], naming the fallback engine as not
    available.  The temporary file is unlinked. *)
Theorem failure_without_usable_fallback g w audio language engine s sel e1 s1 :
  is_audio audio = true → tmp_fault w = None → copy_fault w = None →
  ServerDual.select_engine g engine (entry s) = (inl sel, entry s) →
  ServerDual.try_primary g w sel (tmp_name w) language (staged w (entry s))
  = (inr e1, s1) →
  is_Exception e1 = true →
  ServerDual.ENABLE_DUAL_ENGINE g = false
  ∨ ServerDual.available g (ServerDual.FALLBACK_ENGINE g) = false →
  (ServerDual.transcribe_audio g w audio language engine s).1
  = inr (HTTPException 500
           (if ServerDual.ENABLE_DUAL_ENGINE g
               && truthy (ServerDual.FALLBACK_ENGINE g)
            then "Both engines failed. Primary: " +:+ str e1
                   +:+ ", Fallback: Fallback engine "
                   +:+ ServerDual.FALLBACK_ENGINE g +:+ " not available"
            else "Transcription failed: " +:+ str e1))
  ∧ trace (ServerDual.transcribe_audio g w audio language engine s).2
    = trace s1 ++ [Unlinked (tmp_name w)].
Proof.
  intros Ha Ht Hc Hsel Hp He1 Hno.
  rewrite (dual_staged g w audio language engine s sel) by done.
  destruct (staged_then_cleanup (ServerDual.dispatch g w sel language)
              w (entry s) (trace_only_dispatch _ _ _ _))
    as (s' & -> & _ & Htr).
  cbn [fst snd]. rewrite Htr.
  rewrite (dispatch_primary_fails g w sel language _ (tmp_name w) e1 s1)
    by done.
  unfold ServerDual.on_primary_error.
  destruct (ServerDual.ENABLE_DUAL_ENGINE g) eqn:Hdual; cbn [andb];
    [|split; reflexivity].
  destruct Hno as [|Hav]; [discriminate|].
  destruct (truthy _); [|split; reflexivity].
  assert (ServerDual.try_fallback g w e1 (tmp_name w) language s1
          = (inr (Exception ("Fallback engine " +:+ ServerDual.FALLBACK_ENGINE g
                               +:+ " not available")), s1)) as Hf.
  { unfold ServerDual.available in Hav.
    apply orb_false_elim in Hav as [H1 H2].
    unfold ServerDual.try_fallback. by rewrite H1, H2. }
  erewrite try_except_caught; [|exact Hf|reflexivity].
  split; reflexivity.
Qed.

(** The theorem when the local model raises: with dual mode off and the
    remote engine connected, and with dual mode on and no remote engine. *)
Lemma failure_without_usable_fallback_witness :
  is_audio Examples.wav = true
  ∧ tmp_fault Examples.local_fails = None
  ∧ copy_fault Examples.local_fails = None
  ∧ is_Exception (Exception "CUDA out of memory") = true
  ∧ ServerDual.available
      (ServerDual.Globals true true "base" "local_whisper" "openai_whisper" false)
      "openai_whisper" = true
  ∧ ServerDual.available
      (ServerDual.Globals true false "base" "local_whisper" "openai_whisper" true)
      "openai_whisper" = false
  ∧ (ServerDual.transcribe_audio
       (ServerDual.Globals true true "base" "local_whisper" "openai_whisper" false)
       Examples.local_fails Examples.wav "auto" "auto" Examples.s0).1
    = inr (HTTPException 500 "Transcription failed: CUDA out of memory")
  ∧ trace (ServerDual.transcribe_audio
             (ServerDual.Globals true true "base" "local_whisper"
                "openai_whisper" false)
             Examples.local_fails Examples.wav "auto" "auto" Examples.s0).2
    = [Created Examples.tmp; Copied Examples.tmp;
       LocalWhisper Examples.tmp None; Unlinked Examples.tmp]
  ∧ (ServerDual.transcribe_audio
       (ServerDual.Globals true false "base" "local_whisper" "openai_whisper" true)
       Examples.local_fails Examples.wav "auto" "auto" Examples.s0).1
    = inr (HTTPException 500
             "Both engines failed. Primary: CUDA out of memory, Fallback: Fallback engine openai_whisper not available")
  ∧ trace (ServerDual.transcribe_audio
             (ServerDual.Globals true false "base" "local_whisper"
                "openai_whisper" true)
             Examples.local_fails Examples.wav "auto" "auto" Examples.s0).2
    = [Created Examples.tmp; Copied Examples.tmp;
       LocalWhisper Examples.tmp None; Unlinked Examples.tmp].
Proof.
  do 6 (split; [reflexivity|]).
  destruct (failure_without_usable_fallback
              (ServerDual.Globals true true "base" "local_whisper"
                 "openai_whisper" false)
              Examples.local_fails Examples.wav "auto" "auto" Examples.s0
              "local_whisper" (Exception "CUDA out of memory")
              (log (LocalWhisper Examples.tmp None)
                 (staged Examples.local_fails (entry Examples.s0)))
              eq_refl eq_refl eq_refl eq_refl eq_refl eq_refl
              (or_introl eq_refl))
    as (H1 & H2).
  destruct (failure_without_usable_fallback
              (ServerDual.Globals true false "base" "local_whisper"
                 "openai_whisper" true)
              Examples.local_fails Examples.wav "auto" "auto" Examples.s0
              "local_whisper" (Exception "CUDA out of memory")
              (log (LocalWhisper Examples.tmp None)
                 (staged Examples.local_fails (entry Examples.s0)))
              eq_refl eq_refl eq_refl eq_refl eq_refl eq_refl
              (or_intror eq_refl))
    as (H3 & H4).
  split; [exact H1|]. split; [exact H2|]. split; [exact H3|exact H4].
Defined.

(** ** [server_original.py]: start-up and what follows from it *)

Lemma original_outcome g w audio language s :
  ServerOriginal.whisper_model g = true → is_audio audio = true →
  tmp_fault w = None → copy_fault w = None →
  (∃ d, (ServerOriginal.transcribe_audio g w audio language s).1 = inl d)
  ∨ (∃ e, (ServerOriginal.transcribe_audio g w audio language s).1
          = inr (HTTPException 500 ("Transcription failed: " +:+ str e)))
  ∨ (∃ e, (ServerOriginal.transcribe_audio g w audio language s).1 = inr e
          ∧ is_Exception e = false).
Proof.
  intros Hm Ha Ht Hc.
  rewrite original_staged by done.
  edestruct (staged_then_cleanup
              (try_except (ServerOriginal.transcribe_staged g w language)
                 ServerOriginal.transcription_failed) w (entry s)) as (s' & -> & _).
  { auto using trace_only_transcribe_staged, trace_only_transcription_failed
      with trace_only. }
  cbn [fst].
  unfold try_except, ServerOriginal.transcribe_staged, mbind, M_bind,
    read_temp_path, model_transcribe.
  cbn [temp_path staged].
  destruct (whisper_transcribe w _ _ _) as [text lang|e] eqn:Hr.
  - left. eexists. reflexivity.
  - right. destruct (is_Exception e) eqn:He.
    + left. exists e. reflexivity.
    + right. exists e. split; [reflexivity|exact He].
Qed.

(** X20.  [server_original.py] always loads the model ["base"]: the
    environment plays no part.  When loading raises an [Exception], start-up
    still completes; from then on [/health] reports [model_loaded] false
    and every [POST /transcribe] is answered 503, with nothing staged and
    no engine called.  When loading succeeds, [/health] reports the model
    loaded and no request is answered 503. *)
Theorem original_startup_decides_service b w audio language s :
  (∀ e, load_model b "base" = Some e → is_Exception e = true) →
  ∃ g, ServerOriginal.startup_event b = inl g
       ∧ jpath ["model_size"] (ServerOriginal.health_check g)
         = Some (JStr "base")
       ∧ (load_model b "base" ≠ None →
          jpath ["model_loaded"] (ServerOriginal.health_check g)
          = Some (JBool false)
          ∧ ServerOriginal.transcribe_audio g w audio language s
            = (inr (HTTPException 503 "Whisper model not loaded"), entry s))
       ∧ (load_model b "base" = None →
          jpath ["model_loaded"] (ServerOriginal.health_check g)
          = Some (JBool true)
          ∧ (tmp_fault w = None → is_audio audio = true →
             status_of (ServerOriginal.transcribe_audio g w audio language s).1
             ≠ Some 503)).
Proof.
  intros Hl. unfold ServerOriginal.startup_event.
  rewrite (attempt_caught _ Hl). eexists. split; [reflexivity|].
  split; [reflexivity|].
  destruct (load_model b "base") as [e|] eqn:He.
  - split; [|intros [=]]. intros _. split; [reflexivity|].
    by apply original_not_loaded.
  - split; [intros H; by destruct H|]. intros _. split; [reflexivity|].
    intros Ht Ha.
    destruct (copy_fault w) as [ec|] eqn:Hc.
    + erewrite original_copy_raises by done. cbn. discriminate.
    + destruct (original_outcome
                  (ServerOriginal.Globals true "base") w audio language s
                  eq_refl Ha Ht Hc)
        as [(d & H)|[(m & H)|(m & H & Hm)]]; rewrite H.
      * discriminate.
      * discriminate.
      * rewrite (status_of_uncaught m Hm). discriminate.
Qed.

(** The theorem at a start-up where the model does not load. *)
Lemma original_startup_decides_service_witness :
  (∀ e, load_model Examples.boot_bare "base" = Some e → is_Exception e = true)
  ∧ load_model Examples.boot_bare "base" ≠ None
  ∧ ∃ g, ServerOriginal.startup_event Examples.boot_bare = inl g
         ∧ jpath ["model_loaded"] (ServerOriginal.health_check g)
           = Some (JBool false)
         ∧ ServerOriginal.transcribe_audio g Examples.engines_ok Examples.wav
             "auto" Examples.s0
           = (inr (HTTPException 503 "Whisper model not loaded"),
              entry Examples.s0).
Proof.
  split; [exact (proj1 boot_bare_raises_Exceptions "base")|].
  split; [discriminate|].
  destruct (original_startup_decides_service Examples.boot_bare
              Examples.engines_ok Examples.wav "auto" Examples.s0
              (proj1 boot_bare_raises_Exceptions "base"))
    as (g & Hg & _ & Hbad & _).
  exists g. split; [exact Hg|].
  apply Hbad. discriminate.
Defined.
